(** * PMO Portfolio backend: cached, paginated query execution

    A shallow embedding of [backend/pagination_service.py],
    [backend/cache_service.py] and the query paths of
    [backend/databricks_client.py], with the properties the specification
    states about them.

    Conventions of the embedding.
    - A Python [int] is a [Z]; a Python [str] is a [string] whose characters
      are the code points below 256; [str.upper], [str.rstrip], [repr] and
      [str.encode] are given on that range.
    - [total_count / page_size] is a double: the division is the correctly
      rounded one of binary64, written out on integers.
    - A Python exception is a value of [exn]; a call that can raise returns
      a [result].  Logging is left out.
    - The two cache tiers and the warehouse are collaborators.  A tier is a
      finite map from key to entry with the time at which the entry expires;
      time is a count of seconds, passed to every operation that reads the
      clock.  The warehouse is a function from query to rows. *)

From Stdlib Require Import ZArith Lia Bool List Ascii String.
From Stdlib Require Import Numbers.DecimalString.
From Stdlib Require Import DecimalFacts DecimalPos DecimalZ.
From stdpp Require Import base option list gmap strings.

Import ListNotations.
Local Open Scope string_scope.
Local Open Scope Z_scope.

(** ** Exceptions *)

Inductive exn : Type :=
| ZeroDivisionError
| OverflowError
| ValueError
| StoreError      (* any error raised by the client of a cache tier *)
| RemoteError.    (* any error raised by the warehouse connector *)

Inductive result (A : Type) : Type :=
| Ok (a : A)
| Raise (e : exn).
Arguments Ok {A} a.
Arguments Raise {A} e.

#[global] Instance result_ret : MRet result := fun _ a => Ok a.

#[global] Instance result_bind : MBind result := fun _ _ k r =>
  match r with
  | Ok a => k a
  | Raise e => Raise e
  end.

(** ** Strings *)

Module Str.

(** [c in s] for a single character. *)
Fixpoint mem (c : ascii) (s : string) : bool :=
  match s with
  | EmptyString => false
  | String d s' => Ascii.eqb c d || mem c s'
  end.

(** [s.startswith(p)] *)
Fixpoint starts_with (p s : string) : bool :=
  match p, s with
  | EmptyString, _ => true
  | String _ _, EmptyString => false
  | String a p', String b s' => Ascii.eqb a b && starts_with p' s'
  end.

(** [p in s] *)
Fixpoint contains (p s : string) : bool :=
  starts_with p s ||
  match s with
  | EmptyString => false
  | String _ s' => contains p s'
  end.

(** [s.rfind(p)]; [None] stands for the -1 of Python. *)
Fixpoint rfind (p s : string) : option nat :=
  match s with
  | EmptyString => if starts_with p EmptyString then Some 0%nat else None
  | String _ s' =>
      match rfind p s' with
      | Some i => Some (S i)
      | None => if starts_with p s then Some 0%nat else None
      end
  end.

(** [s[:n]] for [0 <= n]. *)
Fixpoint take (n : nat) (s : string) : string :=
  match n, s with
  | O, _ => EmptyString
  | S _, EmptyString => EmptyString
  | S n', String c s' => String c (take n' s')
  end.

(** [s.rstrip(chars)], with the set of characters given as a test. *)
Fixpoint rstrip_by (strip : ascii -> bool) (s : string) : string :=
  match s with
  | EmptyString => EmptyString
  | String c s' =>
      match rstrip_by strip s' with
      | EmptyString => if strip c then EmptyString else String c EmptyString
      | r => String c r
      end
  end.

(** [str.isspace] on one character: TAB, LF, VT, FF, CR, the four
    separators FS, GS, RS, US, the space, the next-line control U+0085 and
    the no-break space U+00A0. *)
Definition is_space (c : ascii) : bool :=
  let n := nat_of_ascii c in
  ((9 <=? n) && (n <=? 13) || (28 <=? n) && (n <=? 32)
   || (n =? 133) || (n =? 160))%nat.

(** [s.rstrip()] *)
Definition rstrip (s : string) : string := rstrip_by is_space s.

(** [s.rstrip(';')] *)
Definition rstrip_semi (s : string) : string :=
  rstrip_by (Ascii.eqb ";"%char) s.

(** The capital of a letter that has one below 256: the letters from a to z,
    from U+00E0 to U+00F6 and from U+00F8 to U+00FE. *)
Definition upper_char (c : ascii) : ascii :=
  let n := nat_of_ascii c in
  if ((97 <=? n) && (n <=? 122)
      || (224 <=? n) && (n <=? 254) && negb (n =? 247))%nat
  then ascii_of_nat (n - 32) else c.

(** The letter U+00DF, whose capital is two letters. *)
Definition sharp_s : ascii := ascii_of_nat 223.

(** [c.upper()] for one character.  The capitals of U+00B5 and U+00FF are
    single characters above 255 (U+039C and U+0178); the character itself
    stands for them, which keeps every position and adds no letter of an
    ASCII word. *)
Definition upper_of (c : ascii) : string :=
  if Ascii.eqb c sharp_s then "SS" else String (upper_char c) EmptyString.

(** [s.upper()] *)
Fixpoint upper (s : string) : string :=
  match s with
  | EmptyString => EmptyString
  | String c s' => upper_of c +:+ upper s'
  end.

(** [str(n)] for an integer. *)
Definition of_Z (n : Z) : string := NilZero.string_of_int (Z.to_int n).

(** Whether every character passes a test. *)
Fixpoint all (p : ascii -> bool) (s : string) : bool :=
  match s with
  | EmptyString => true
  | String c s' => p c && all p s'
  end.

(** [s.endswith(c)] for a class of characters [p]. *)
Fixpoint ends_in (p : ascii -> bool) (s : string) : bool :=
  match s with
  | EmptyString => false
  | String c EmptyString => p c
  | String _ s' => ends_in p s'
  end.

End Str.

(** ** Pagination service *)

Record PaginationService : Type := {
  default_page_size : Z;
  max_page_size : Z
}.

(** The module-level instance. *)
Definition pagination_service : PaginationService :=
  {| default_page_size := 50; max_page_size := 200 |}.

(** [x or d] on an optional integer argument: [None] and [0] are falsy. *)
Definition int_or (x : option Z) (d : Z) : Z :=
  match x with
  | Some n => if n =? 0 then d else n
  | None => d
  end.

(** [min(page_size or self.default_page_size, self.max_page_size)] *)
Definition effective_page_size (self : PaginationService) (page_size : option Z) : Z :=
  Z.min (int_or page_size (default_page_size self)) (max_page_size self).

(** [max(1, page)] *)
Definition effective_page (page : Z) : Z := Z.max 1 page.

(** The query with everything from its last LIMIT on removed. *)
Definition strip_limit (query : string) : string :=
  let query_upper := Str.upper query in
  if Str.contains "LIMIT" query_upper then
    match Str.rfind "LIMIT" query_upper with
    | Some limit_pos => Str.rstrip (Str.take limit_pos query)
    | None => query
    end
  else query.

Definition newline : string := String (ascii_of_nat 10) EmptyString.

(** The text appended by the rewriter. *)
Definition limit_clause (page_size offset : Z) : string :=
  newline +:+ "LIMIT " +:+ Str.of_Z page_size +:+ " OFFSET " +:+ Str.of_Z offset +:+ ";".

Definition add_pagination_to_query (self : PaginationService)
    (query : string) (page : Z) (page_size : option Z) : string :=
  let page_size := effective_page_size self page_size in
  let page := effective_page page in
  let offset := (page - 1) * page_size in
  let query := strip_limit query in
  Str.rstrip_semi query +:+ limit_clause page_size offset.

Definition get_count_query (original_query : string) : string :=
  let query_upper := Str.upper original_query in
  let query :=
    if Str.contains "LIMIT" query_upper then
      match Str.rfind "LIMIT" query_upper with
      | Some limit_pos => Str.rstrip (Str.take limit_pos original_query)
      | None => original_query
      end
    else Str.rstrip_semi original_query in
  "SELECT COUNT(*) as total_count FROM (" +:+ query +:+ ") as count_subquery;".

(** ** True division and [math.ceil]

    [total_count / page_size] is Python's true division of two integers:
    the double nearest to the exact quotient, ties to even, with
    [ZeroDivisionError] for a zero divisor and [OverflowError] when the
    rounded quotient is not a finite double.  A finite double is kept as
    [mant * 2 ^ expo]. *)

Module Float.

Record t : Type := mk { mant : Z; expo : Z }.

(** [2 ^ k * y <= x] for an exponent of either sign. *)
Definition scaled_le (y k x : Z) : bool :=
  if 0 <=? k then y * 2 ^ k <=? x else y <=? x * 2 ^ (- k).

(** For positive [x] and [y], the [k] with [2 ^ k <= x / y < 2 ^ (k + 1)]. *)
Definition ilog2_quot (x y : Z) : Z :=
  let k := Z.log2 x - Z.log2 y in
  if scaled_le y k x then k else k - 1.

(** The integer nearest to [num / den], ties to even. *)
Definition round_half_even (num den : Z) : Z :=
  let q := num / den in
  let r := num mod den in
  if 2 * r <? den then q
  else if den <? 2 * r then q + 1
  else if Z.even q then q else q + 1.

Definition true_div (a b : Z) : result t :=
  if b =? 0 then Raise ZeroDivisionError
  else if a =? 0 then Ok (mk 0 0)
  else
    let x := Z.abs a in
    let y := Z.abs b in
    let e := Z.max (ilog2_quot x y - 52) (-1074) in
    let m := if 0 <=? e then round_half_even x (y * 2 ^ e)
             else round_half_even (x * 2 ^ (- e)) y in
    if (0 <=? e) && (2 ^ 1024 <=? m * 2 ^ e) then Raise OverflowError
    else Ok (mk (Z.sgn a * Z.sgn b * m) e).

(** [math.ceil] of a finite double. *)
Definition ceil (f : t) : Z :=
  if 0 <=? expo f then mant f * 2 ^ expo f
  else - ((- mant f) / 2 ^ (- expo f)).

End Float.

(** The ceiling of the exact quotient, for a positive divisor. *)
Definition ceil_div (a b : Z) : Z := (a + b - 1) / b.

(** [sys.maxsize], the largest length of a list. *)
Definition sys_maxsize : Z := 2 ^ 63 - 1.

(** The value under the key ["pagination"] of the metadata dictionary. *)
Record Pagination : Type := {
  current_page : Z;
  page_size : Z;
  total_count : Z;
  total_pages : Z;
  has_next : bool;
  has_previous : bool;
  next_page : option Z;
  previous_page : option Z
}.

Definition create_pagination_metadata (total_count page page_size : Z)
    : result Pagination :=
  total_pages ←
    (if 0 <? total_count
     then f ← Float.true_div total_count page_size; mret (Float.ceil f)
     else mret 0);
  let has_next := page <? total_pages in
  let has_previous := 1 <? page in
  mret {| current_page := page;
          page_size := page_size;
          total_count := total_count;
          total_pages := total_pages;
          has_next := has_next;
          has_previous := has_previous;
          next_page := if has_next then Some (page + 1) else None;
          previous_page := if has_previous then Some (page - 1) else None |}.

(** An index of a slice brought into [0, len]: a negative index counts from
    the end, and both ends are clipped. *)
Definition clamp_index (len i : Z) : Z :=
  if i <? 0 then Z.max (i + len) 0 else Z.min i len.

(** [l[start:stop]] *)
Definition slice {A} (l : list A) (start stop : Z) : list A :=
  let len := Z.of_nat (length l) in
  let lo := clamp_index len start in
  let hi := clamp_index len stop in
  take (Z.to_nat (hi - lo)) (drop (Z.to_nat lo) l).

Record Page (A : Type) : Type := {
  data : list A;
  pagination : Pagination
}.
Arguments data {A} _.
Arguments pagination {A} _.

Definition paginate_list {A} (self : PaginationService)
    (data : list A) (page : Z) (page_size : option Z) : result (Page A) :=
  let page_size := effective_page_size self page_size in
  let page := effective_page page in
  let total_count := Z.of_nat (length data) in
  let start_idx := (page - 1) * page_size in
  let end_idx := start_idx + page_size in
  let paginated_data := slice data start_idx end_idx in
  metadata ← create_pagination_metadata total_count page page_size;
  mret {| data := paginated_data; pagination := metadata |}.

(** ** Python values

    The payloads of the cache and the values of query parameters: the
    compositions of [None], booleans, integers, strings, lists and
    dictionaries with string keys.  A dictionary lists its items in insertion
    order. *)

#[warnings="-register-all"]
Inductive PyVal : Type :=
| PNone
| PBool (b : bool)
| PInt (n : Z)
| PStr (s : string)
| PList (l : list PyVal)
| PDict (d : list (string * PyVal)).

Abbreviation Dict := (list (string * PyVal)).

(** [bool(v)] *)
Definition truthy (v : PyVal) : bool :=
  match v with
  | PNone => false
  | PBool b => b
  | PInt n => negb (n =? 0)
  | PStr s => negb (String.eqb s EmptyString)
  | PList l => match l with [] => false | _ => true end
  | PDict d => match d with [] => false | _ => true end
  end.

(** [d[k] = v]: a key already present keeps its place. *)
Fixpoint dict_set (d : Dict) (k : string) (v : PyVal) : Dict :=
  match d with
  | [] => [(k, v)]
  | (k', v') :: d' =>
      if String.eqb k k' then (k, v) :: d' else (k', v') :: dict_set d' k v
  end.

(** [dict(pairs)] *)
Definition dict_of_pairs (pairs : list (string * PyVal)) : Dict :=
  fold_left (fun d kv => dict_set d kv.1 kv.2) pairs [].

Module Repr.

Definition hex_digit (n : nat) : ascii :=
  match String.get n "0123456789abcdef" with
  | Some c => c
  | None => "0"%char
  end.

Definition hex2 (n : nat) : string :=
  String (hex_digit (n / 16)) (String (hex_digit (n mod 16)) EmptyString).

Definition backslash : ascii := ascii_of_nat 92.
Definition apostrophe : ascii := ascii_of_nat 39.
Definition double_quote : ascii := ascii_of_nat 34.

(** A backslash followed by [s]. *)
Definition esc (s : string) : string := String backslash s.

(** [c.isprintable()]: below 256 the characters that are not printable are
    the controls (below 32 and from 127 to 159), the no-break space U+00A0
    and the soft hyphen U+00AD. *)
Definition printable (c : ascii) : bool :=
  let n := nat_of_ascii c in
  negb ((n <? 32) || (126 <? n) && (n <? 161) || (n =? 173))%nat.

(** One character of a string in its [repr], inside the quote [q]. *)
Definition escape_char (q c : ascii) : string :=
  let n := nat_of_ascii c in
  if Ascii.eqb c backslash then esc (esc EmptyString)
  else if Ascii.eqb c q then esc (String c EmptyString)
  else if (n =? 9)%nat then esc "t"
  else if (n =? 10)%nat then esc "n"
  else if (n =? 13)%nat then esc "r"
  else if printable c then String c EmptyString
  else esc "x" +:+ hex2 n.

Fixpoint escape (q : ascii) (s : string) : string :=
  match s with
  | EmptyString => EmptyString
  | String c s' => escape_char q c +:+ escape q s'
  end.

(** [repr(s)]: single quotes, unless the string has a single quote and no
    double quote. *)
Definition of_str (s : string) : string :=
  let q := if Str.mem apostrophe s && negb (Str.mem double_quote s)
           then double_quote else apostrophe in
  String q (escape q s) +:+ String q EmptyString.

(** [sep.join(l)] *)
Fixpoint join (sep : string) (l : list string) : string :=
  match l with
  | [] => EmptyString
  | [x] => x
  | x :: l' => x +:+ sep +:+ join sep l'
  end.

(** [repr(v)], which is also [str(v)] for every value but a string. *)
Fixpoint of_val (v : PyVal) : string :=
  match v with
  | PNone => "None"
  | PBool true => "True"
  | PBool false => "False"
  | PInt n => Str.of_Z n
  | PStr s => of_str s
  | PList l => "[" +:+ join ", " (map of_val l) +:+ "]"
  | PDict d =>
      "{" +:+ join ", " (map (fun kv => of_str kv.1 +:+ ": " +:+ of_val kv.2) d) +:+ "}"
  end.

End Repr.

(** ** MD5

    [hashlib.md5(data).hexdigest()], over bytes given as integers. *)

Module MD5.

Definition mask : Z := 2 ^ 32 - 1.
Definition w32 (x : Z) : Z := Z.land x mask.

Definition rotl (x c : Z) : Z :=
  w32 (Z.lor (Z.shiftl x c) (Z.shiftr x (32 - c))).

Definition K : list Z :=
  [3614090360; 3905402710; 606105819; 3250441966;
   4118548399; 1200080426; 2821735955; 4249261313;
   1770035416; 2336552879; 4294925233; 2304563134;
   1804603682; 4254626195; 2792965006; 1236535329;
   4129170786; 3225465664; 643717713; 3921069994;
   3593408605; 38016083; 3634488961; 3889429448;
   568446438; 3275163606; 4107603335; 1163531501;
   2850285829; 4243563512; 1735328473; 2368359562;
   4294588738; 2272392833; 1839030562; 4259657740;
   2763975236; 1272893353; 4139469664; 3200236656;
   681279174; 3936430074; 3572445317; 76029189;
   3654602809; 3873151461; 530742520; 3299628645;
   4096336452; 1126891415; 2878612391; 4237533241;
   1700485571; 2399980690; 4293915773; 2240044497;
   1873313359; 4264355552; 2734768916; 1309151649;
   4149444226; 3174756917; 718787259; 3951481745].

Definition shifts : list Z :=
  [7; 12; 17; 22; 7; 12; 17; 22; 7; 12; 17; 22; 7; 12; 17; 22;
   5; 9; 14; 20; 5; 9; 14; 20; 5; 9; 14; 20; 5; 9; 14; 20;
   4; 11; 16; 23; 4; 11; 16; 23; 4; 11; 16; 23; 4; 11; 16; 23;
   6; 10; 15; 21; 6; 10; 15; 21; 6; 10; 15; 21; 6; 10; 15; 21].

Definition nth_Z (l : list Z) (i : nat) : Z := nth i l 0.

(** The bytes [n] as [k] little-endian bytes. *)
Fixpoint le_bytes (k : nat) (n : Z) : list Z :=
  match k with
  | O => []
  | S k' => n mod 256 :: le_bytes k' (n / 256)
  end.

(** The message followed by the bit 1, zeros up to 56 modulo 64, and its
    length in bits on 8 bytes. *)
Definition pad (msg : list Z) : list Z :=
  let len := length msg in
  let zeros := ((55 + 64 - len mod 64) mod 64)%nat in
  msg ++ [128] ++ repeat 0 zeros ++ le_bytes 8 (Z.of_nat len * 8).

(** Little-endian 32-bit words of a byte sequence. *)
Fixpoint words (fuel : nat) (bs : list Z) : list Z :=
  match fuel, bs with
  | S fuel', b0 :: b1 :: b2 :: b3 :: bs' =>
      (b0 + 256 * (b1 + 256 * (b2 + 256 * b3))) :: words fuel' bs'
  | _, _ => []
  end.

Record state : Type := mkstate { sa : Z; sb : Z; sc : Z; sd : Z }.

Definition init : state :=
  mkstate 1732584193 4023233417 2562383102 271733878.

Definition step (M : list Z) (st : state) (i : nat) : state :=
  let '(mkstate A B C D) := st in
  let notb x := Z.lxor x mask in
  let '(F, g) :=
    if (i <? 16)%nat then (Z.lor (Z.land B C) (Z.land (notb B) D), i)
    else if (i <? 32)%nat then (Z.lor (Z.land D B) (Z.land (notb D) C), (5 * i + 1) mod 16)%nat
    else if (i <? 48)%nat then (Z.lxor (Z.lxor B C) D, (3 * i + 5) mod 16)%nat
    else (Z.lxor C (Z.lor B (notb D)), (7 * i) mod 16)%nat in
  let F := w32 (F + A + nth_Z K i + nth_Z M g) in
  mkstate D (w32 (B + rotl F (nth_Z shifts i))) B C.

Definition compress (st : state) (M : list Z) : state :=
  let '(mkstate A B C D) := fold_left (step M) (seq 0 64) st in
  mkstate (w32 (sa st + A)) (w32 (sb st + B)) (w32 (sc st + C)) (w32 (sd st + D)).

(** The 16-word blocks of a word sequence. *)
Fixpoint blocks (fuel : nat) (ws : list Z) : list (list Z) :=
  match fuel, ws with
  | S fuel', _ :: _ => take 16 ws :: blocks fuel' (drop 16 ws)
  | _, _ => []
  end.

Definition digest (msg : list Z) : list Z :=
  let bs := pad msg in
  let ws := words (length bs) bs in
  let '(mkstate A B C D) := fold_left compress (blocks (length ws) ws) init in
  le_bytes 4 A ++ le_bytes 4 B ++ le_bytes 4 C ++ le_bytes 4 D.

Definition hex (bs : list Z) : string :=
  fold_right (fun b acc => Repr.hex2 (Z.to_nat b) +:+ acc) EmptyString bs.

Definition hexdigest (msg : list Z) : string := hex (digest msg).

End MD5.

(** [s.encode()]: UTF-8, one byte for an ASCII character and two for a
    code point from 128 to 255. *)
Fixpoint encode (s : string) : list Z :=
  match s with
  | EmptyString => []
  | String c s' =>
      let n := Z.of_nat (nat_of_ascii c) in
      if n <? 128 then n :: encode s'
      else (192 + n / 64) :: (128 + n mod 64) :: encode s'
  end.

(** ** Key derivation *)

(** [params or {}] *)
Definition params_or_empty (params : option Dict) : Dict :=
  match params with
  | Some d => d
  | None => []
  end.

(** [f"{query}_{params or {}}"] *)
Definition key_data (query : string) (params : option Dict) : string :=
  query +:+ "_" +:+ Repr.of_val (PDict (params_or_empty params)).

Definition _generate_key (query : string) (params : option Dict) : string :=
  "pmo_query_" +:+ MD5.hexdigest (encode (key_data query params)).

(** ** JSON

    [json.dumps(v, default=str)] and [json.loads(s)] on the values of
    [PyVal].  The writer is total on [PyVal].  The reader is Python's on
    the texts whose numbers are integers and whose escapes are of code
    points below 256, which are the texts of the values of [PyVal]; a number
    with a fraction or an exponent, [NaN], [Infinity] and an escape of a
    code point from 256 up denote values that [PyVal] does not have, and the
    reader gives no value for them. *)

Module Json.

Import Repr.

Definition escape_char (c : ascii) : string :=
  let n := nat_of_ascii c in
  if Ascii.eqb c double_quote then esc (String double_quote EmptyString)
  else if Ascii.eqb c backslash then esc (esc EmptyString)
  else if (n =? 10)%nat then esc "n"
  else if (n =? 13)%nat then esc "r"
  else if (n =? 9)%nat then esc "t"
  else if (n =? 8)%nat then esc "b"
  else if (n =? 12)%nat then esc "f"
  else if ((n <? 32) || (126 <? n))%nat then esc "u00" +:+ hex2 n
  else String c EmptyString.

Fixpoint escape (s : string) : string :=
  match s with
  | EmptyString => EmptyString
  | String c s' => escape_char c +:+ escape s'
  end.

Definition quote (s : string) : string :=
  String double_quote (escape s) +:+ String double_quote EmptyString.

Fixpoint dumps (v : PyVal) : string :=
  match v with
  | PNone => "null"
  | PBool true => "true"
  | PBool false => "false"
  | PInt n => Str.of_Z n
  | PStr s => quote s
  | PList l => "[" +:+ join ", " (map dumps l) +:+ "]"
  | PDict d =>
      "{" +:+ join ", " (map (fun kv => quote kv.1 +:+ ": " +:+ dumps kv.2) d) +:+ "}"
  end.

Definition is_ws (c : ascii) : bool :=
  let n := nat_of_ascii c in
  ((n =? 32) || (n =? 9) || (n =? 10) || (n =? 13))%nat.

Fixpoint skip_ws (s : string) : string :=
  match s with
  | String c s' => if is_ws c then skip_ws s' else s
  | EmptyString => s
  end.

Definition digit_of (c : ascii) : option Z :=
  let n := nat_of_ascii c in
  if ((48 <=? n) && (n <=? 57))%nat then Some (Z.of_nat n - 48) else None.

Definition hex_of (c : ascii) : option nat :=
  let n := nat_of_ascii c in
  if ((48 <=? n) && (n <=? 57))%nat then Some (n - 48)%nat
  else if ((97 <=? n) && (n <=? 102))%nat then Some (n - 87)%nat
  else if ((65 <=? n) && (n <=? 70))%nat then Some (n - 55)%nat
  else None.

(** The digits at the head of [s], read after the value [acc]. *)
Fixpoint read_digits (acc : Z) (s : string) : Z * string :=
  match s with
  | String c s' =>
      match digit_of c with
      | Some d => read_digits (10 * acc + d) s'
      | None => (acc, s)
      end
  | EmptyString => (acc, s)
  end.

Definition starts_with_digit (s : string) : bool :=
  match s with
  | String c _ => bool_decide (digit_of c <> None)
  | EmptyString => false
  end.

(** Whether a fraction or an exponent follows the integer part. *)
Definition float_follows (s : string) : bool :=
  match s with
  | String "." s' => starts_with_digit s'
  | String "e" s' | String "E" s' =>
      match s' with
      | String "+" s'' | String "-" s'' => starts_with_digit s''
      | _ => starts_with_digit s'
      end
  | _ => false
  end.

(** [0] or a digit from 1 to 9 followed by digits. *)
Definition read_nat (s : string) : option (Z * string) :=
  match s with
  | String "0" s' => Some (0, s')
  | String c s' =>
      match digit_of c with
      | Some d => Some (read_digits d s')
      | None => None
      end
  | EmptyString => None
  end.

Definition read_number (s : string) : option (PyVal * string) :=
  let '(sign, s) :=
    match s with
    | String "-" s' => (-1, s')
    | _ => (1, s)
    end in
  match read_nat s with
  | Some (n, rest) =>
      if float_follows rest then None else Some (PInt (sign * n), rest)
  | None => None
  end.

(** The characters up to the closing quote, with the escapes decoded. *)
Fixpoint read_string (s : string) : option (string * string) :=
  match s with
  | EmptyString => None
  | String c s' =>
      if Ascii.eqb c double_quote then Some (EmptyString, s')
      else if Ascii.eqb c backslash then
        match s' with
        | String "u" (String h3 (String h2 (String h1 (String h0 s'')))) =>
            match hex_of h3, hex_of h2, hex_of h1, hex_of h0 with
            | Some 0%nat, Some 0%nat, Some a, Some b =>
                '(str, rest) ← read_string s'';
                Some (String (ascii_of_nat (16 * a + b)) str, rest)
            | _, _, _, _ => None
            end
        | String e s'' =>
            let decoded :=
              if Ascii.eqb e double_quote then Some double_quote
              else if Ascii.eqb e backslash then Some backslash
              else match e with
                   | "/"%char => Some "/"%char
                   | "b"%char => Some (ascii_of_nat 8)
                   | "f"%char => Some (ascii_of_nat 12)
                   | "n"%char => Some (ascii_of_nat 10)
                   | "r"%char => Some (ascii_of_nat 13)
                   | "t"%char => Some (ascii_of_nat 9)
                   | _ => None
                   end in
            match decoded with
            | Some d =>
                '(str, rest) ← read_string s'';
                Some (String d str, rest)
            | None => None
            end
        | EmptyString => None
        end
      else if (nat_of_ascii c <? 32)%nat then None
      else
        '(str, rest) ← read_string s';
        Some (String c str, rest)
  end.

Fixpoint read_value (fuel : nat) (s : string) : option (PyVal * string) :=
  match fuel with
  | O => None
  | S fuel' =>
      match s with
      | String "n" (String "u" (String "l" (String "l" rest))) => Some (PNone, rest)
      | String "t" (String "r" (String "u" (String "e" rest))) => Some (PBool true, rest)
      | String "f" (String "a" (String "l" (String "s" (String "e" rest)))) =>
          Some (PBool false, rest)
      | String "[" rest =>
          match skip_ws rest with
          | String "]" rest' => Some (PList [], rest')
          | rest' => read_array fuel' rest' []
          end
      | String "{" rest =>
          match skip_ws rest with
          | String "}" rest' => Some (PDict [], rest')
          | rest' => read_object fuel' rest' []
          end
      | String c rest =>
          if Ascii.eqb c double_quote then
            '(str, rest') ← read_string rest; Some (PStr str, rest')
          else read_number s
      | EmptyString => None
      end
  end
with read_array (fuel : nat) (s : string) (acc : list PyVal) : option (PyVal * string) :=
  match fuel with
  | O => None
  | S fuel' =>
      '(v, rest) ← read_value fuel' s;
      match skip_ws rest with
      | String "," rest' => read_array fuel' (skip_ws rest') (v :: acc)
      | String "]" rest' => Some (PList (rev (v :: acc)), rest')
      | _ => None
      end
  end
with read_object (fuel : nat) (s : string) (acc : list (string * PyVal))
    : option (PyVal * string) :=
  match fuel with
  | O => None
  | S fuel' =>
      match s with
      | String c s' =>
          if Ascii.eqb c double_quote then
            '(k, rest) ← read_string s';
            match skip_ws rest with
            | String ":" rest' =>
                '(v, rest'') ← read_value fuel' (skip_ws rest');
                match skip_ws rest'' with
                | String "," rest3 => read_object fuel' (skip_ws rest3) ((k, v) :: acc)
                | String "}" rest3 => Some (PDict (dict_of_pairs (rev ((k, v) :: acc))), rest3)
                | _ => None
                end
            | _ => None
            end
          else None
      | EmptyString => None
      end
  end.

(** [json.loads(s)]; a [JSONDecodeError] is a [ValueError], and a text of a
    value that [PyVal] does not have is read as one that does not parse: what
    is proved about reading is proved of the texts written by [dumps], or
    under the hypothesis that the reader gives a value.  Each call of the
    reader either consumes a character or is followed by one that does, so
    two units of fuel per character are enough. *)
Definition loads (s : string) : result PyVal :=
  let s := skip_ws s in
  match read_value (2 * String.length s + 2) s with
  | Some (v, rest) =>
      match skip_ws rest with
      | EmptyString => Ok v
      | _ => Raise ValueError
      end
  | None => Raise ValueError
  end.

End Json.

(** ** Cache service

    The primary tier holds serialized text, the fallback tier holds values;
    both keep the time at which an entry expires and hide it from then on.
    A tier whose [up] flag is unset raises on every call that reads, writes
    or removes entries.  The primary client has no length and tests true in
    [if self.redis_client]; the fallback store has one, the number of its
    entries, and tests true in [if self.disk_cache] when it holds an entry,
    expired or not. *)

Module Cache.

Record RedisClient : Type := {
  redis_up : bool;
  redis_db : gmap string (string * Z)
}.

Record DiskCache : Type := {
  disk_up : bool;
  disk_db : gmap string (PyVal * Z)
}.

Record CacheService : Type := {
  default_ttl : Z;
  redis_client : option RedisClient;
  disk_cache : option DiskCache
}.

(** The content of an entry that has not expired. *)
Definition live {A} (now : Z) (entry : option (A * Z)) : option A :=
  match entry with
  | Some (a, expires) => if now <? expires then Some a else None
  | None => None
  end.

Definition redis_get (r : RedisClient) (now : Z) (key : string) : result (option string) :=
  if redis_up r then Ok (live now (redis_db r !! key)) else Raise StoreError.

(** [setex]: the server refuses an expiry that is not positive. *)
Definition redis_setex (r : RedisClient) (now : Z) (key : string) (ttl : Z) (text : string)
    : result RedisClient :=
  if redis_up r then
    if ttl <=? 0 then Raise StoreError
    else Ok {| redis_up := true; redis_db := <[key := (text, now + ttl)]> (redis_db r) |}
  else Raise StoreError.

Definition redis_delete (r : RedisClient) (keys : list string) : result RedisClient :=
  if redis_up r then
    Ok {| redis_up := true; redis_db := foldr delete (redis_db r) keys |}
  else Raise StoreError.

Definition disk_get (d : DiskCache) (now : Z) (key : string) : result PyVal :=
  if disk_up d then Ok (default PNone (live now (disk_db d !! key))) else Raise StoreError.

(** What a caller hands to the fallback store as [expire]: the store takes a
    number of seconds; the service hands it a [datetime]. *)
Inductive Expire : Type :=
| Seconds (n : Z)
| Datetime (t : Z).

(** [cache.set(key, value, expire=...)]: the store adds [expire] to the
    reading of its clock before it writes; a [datetime] cannot be added to a
    number, and the call raises [TypeError] with the store untouched. *)
Definition disk_set (d : DiskCache) (now : Z) (key : string) (value : PyVal)
    (expire : Expire) : result DiskCache :=
  match expire with
  | Seconds n =>
      if disk_up d then
        Ok {| disk_up := true; disk_db := <[key := (value, now + n)]> (disk_db d) |}
      else Raise StoreError
  | Datetime _ => Raise StoreError
  end.

(** [bool(cache)], that is [len(cache) > 0]. *)
Definition disk_truthy (d : DiskCache) : bool :=
  negb (bool_decide (disk_db d = ∅)).

Definition disk_clear (d : DiskCache) : result DiskCache :=
  if disk_up d then Ok {| disk_up := true; disk_db := ∅ |} else Raise StoreError.

(** [bool(s)] for a string. *)
Definition str_truthy (s : string) : bool := negb (String.eqb s EmptyString).

(** The value returned from inside the first [try] of [get], if any. *)
Definition get_redis (self : CacheService) (now : Z) (cache_key : string) : option PyVal :=
  match redis_client self with
  | Some r =>
      match redis_get r now cache_key with
      | Ok (Some cached) =>
          if str_truthy cached then
            match Json.loads cached with
            | Ok v => Some v
            | Raise _ => None
            end
          else None
      | Ok None => None
      | Raise _ => None
      end
  | None => None
  end.

(** The value returned from inside the second [try] of [get], if any. *)
Definition get_disk (self : CacheService) (now : Z) (cache_key : string) : option PyVal :=
  match disk_cache self with
  | Some d =>
      if disk_truthy d then
        match disk_get d now cache_key with
        | Ok cached => if truthy cached then Some cached else None
        | Raise _ => None
        end
      else None
  | None => None
  end.

(** [get] returns [PNone] for the [None] of a miss. *)
Definition get (self : CacheService) (now : Z) (query : string) (params : option Dict)
    : PyVal :=
  let cache_key := _generate_key query params in
  match get_redis self now cache_key with
  | Some v => v
  | None =>
      match get_disk self now cache_key with
      | Some v => v
      | None => PNone
      end
  end.

Definition set (self : CacheService) (now : Z) (query : string) (data : PyVal)
    (ttl : option Z) (params : option Dict) : bool * CacheService :=
  let cache_key := _generate_key query params in
  let ttl := int_or ttl (default_ttl self) in
  let success := false in
  let '(success, redis) :=
    match redis_client self with
    | Some r =>
        match redis_setex r now cache_key ttl (Json.dumps data) with
        | Ok r' => (true, Some r')
        | Raise _ => (success, Some r)
        end
    | None => (success, None)
    end in
  let '(success, disk) :=
    match disk_cache self with
    | Some d =>
        if disk_truthy d then
          let expire_time := Datetime (now + ttl) in
          match disk_set d now cache_key data expire_time with
          | Ok d' => (true, Some d')
          | Raise _ => (success, Some d)
          end
        else (success, Some d)
    | None => (success, None)
    end in
  (success, {| default_ttl := default_ttl self; redis_client := redis; disk_cache := disk |}).

(** [not pattern] for an optional string. *)
Definition no_pattern (pattern : option string) : bool :=
  match pattern with
  | Some p => negb (str_truthy p)
  | None => true
  end.

Section Clear.

(** The pattern language of the primary store's [KEYS] command. *)
Variable key_matches : string -> string -> bool.

Definition redis_keys (r : RedisClient) (now : Z) (pattern : string) : result (list string) :=
  if redis_up r then
    Ok (filter (fun k => key_matches pattern k = true /\ is_Some (live now (redis_db r !! k)))
               (map fst (map_to_list (redis_db r))))
  else Raise StoreError.

Definition clear_cache (self : CacheService) (now : Z) (pattern : option string)
    : bool * CacheService :=
  let cleared : result CacheService :=
    redis ←
      match redis_client self, pattern with
      | Some r, Some p =>
          if str_truthy p then
            keys ← redis_keys r now ("*" +:+ p +:+ "*");
            match keys with
            | [] => mret (Some r)
            | _ => r' ← redis_delete r keys; mret (Some r')
            end
          else mret (Some r)
      | rc, _ => mret rc
      end;
    disk ←
      match disk_cache self with
      | Some d =>
          if no_pattern pattern && disk_truthy d
          then d' ← disk_clear d; mret (Some d')
          else mret (Some d)
      | None => mret None
      end;
    mret {| default_ttl := default_ttl self; redis_client := redis; disk_cache := disk |} in
  match cleared with
  | Ok self' => (true, self')
  | Raise _ => (false, self)
  end.

End Clear.

End Cache.

(** ** Query execution

    The warehouse is a collaborator: whether a connection can be opened, and
    what a query returns, a list of column names and a list of rows. *)

Module Databricks.

Record Warehouse : Type := {
  can_connect : bool;
  run : string -> option Dict -> result (list string * list (list PyVal))
}.

(** The client's connection and the module-level cache instance. *)
Record World : Type := {
  cache_service : Cache.CacheService;
  connection : bool
}.

Definition with_cache (w : World) (c : Cache.CacheService) : World :=
  {| cache_service := c; connection := connection w |}.

Definition connect (wh : Warehouse) (w : World) : result World :=
  if can_connect wh then Ok {| cache_service := cache_service w; connection := true |}
  else Raise RemoteError.

(** [bool(parameters)] *)
Definition dict_truthy (parameters : option Dict) : bool :=
  match parameters with
  | Some (_ :: _) => true
  | _ => false
  end.

(** [[dict(zip(columns, row)) for row in rows]] *)
Definition rows_to_dicts (columns : list string) (rows : list (list PyVal)) : list PyVal :=
  map (fun row => PDict (dict_of_pairs (zip columns row))) rows.

Definition is_not_none (v : PyVal) : bool :=
  match v with
  | PNone => false
  | _ => true
  end.

(** The implicit bound put on a long query that has none. *)
Definition add_safety_limit (query : string) : string :=
  if (2000 <? Z.of_nat (String.length query))
     && negb (Str.contains "LIMIT" (Str.upper query))
  then
    if Str.contains "WHERE INV_EXT_ID IN" query
    then Str.rstrip_semi query +:+ newline +:+ "LIMIT 15000;"
    else Str.rstrip_semi query +:+ newline +:+ "LIMIT 100;"
  else query.

(** [f"{query}_{str(parameters) if parameters else ''}"] *)
Definition query_text_key (query : string) (parameters : option Dict) : string :=
  query +:+ "_" +:+
  (if dict_truthy parameters
   then Repr.of_val (PDict (params_or_empty parameters))
   else EmptyString).

Section Execute.

Variable wh : Warehouse.

(** [execute_query] and [execute_query_unlimited] return the rows, or the
    exception they raise, and the world they leave.  Their [timeout]
    argument is not used by the code and is left out. *)

Definition execute_query (w : World) (now : Z) (query : string)
    (parameters : option Dict) (use_cache : bool) (cache_ttl : Z)
    : result PyVal * World :=
  let cache_key := query_text_key query parameters in
  let cached_result :=
    if use_cache then Cache.get (cache_service w) now cache_key None else PNone in
  if use_cache && is_not_none cached_result then (Ok cached_result, w)
  else
    match (if connection w then Ok w else connect wh w) with
    | Raise e => (Raise e, w)
    | Ok w =>
        let query := add_safety_limit query in
        match run wh query (if dict_truthy parameters then parameters else None) with
        | Raise e => (Raise e, w)
        | Ok (columns, rows) =>
            let results := PList (rows_to_dicts columns rows) in
            let w :=
              if use_cache && truthy results
              then with_cache w
                     (Cache.set (cache_service w) now cache_key results (Some cache_ttl) None).2
              else w in
            (Ok results, w)
        end
    end.

Definition execute_query_unlimited (w : World) (now : Z) (query : string)
    (use_cache : bool) (cache_ttl : Z) : result PyVal * World :=
  let cached_result :=
    if use_cache then Cache.get (cache_service w) now query None else PNone in
  if use_cache && is_not_none cached_result then (Ok cached_result, w)
  else
    match (if connection w then Ok w else connect wh w) with
    | Raise e => (Raise e, w)
    | Ok w =>
        match run wh query None with
        | Raise e => (Raise e, w)
        | Ok (columns, rows) =>
            let results := PList (rows_to_dicts columns rows) in
            let w :=
              if use_cache && truthy results
              then with_cache w
                     (Cache.set (cache_service w) now query results (Some cache_ttl) None).2
              else w in
            (Ok results, w)
        end
    end.

End Execute.

End Databricks.

(** ** Auxiliary definitions

    Notions used to state the properties below, and the fixtures of their
    examples. *)

(** A character that [upper] leaves alone and that is not an [L]. *)
Definition plain (c : ascii) : bool :=
  String.eqb (Str.upper_of c) (String c EmptyString) && negb (Ascii.eqb "L"%char c).

(** What follows the keyword in the clause appended by the rewriter. *)
Definition clause_rest (size offset : Z) : string :=
  " " +:+ Str.of_Z size +:+ " OFFSET " +:+ Str.of_Z offset +:+ ";".

(** The falsy values other than [None]. *)
Definition falsy_values : list PyVal :=
  [PList []; PDict []; PStr EmptyString; PInt 0; PBool false].

(** The world after a miss, a successful run and the write-back. *)
Definition after_run (w : Databricks.World) (now : Z) (key : string)
    (columns : list string) (rows : list (list PyVal)) (cache_ttl : Z)
    : Databricks.World :=
  {| Databricks.cache_service :=
       match rows with
       | [] => Databricks.cache_service w
       | _ => (Cache.set (Databricks.cache_service w) now key
                 (PList (Databricks.rows_to_dicts columns rows)) (Some cache_ttl) None).2
       end;
     Databricks.connection := true |}.

(** A service with no primary tier and an empty fallback tier. *)
Definition disk_only : Cache.CacheService :=
  {| Cache.default_ttl := 300;
     Cache.redis_client := None;
     Cache.disk_cache := Some {| Cache.disk_up := true; Cache.disk_db := ∅ |} |}.

(** A service whose primary tier raises on every call. *)
Definition redis_down : Cache.CacheService :=
  {| Cache.default_ttl := 300;
     Cache.redis_client := Some {| Cache.redis_up := false; Cache.redis_db := ∅ |};
     Cache.disk_cache := Some {| Cache.disk_up := true; Cache.disk_db := ∅ |} |}.

(** A service with no primary tier and a fallback tier that holds an entry
    of another key, which expires at 500. *)
Definition stale_disk : Cache.CacheService :=
  {| Cache.default_ttl := 300;
     Cache.redis_client := None;
     Cache.disk_cache :=
       Some {| Cache.disk_up := true;
               Cache.disk_db := {[ "pmo_query_a" := (PList [PInt 1], 500) ]} |} |}.

(** A service whose fallback tier holds the integer 0 under the key of the
    query [SELECT 1], until 400. *)
Definition zero_on_disk : Cache.CacheService :=
  {| Cache.default_ttl := 300;
     Cache.redis_client := None;
     Cache.disk_cache :=
       Some {| Cache.disk_up := true;
               Cache.disk_db := {[ _generate_key "SELECT 1" None := (PInt 0, 400) ]} |} |}.

(** A service whose fallback store holds an entry and raises on every call. *)
Definition broken_disk : Cache.CacheService :=
  {| Cache.default_ttl := 300;
     Cache.redis_client :=
       Some {| Cache.redis_up := true;
               Cache.redis_db := {[ "pmo_query_a" := ("[1]", 500) ]} |};
     Cache.disk_cache :=
       Some {| Cache.disk_up := false;
               Cache.disk_db := {[ "pmo_query_a" := (PList [PInt 1], 500) ]} |} |}.

(** A service with an empty primary tier and a fallback tier that holds the
    integer 9 under the key of the query [SELECT 1], until 1000. *)
Definition older_on_disk : Cache.CacheService :=
  {| Cache.default_ttl := 300;
     Cache.redis_client := Some {| Cache.redis_up := true; Cache.redis_db := ∅ |};
     Cache.disk_cache :=
       Some {| Cache.disk_up := true;
               Cache.disk_db := {[ _generate_key "SELECT 1" None := (PInt 9, 1000) ]} |} |}.

(** A service with both tiers in service and empty. *)
Definition both_tiers : Cache.CacheService :=
  {| Cache.default_ttl := 300;
     Cache.redis_client := Some {| Cache.redis_up := true; Cache.redis_db := ∅ |};
     Cache.disk_cache := Some {| Cache.disk_up := true; Cache.disk_db := ∅ |} |}.

(** A service with one entry in each tier. *)
Definition warm_redis : Cache.CacheService :=
  {| Cache.default_ttl := 300;
     Cache.redis_client :=
       Some {| Cache.redis_up := true;
               Cache.redis_db := {[ "pmo_query_a" := ("[1]", 500) ]} |};
     Cache.disk_cache :=
       Some {| Cache.disk_up := true;
               Cache.disk_db := {[ "pmo_query_a" := (PList [PInt 1], 500) ]} |} |}.

(** A warehouse with one table of two rows and one empty table. *)
Definition stub_warehouse : Databricks.Warehouse :=
  {| Databricks.can_connect := true;
     Databricks.run := fun query _ =>
       if String.eqb query "SELECT id FROM t"
       then Ok (["id"], [[PInt 1]; [PInt 2]])
       else if String.eqb query "SELECT id FROM empty"
       then Ok (["id"], [])
       else Raise RemoteError |}.

(** A warehouse that cannot be reached. *)
Definition unreachable_warehouse : Databricks.Warehouse :=
  {| Databricks.can_connect := false;
     Databricks.run := fun _ _ => Raise RemoteError |}.

Definition cold_world : Databricks.World :=
  {| Databricks.cache_service := disk_only; Databricks.connection := false |}.

(** ** Paginated execution and the connection test

    The rest of [backend/databricks_client.py].  A value read from the cache
    need not be a list, so the calls below can also fail on its type. *)

Module Client.

Import Databricks.

Inductive error : Type :=
| Exn (e : exn)
| TypeError     (* [len] of a value that has no length *)
| SliceError.   (* a slice of a dictionary: [TypeError], [KeyError] from Python 3.12 *)

Inductive outcome (A : Type) : Type :=
| Done (a : A)
| Fail (e : error).
Arguments Done {A} a.
Arguments Fail {A} e.

Definition option_val (o : option Z) : PyVal :=
  match o with
  | Some n => PInt n
  | None => PNone
  end.

(** The dictionary returned by [create_pagination_metadata]. *)
Definition metadata_val (m : Pagination) : Dict :=
  [("pagination",
    PDict [("current_page", PInt (current_page m));
           ("page_size", PInt (page_size m));
           ("total_count", PInt (total_count m));
           ("total_pages", PInt (total_pages m));
           ("has_next", PBool (has_next m));
           ("has_previous", PBool (has_previous m));
           ("next_page", option_val (next_page m));
           ("previous_page", option_val (previous_page m))])].

(** [{"data": data, **metadata}] *)
Definition page_val (data : PyVal) (m : Pagination) : PyVal :=
  PDict (("data", data) :: metadata_val m).

(** [len(v)] *)
Definition py_len (v : PyVal) : outcome Z :=
  match v with
  | PList l => Done (Z.of_nat (length l))
  | PDict d => Done (Z.of_nat (length d))
  | PStr s => Done (Z.of_nat (String.length s))
  | PNone | PBool _ | PInt _ => Fail TypeError
  end.

(** [pagination_service.paginate_list(v, page, page_size)] on a value: a
    list or a string is sliced, a dictionary has a length and no slices, and
    the other values have no length. *)
Definition paginate_value (v : PyVal) (page page_size : Z) : outcome PyVal :=
  match v with
  | PList l =>
      match paginate_list pagination_service l page (Some page_size) with
      | Ok r => Done (page_val (PList (data r)) (pagination r))
      | Raise e => Fail (Exn e)
      end
  | PStr s =>
      match paginate_list pagination_service (list_ascii_of_string s) page (Some page_size) with
      | Ok r => Done (page_val (PStr (string_of_list_ascii (data r))) (pagination r))
      | Raise e => Fail (Exn e)
      end
  | PDict _ => Fail SliceError
  | PNone | PBool _ | PInt _ => Fail TypeError
  end.


Section Paginated.

Variable wh : Warehouse.

(** The [try] block of [execute_paginated_query], up to the result. *)
Definition paginated_result (w : World) (now : Z) (query : string)
    (page page_size : Z) (use_cache : bool) (cache_ttl : Z)
    : outcome PyVal * World :=
  if 1000 <? Z.of_nat (String.length query) then
    let paginated_query :=
      add_pagination_to_query pagination_service query page (Some page_size) in
    match execute_query wh w now paginated_query None false 1800 with
    | (Raise e, w) => (Fail (Exn e), w)
    | (Ok results, w) =>
        match py_len results with
        | Fail e => (Fail e, w)
        | Done n =>
            let total_count :=
              if n <? page_size then (page - 1) * page_size + n else n * 10 in
            match create_pagination_metadata total_count page page_size with
            | Raise e => (Fail (Exn e), w)
            | Ok metadata => (Done (page_val results metadata), w)
            end
        end
    end
  else
    match execute_query wh w now query None use_cache cache_ttl with
    | (Raise e, w) => (Fail (Exn e), w)
    | (Ok full_results, w) => (paginate_value full_results page page_size, w)
    end.


(** [d.get(k)] *)
Fixpoint dict_get (d : Dict) (k : string) : PyVal :=
  match d with
  | [] => PNone
  | (k', v) :: d' => if String.eqb k k' then v else dict_get d' k
  end.

(** [v == 1] *)
Definition equals_one (v : PyVal) : bool :=
  match v with
  | PInt 1 | PBool true => true
  | _ => false
  end.

(** [result and result[0].get('test_column') == 1], with the exceptions of
    the indexing and of [get] caught by the caller as a failed test. *)
Definition first_row_is_one (result : PyVal) : bool :=
  match result with
  | PList (PDict row :: _) => equals_one (dict_get row "test_column")
  | _ => false
  end.

Definition disconnect (w : World) : World :=
  {| cache_service := cache_service w; connection := false |}.

Definition test_connection (w : World) (now : Z) : bool * World :=
  let '(answer, w) :=
    match connect wh w with
    | Raise _ => (false, w)
    | Ok w =>
        match execute_query wh w now "SELECT 1 as test_column" None true 1800 with
        | (Ok result, w) => (first_row_is_one result, w)
        | (Raise _, w) => (false, w)
        end
    end in
  (answer, disconnect w).

End Paginated.

End Client.

(** ** Well-formed values

    The values whose dictionaries have distinct keys, as the dictionaries of
    Python have. *)

Fixpoint distinct (keys : list string) : bool :=
  match keys with
  | [] => true
  | k :: keys' => negb (existsb (String.eqb k) keys') && distinct keys'
  end.

Fixpoint wf (v : PyVal) : bool :=
  match v with
  | PNone | PBool _ | PInt _ | PStr _ => true
  | PList l => forallb wf l
  | PDict d => forallb (fun kv => wf kv.2) d && distinct (map fst d)
  end.

(** The number of reader calls that a value takes at most. *)
Fixpoint size (v : PyVal) : nat :=
  match v with
  | PList l => S (list_sum (map (fun x => S (size x)) l))
  | PDict d => S (list_sum (map (fun kv => S (size kv.2)) d))
  | _ => 1
  end.

(** A text that may follow a value: nothing, or a character that is not part
    of a number. *)
Definition ends_value (rest : string) : bool :=
  match rest with
  | EmptyString => true
  | String c _ =>
      Ascii.eqb c ","%char || Ascii.eqb c "]"%char || Ascii.eqb c "}"%char
  end.

(** The pages of a list, from page 1 to page [n]. *)
Definition pages_data {A} (self : PaginationService) (l : list A)
    (size : option Z) (n : nat) : list (list A) :=
  map (fun p =>
         match paginate_list self l (Z.of_nat p) size with
         | Ok r => data r
         | Raise _ => []
         end)
      (seq 1 n).

(** A query over 2000 characters without a LIMIT. *)
Definition unbounded_long (query : string) : bool :=
  (2000 <? Z.of_nat (String.length query))
  && negb (Str.contains "LIMIT" (Str.upper query)).

(** The warehouse that refuses such a query and answers the others as [wh]
    does. *)
Definition refusing (wh : Databricks.Warehouse) : Databricks.Warehouse :=
  {| Databricks.can_connect := Databricks.can_connect wh;
     Databricks.run := fun query parameters =>
       if unbounded_long query then Raise RemoteError
       else Databricks.run wh query parameters |}.

(** The primary tier is there and answers. *)
Definition primary_up (self : Cache.CacheService) : Prop :=
  exists r, Cache.redis_client self = Some r /\ Cache.redis_up r = true.

(** The primary tier is absent or raises on every call. *)
Definition primary_unavailable (self : Cache.CacheService) : Prop :=
  Cache.redis_client self = None \/
  exists r, Cache.redis_client self = Some r /\ Cache.redis_up r = false.



(** A client that is not connected, with both tiers in service and empty. *)
Definition live_world : Databricks.World :=
  {| Databricks.cache_service := both_tiers; Databricks.connection := false |}.

(** The world with the connection open. *)
Definition connected (w : Databricks.World) : Databricks.World :=
  {| Databricks.cache_service := Databricks.cache_service w;
     Databricks.connection := true |}.

(** A query of 1001 characters. *)
Definition long_query : string :=
  "SELECT * FROM t WHERE " +:+ string_of_list_ascii (repeat "x"%char 979).

(** A warehouse that answers every query with the same rows. *)
Definition constant_warehouse (columns : list string) (rows : list (list PyVal))
    : Databricks.Warehouse :=
  {| Databricks.can_connect := true;
     Databricks.run := fun _ _ => Ok (columns, rows) |}.

(** A warehouse that accepts connections and fails every query. *)
Definition failing_warehouse : Databricks.Warehouse :=
  {| Databricks.can_connect := true;
     Databricks.run := fun _ _ => Raise RemoteError |}.

(** ** Notions about the reader *)

Section ReaderNotions.

Import Json.

(** The first character of a number: a sign or a digit. *)
Definition number_head (c : ascii) : bool :=
  Ascii.eqb c "-"%char || bool_decide (digit_of c <> None).

(** A character that can start a value: neither white space nor a closing
    bracket. *)
Definition value_head (c : ascii) : bool :=
  negb (is_ws c) && negb (Ascii.eqb c "]"%char) && negb (Ascii.eqb c "}"%char).

(** A text that starts with such a character. *)
Definition starts_value (s : string) : bool :=
  match s with
  | String c _ => value_head c
  | EmptyString => false
  end.

(** The text of a value, followed by what may follow a value, is read back
    as that value with fuel for its size. *)
Definition reads_back (v : PyVal) : Prop :=
  wf v = true ->
  forall fuel rest,
    ends_value rest = true -> (size v <= fuel)%nat ->
    read_value fuel (dumps v +:+ rest) = Some (v, rest).

(** The fuel for the items of a list and of a dictionary. *)
Definition list_size (l : list PyVal) : nat :=
  list_sum (map (fun x => S (size x)) l).

Definition dict_size (d : Dict) : nat :=
  list_sum (map (fun kv => S (size kv.2)) d).

(** The text of one item of a dictionary. *)
Definition item_text (kv : string * PyVal) : string :=
  quote kv.1 +:+ ": " +:+ dumps kv.2.

(** A text that starts with a double quote. *)
Definition starts_quote (s : string) : bool :=
  match s with
  | String c _ => Ascii.eqb c Repr.double_quote
  | EmptyString => false
  end.

End ReaderNotions.

(** * Properties *)

(** ** Arithmetic of the page count *)

Section FloatFacts.

Import Float.

Lemma scaled_le_nonneg y k x :
  0 <= k -> scaled_le y k x = true <-> y * 2 ^ k <= x.
Proof.
  intros Hk. unfold scaled_le.
  destruct (Z.leb_spec 0 k); [|lia]. apply Z.leb_le.
Qed.

Lemma scaled_le_neg y k x :
  k < 0 -> scaled_le y k x = true <-> y <= x * 2 ^ (- k).
Proof.
  intros Hk. unfold scaled_le.
  destruct (Z.leb_spec 0 k); [lia|]. apply Z.leb_le.
Qed.

Lemma pow2_pos k : 0 <= k -> 0 < 2 ^ k.
Proof. intros. apply Z.pow_pos_nonneg; lia. Qed.

Lemma pow2_split a b : 0 <= a -> 0 <= b -> 2 ^ (a + b) = 2 ^ a * 2 ^ b.
Proof. intros. apply Z.pow_add_r; lia. Qed.

(** [ilog2_quot x y] is the binary exponent of the quotient. *)
Lemma ilog2_quot_spec x y :
  0 < x -> 0 < y ->
  scaled_le y (ilog2_quot x y) x = true /\
  scaled_le y (ilog2_quot x y + 1) x = false.
Proof.
  intros Hx Hy.
  pose proof (Z.log2_spec x Hx) as [Hx1 Hx2].
  pose proof (Z.log2_spec y Hy) as [Hy1 Hy2].
  pose proof (Z.log2_nonneg x) as Hlx.
  pose proof (Z.log2_nonneg y) as Hly.
  rewrite <- Z.add_1_r in Hx2, Hy2.
  rewrite pow2_split in Hx2, Hy2 by lia.
  change (2 ^ 1) with 2 in *.
  set (lx := Z.log2 x) in *. set (ly := Z.log2 y) in *.
  assert (Hup : scaled_le y (lx - ly + 1) x = false).
  { apply not_true_iff_false. intros H.
    destruct (Z.le_gt_cases 0 (lx - ly + 1)) as [Hs|Hs].
    - apply scaled_le_nonneg in H; [|lia].
      assert (E : 2 ^ ly * 2 ^ (lx - ly + 1) = 2 ^ lx * 2).
      { rewrite <- pow2_split by lia. replace (ly + (lx - ly + 1)) with (lx + 1) by lia.
        rewrite pow2_split by lia. reflexivity. }
      pose proof (pow2_pos (lx - ly + 1) Hs). nia.
    - apply scaled_le_neg in H; [|lia].
      assert (E : 2 ^ lx * 2 * 2 ^ (- (lx - ly + 1)) = 2 ^ ly).
      { replace (2 ^ lx * 2) with (2 ^ (lx + 1)) by (rewrite pow2_split by lia; reflexivity).
        rewrite <- pow2_split by lia. f_equal; lia. }
      assert (0 < 2 ^ (- (lx - ly + 1))) by (apply pow2_pos; lia). nia. }
  assert (Hdown : scaled_le y (lx - ly - 1) x = true).
  { destruct (Z.le_gt_cases 0 (lx - ly - 1)) as [Hs|Hs].
    - apply scaled_le_nonneg; [lia|].
      assert (E : 2 ^ ly * 2 * 2 ^ (lx - ly - 1) = 2 ^ lx).
      { replace (2 ^ ly * 2) with (2 ^ (ly + 1)) by (rewrite pow2_split by lia; reflexivity).
        rewrite <- pow2_split by lia. f_equal; lia. }
      pose proof (pow2_pos (lx - ly - 1) Hs). nia.
    - apply scaled_le_neg; [lia|].
      assert (E : 2 ^ lx * 2 ^ (- (lx - ly - 1)) = 2 ^ ly * 2).
      { rewrite <- pow2_split by lia. replace (lx + - (lx - ly - 1)) with (ly + 1) by lia.
        rewrite pow2_split by lia. reflexivity. }
      assert (0 < 2 ^ (- (lx - ly - 1))) by (apply pow2_pos; lia). nia. }
  unfold ilog2_quot. fold lx ly.
  destruct (scaled_le y (lx - ly) x) eqn:E.
  - split; assumption.
  - split; [assumption|]. replace (lx - ly - 1 + 1) with (lx - ly) by lia. assumption.
Qed.

Lemma round_half_even_cases num den :
  0 < den ->
  let q := num / den in
  let r := num mod den in
  (round_half_even num den = q /\ 2 * r <= den) \/
  (round_half_even num den = q + 1 /\ den <= 2 * r).
Proof.
  intros Hden q r. unfold round_half_even. fold q r.
  destruct (Z.ltb_spec (2 * r) den); [left; lia|].
  destruct (Z.ltb_spec den (2 * r)); [right; lia|].
  destruct (Z.even q); [left|right]; lia.
Qed.

(** Rounding the quotient to a multiple of [1 / P] keeps its ceiling, as
    long as the divisor is below [2 * P]. *)
Lemma round_ceil_exact a b P :
  0 < a -> 0 < b -> 0 < P -> b < 2 * P ->
  let n := - ((- round_half_even (a * P) b) / P) in
  b * (n - 1) < a <= b * n.
Proof.
  intros Ha Hb HP HbP n.
  set (m := round_half_even (a * P) b) in *.
  pose proof (Z.div_mod (a * P) b ltac:(lia)) as Hdm.
  pose proof (Z.mod_pos_bound (a * P) b Hb) as Hr.
  pose proof (Z.div_mod (- m) P ltac:(lia)) as Hn.
  pose proof (Z.mod_pos_bound (- m) P HP) as Hnr.
  assert (Hceil : P * (n - 1) < m <= P * n) by (unfold n; lia).
  clearbody n.
  destruct (round_half_even_cases (a * P) b Hb) as [[Hm Hhalf]|[Hm Hhalf]];
    fold m in Hm;
    set (q := a * P / b) in *; set (r := (a * P) mod b) in *.
  - split.
    + assert (b * (P * (n - 1)) < b * m) by (apply Z.mul_lt_mono_pos_l; lia). nia.
    + destruct (Z.eq_dec r 0) as [Hr0|Hr0].
      * assert (b * m <= b * (P * n)) by (apply Z.mul_le_mono_nonneg_l; lia). nia.
      * destruct (Z.eq_dec q (P * n)) as [Hq|Hq].
        -- exfalso.
           assert (P * (a - b * n) = r) by nia.
           assert (1 <= a - b * n) by nia.
           assert (P * 1 <= P * (a - b * n)) by (apply Z.mul_le_mono_nonneg_l; lia).
           lia.
        -- assert (q + 1 <= P * n) by lia.
           assert (b * (q + 1) <= b * (P * n)) by (apply Z.mul_le_mono_nonneg_l; lia).
           nia.
  - split.
    + assert (b * (P * (n - 1)) <= b * q) by (apply Z.mul_le_mono_nonneg_l; lia).
      nia.
    + assert (b * m <= b * (P * n)) by (apply Z.mul_le_mono_nonneg_l; lia). nia.
Qed.

Lemma round_half_even_le num den :
  0 <= num -> 0 < den -> 0 <= round_half_even num den <= num / den + 1.
Proof.
  intros Hn Hd.
  pose proof (Z.div_pos num den Hn Hd).
  destruct (round_half_even_cases num den Hd) as [[-> _]|[-> _]]; lia.
Qed.

(** For operands that are exact as doubles, [math.ceil] of the true
    quotient is the ceiling of the exact quotient. *)
Lemma true_div_ceil a b :
  0 < a < 2 ^ 53 -> 0 < b < 2 ^ 53 ->
  exists f, true_div a b = Ok f /\ b * (ceil f - 1) < a <= b * ceil f.
Proof.
  intros [Ha Ha'] [Hb Hb'].
  destruct (ilog2_quot_spec a b Ha Hb) as [Hk Hk'].
  set (k := ilog2_quot a b) in *.
  assert (Hk52 : k <= 52).
  { destruct (Z.le_gt_cases k 52) as [|Hgt]; [assumption|exfalso].
    apply scaled_le_nonneg in Hk; [|lia].
    assert (2 ^ 53 <= 2 ^ k) by (apply Z.pow_le_mono_r; lia).
    nia. }
  assert (Hk53 : -53 <= k).
  { destruct (Z.le_gt_cases (-53) k) as [|Hlt]; [assumption|exfalso].
    apply not_true_iff_false in Hk'. apply Hk'.
    apply scaled_le_neg; [lia|].
    assert (2 ^ 53 <= 2 ^ (- (k + 1))) by (apply Z.pow_le_mono_r; lia).
    nia. }
  set (P := 2 ^ (52 - k)).
  assert (HP : 0 < P) by (apply pow2_pos; lia).
  assert (HbP : b < 2 * P).
  { replace (2 * P) with (2 ^ (53 - k)).
    2:{ unfold P. replace (53 - k) with (1 + (52 - k)) by lia.
        rewrite pow2_split by lia. reflexivity. }
    destruct (Z.le_gt_cases 0 k) as [Hs|Hs].
    - apply scaled_le_nonneg in Hk; [|lia].
      assert (E : 2 ^ 53 = 2 ^ k * 2 ^ (53 - k)).
      { rewrite <- pow2_split by lia. f_equal; lia. }
      pose proof (pow2_pos k Hs). nia.
    - apply scaled_le_neg in Hk; [|lia].
      assert (E : 2 ^ (53 - k) = 2 ^ 53 * 2 ^ (- k)).
      { rewrite <- pow2_split by lia. f_equal; lia. }
      assert (0 < 2 ^ (- k)) by (apply pow2_pos; lia). nia. }
  pose proof (round_ceil_exact a b P Ha Hb HP HbP) as Hmain. cbv zeta in Hmain.
  unfold true_div.
  destruct (Z.eqb_spec b 0); [lia|]. destruct (Z.eqb_spec a 0); [lia|].
  rewrite !Z.abs_eq by lia. fold k.
  rewrite Z.max_l by lia.
  rewrite (Z.sgn_pos a), (Z.sgn_pos b) by lia.
  destruct (Z.leb_spec 0 (k - 52)) as [He|He].
  - assert (k = 52) by lia. subst P.
    replace (k - 52) with 0 in * by lia. replace (52 - k) with 0 in * by lia.
    change (2 ^ 0) with 1 in *. rewrite !Z.mul_1_r in *.
    assert (Hm : 0 <= round_half_even a b <= a / b + 1)
      by (apply round_half_even_le; lia).
    assert (a / b <= a) by (apply Z.div_le_upper_bound; nia).
    destruct (Z.leb_spec (2 ^ 1024) (round_half_even a b)) as [Hov|Hov].
    { exfalso. assert (2 ^ 53 < 2 ^ 1024) by (apply Z.pow_lt_mono_r; lia). lia. }
    eexists; split; [reflexivity|].
    unfold ceil; simpl. rewrite Z.mul_1_r.
    rewrite Z.div_1_r in Hmain. lia.
  - simpl. eexists; split; [reflexivity|].
    unfold ceil; simpl.
    destruct (Z.leb_spec 0 (k - 52)); [lia|].
    replace (- (k - 52)) with (52 - k) by lia. fold P.
    replace (1 * 1 * round_half_even (a * P) b) with (round_half_even (a * P) b) by lia.
    exact Hmain.
Qed.

(** A quotient below [2 ^ 1023] is a finite double. *)
Lemma true_div_finite a b :
  0 < a < 2 ^ 1023 -> 0 < b -> exists f, true_div a b = Ok f.
Proof.
  intros [Ha Ha'] Hb.
  destruct (ilog2_quot_spec a b Ha Hb) as [Hk Hk'].
  set (k := ilog2_quot a b) in *.
  unfold true_div.
  destruct (Z.eqb_spec b 0); [lia|]. destruct (Z.eqb_spec a 0); [lia|].
  rewrite !Z.abs_eq by lia. fold k.
  set (e := Z.max (k - 52) (-1074)).
  destruct (Z.leb_spec 0 e) as [He|He]; [|simpl; eauto].
  assert (e = k - 52) by lia.
  assert (Hk0 : 0 <= k) by lia.
  apply scaled_le_nonneg in Hk; [|lia].
  apply not_true_iff_false in Hk'. rewrite scaled_le_nonneg in Hk' by lia.
  assert (HkB : k < 1023).
  { destruct (Z.lt_ge_cases k 1023) as [|Hge]; [assumption|exfalso].
    assert (2 ^ 1023 <= 2 ^ k) by (apply Z.pow_le_mono_r; lia). nia. }
  pose proof (pow2_pos e He) as HPe.
  assert (E1 : 2 ^ (k + 1) = 2 ^ 53 * 2 ^ e).
  { rewrite <- pow2_split by lia. f_equal; lia. }
  assert (Hq : a / (b * 2 ^ e) < 2 ^ 53).
  { apply Z.div_lt_upper_bound; nia. }
  assert (Hm : 0 <= round_half_even a (b * 2 ^ e) <= a / (b * 2 ^ e) + 1)
    by (apply round_half_even_le; nia).
  assert (2 ^ (k + 1) <= 2 ^ 1023) by (apply Z.pow_le_mono_r; lia).
  assert (2 ^ 1023 < 2 ^ 1024) by (apply Z.pow_lt_mono_r; lia).
  destruct (Z.leb_spec (2 ^ 1024) (round_half_even a (b * 2 ^ e) * 2 ^ e)) as [Hov|Hov].
  - exfalso. nia.
  - simpl. eauto.
Qed.

End FloatFacts.

(** ** Page requests *)

Lemma effective_page_size_le_max self size :
  effective_page_size self size <= max_page_size self.
Proof. unfold effective_page_size. lia. Qed.

Lemma effective_page_ge_1 page : 1 <= effective_page page.
Proof. unfold effective_page. lia. Qed.

Lemma int_or_nonzero n d : n <> 0 -> int_or (Some n) d = n.
Proof. intros H. unfold int_or. destruct (Z.eqb_spec n 0); [lia|reflexivity]. Qed.

(** C3, as the code has it: the page number is raised to at least 1 and the
    page size is never above [max_page_size]; the page size is within
    [1, max_page_size] when the requested size is absent, 0 (the default is
    taken) or at least 1, for a service whose default and maximum are at
    least 1.  Both the rewriter and the list paginator use these values. *)
Theorem page_request_clamped (self : PaginationService) (page : Z) (size : option Z) :
  1 <= default_page_size self -> 1 <= max_page_size self ->
  let s := effective_page_size self size in
  let p := effective_page page in
  (forall query,
     add_pagination_to_query self query page size =
     Str.rstrip_semi (strip_limit query) +:+ limit_clause s ((p - 1) * s)) /\
  (forall (A : Type) (l : list A) r,
     paginate_list self l page size = Ok r ->
     page_size (pagination r) = s /\ current_page (pagination r) = p /\
     data r = slice l ((p - 1) * s) ((p - 1) * s + s)) /\
  s <= max_page_size self /\
  1 <= p /\ (1 <= page -> p = page) /\
  match size with
  | None | Some 0 =>
      s = Z.min (default_page_size self) (max_page_size self) /\ 1 <= s
  | Some n =>
      s = Z.min n (max_page_size self) /\ (1 <= n -> 1 <= s) /\
      (max_page_size self < n -> s = max_page_size self)
  end.
Proof.
  intros Hd Hm s p.
  split; [|split; [|split; [|split; [|split]]]].
  - reflexivity.
  - intros A l r H. unfold paginate_list in H. fold s p in H.
    destruct (create_pagination_metadata _ _ _) as [md|] eqn:E; [|discriminate].
    injection H as <-. simpl.
    unfold create_pagination_metadata in E.
    destruct (if 0 <? Z.of_nat (length l) then _ else _); [|discriminate].
    injection E as <-. repeat split.
  - apply effective_page_size_le_max.
  - apply effective_page_ge_1.
  - unfold p, effective_page. lia.
  - unfold s, effective_page_size.
    destruct size as [[|n|n]|]; simpl; lia.
Qed.

Lemma page_request_clamped_witness :
  let self := pagination_service in
  effective_page_size self (Some 500) = 200 /\
  effective_page_size self (Some 0) = 50 /\
  effective_page (-3) = 1.
Proof.
  pose proof (page_request_clamped pagination_service (-3) (Some 500)
                ltac:(simpl; lia) ltac:(simpl; lia)) as H.
  cbv zeta in H. destruct H as (_ & _ & _ & Hp & _ & Hs & _ & Hmax).
  pose proof (page_request_clamped pagination_service (-3) (Some 0)
                ltac:(simpl; lia) ltac:(simpl; lia)) as H0.
  cbv zeta in H0. destruct H0 as (_ & _ & _ & _ & _ & H0 & _).
  split; [|split].
  - rewrite Hs. reflexivity.
  - rewrite H0. reflexivity.
  - reflexivity.
Defined.

(** C3 as stated fails: a negative page size is used as it is, by the
    rewriter and by the list paginator. *)
Lemma negative_page_size_not_clamped :
  effective_page_size pagination_service (Some (-5)) = -5 /\
  ~ (1 <= effective_page_size pagination_service (Some (-5))
       <= max_page_size pagination_service) /\
  add_pagination_to_query pagination_service "SELECT * FROM t" 1 (Some (-5)) =
    "SELECT * FROM t" +:+ newline +:+ "LIMIT -5 OFFSET 0;" /\
  (page_size ∘ pagination) <$>
    (match paginate_list pagination_service [1; 2; 3] 1 (Some (-5)) with
     | Ok r => Some r
     | Raise _ => None
     end) = Some (-5).
Proof.
  split; [reflexivity|]. split; [|split; reflexivity].
  vm_compute. intros [H _]. apply H. reflexivity.
Qed.

(** ** Page metadata *)

Lemma metadata_fields total page size m :
  create_pagination_metadata total page size = Ok m ->
  current_page m = page /\ page_size m = size /\ total_count m = total /\
  has_next m = (page <? total_pages m) /\
  has_previous m = (1 <? page) /\
  next_page m = (if has_next m then Some (page + 1) else None) /\
  previous_page m = (if has_previous m then Some (page - 1) else None).
Proof.
  unfold create_pagination_metadata. intros H.
  destruct (if 0 <? total then _ else _) as [tp|]; [|discriminate].
  injection H as <-. simpl. repeat split.
Qed.

Lemma metadata_total_pages total page size :
  0 <= total < 2 ^ 53 -> 0 < size < 2 ^ 53 ->
  exists m, create_pagination_metadata total page size = Ok m /\
            size * (total_pages m - 1) < total <= size * total_pages m.
Proof.
  intros Ht Hs. unfold create_pagination_metadata.
  destruct (Z.ltb_spec 0 total) as [Hpos|Hz].
  - destruct (true_div_ceil total size ltac:(lia) Hs) as (f & -> & Hf).
    eexists; split; [reflexivity|]. exact Hf.
  - eexists; split; [reflexivity|]. simpl. lia.
Qed.

(** C4, as the code has it: for counts and page sizes that are exact as
    doubles and a positive page size, [total_pages] is the ceiling of
    [total_count / page_size]; for [total_count = 0] it is 0 whatever the
    page size; whenever metadata is returned, [has_next] holds exactly when
    [page < total_pages] and [has_previous] exactly when [page > 1]. *)
Theorem metadata_page_arithmetic :
  (forall total page size,
     0 <= total < 2 ^ 53 -> 1 <= page -> 0 < size < 2 ^ 53 ->
     exists m, create_pagination_metadata total page size = Ok m /\
       size * (total_pages m - 1) < total <= size * total_pages m /\
       total_pages m = ceil_div total size) /\
  (forall page size,
     1 <= page ->
     exists m, create_pagination_metadata 0 page size = Ok m /\
       total_pages m = 0 /\ has_next m = false /\
       has_previous m = (1 <? page)) /\
  (forall total page size m,
     create_pagination_metadata total page size = Ok m ->
     (has_next m = true <-> page < total_pages m) /\
     (has_previous m = true <-> 1 < page) /\
     next_page m = (if has_next m then Some (page + 1) else None) /\
     previous_page m = (if has_previous m then Some (page - 1) else None)).
Proof.
  split; [|split].
  - intros total page size Ht Hp Hs.
    destruct (metadata_total_pages total page size Ht Hs) as (m & Hm & Hc).
    exists m. split; [exact Hm|]. split; [exact Hc|].
    unfold ceil_div.
    apply Z.div_unique with (r := total + size - 1 - size * total_pages m); lia.
  - intros page size Hp. eexists. split; [reflexivity|]. simpl.
    repeat split. apply Z.ltb_ge. lia.
  - intros total page size m Hm.
    destruct (metadata_fields _ _ _ _ Hm) as (_ & _ & _ & Hn & Hv & Hnp & Hpp).
    split; [|split; [|split]].
    + rewrite Hn. apply Z.ltb_lt.
    + rewrite Hv. apply Z.ltb_lt.
    + exact Hnp.
    + exact Hpp.
Qed.

Lemma metadata_page_arithmetic_witness :
  (exists m, create_pagination_metadata 101 3 50 = Ok m /\
             total_pages m = 3 /\ has_next m = false /\ has_previous m = true) /\
  (exists m, create_pagination_metadata 0 1 0 = Ok m /\
             total_pages m = 0 /\ has_next m = false /\ has_previous m = false).
Proof.
  destruct metadata_page_arithmetic as (H1 & H2 & H3). split.
  - destruct (H1 101 3 50 ltac:(simpl; lia) ltac:(lia) ltac:(simpl; lia))
      as (m & Hm & _ & Htp).
    exists m. split; [exact Hm|].
    destruct (H3 101 3 50 m Hm) as (Hn & Hv & _).
    split; [rewrite Htp; reflexivity|]. split.
    + apply not_true_is_false. rewrite Hn, Htp. vm_compute. discriminate.
    + apply Hv. lia.
  - destruct (H2 1 0 ltac:(lia)) as (m & Hm & H0 & Hn & Hv).
    exists m. repeat split; assumption.
Defined.

(** C4 as stated fails at a page size of 0 with rows to show, where the
    division raises, and for counts beyond the exact range of a double,
    where the quotient is rounded before its ceiling is taken. *)
Lemma metadata_zero_page_size_raises :
  create_pagination_metadata 5 1 0 = Raise ZeroDivisionError /\
  ~ (exists m, create_pagination_metadata 5 1 0 = Ok m /\ total_pages m = 0) /\
  (exists m, create_pagination_metadata (10 ^ 16 + 1) 1 (10 ^ 16) = Ok m /\
             total_pages m = 1 /\ ceil_div (10 ^ 16 + 1) (10 ^ 16) = 2).
Proof.
  split; [reflexivity|]. split.
  - intros (m & H & _). discriminate H.
  - eexists. split; [vm_compute; reflexivity|]. split; reflexivity.
Qed.

(** The boundary cases of the specification. *)
Example metadata_0_1_50 :
  create_pagination_metadata 0 1 50 =
  Ok {| current_page := 1; page_size := 50; total_count := 0; total_pages := 0;
        has_next := false; has_previous := false;
        next_page := None; previous_page := None |}.
Proof. reflexivity. Qed.

Example metadata_101_1_50 :
  create_pagination_metadata 101 1 50 =
  Ok {| current_page := 1; page_size := 50; total_count := 101; total_pages := 3;
        has_next := true; has_previous := false;
        next_page := Some 2; previous_page := None |}.
Proof. vm_compute. reflexivity. Qed.

Example metadata_25_2_10 :
  create_pagination_metadata 25 2 10 =
  Ok {| current_page := 2; page_size := 10; total_count := 25; total_pages := 3;
        has_next := true; has_previous := true;
        next_page := Some 3; previous_page := Some 1 |}.
Proof. vm_compute. reflexivity. Qed.

(** ** Slices *)

Lemma slice_forward {A} (l : list A) (start n : Z) :
  0 <= start -> 0 <= n ->
  slice l start (start + n) = take (Z.to_nat n) (drop (Z.to_nat start) l).
Proof.
  intros Hs Hn. unfold slice, clamp_index.
  destruct (Z.ltb_spec start 0); [lia|].
  destruct (Z.ltb_spec (start + n) 0); [lia|].
  set (len := Z.of_nat (length l)).
  destruct (Z.le_gt_cases len start) as [Hout|Hin].
  - rewrite !Z.min_r by lia. rewrite Z.sub_diag. simpl.
    rewrite (drop_ge l (Z.to_nat start)) by lia.
    rewrite take_nil. rewrite take_0. reflexivity.
  - rewrite (Z.min_l start) by lia.
    destruct (Z.le_gt_cases (start + n) len) as [Hfit|Hclip].
    + rewrite Z.min_l by lia. f_equal. lia.
    + rewrite Z.min_r by lia.
      rewrite !take_ge; [reflexivity| |]; rewrite length_drop; lia.
Qed.

(** C8: for a page of at least 1 and an effective page size of at least 1,
    the list paginator returns, without raising, the elements at the indices
    from [(p-1)*s] up to [(p-1)*s + s] that exist in the list, and an empty
    list when the page starts past the end. *)
Theorem paginate_list_slice {A} (self : PaginationService) (l : list A)
    (page : Z) (size : option Z) :
  1 <= page ->
  1 <= effective_page_size self size ->
  Z.of_nat (length l) <= sys_maxsize ->
  let s := effective_page_size self size in
  let start := (page - 1) * s in
  exists r,
    paginate_list self l page size = Ok r /\
    data r = take (Z.to_nat s) (drop (Z.to_nat start) l) /\
    (forall i : nat,
       data r !! i =
       if decide (Z.of_nat i < s) then l !! (Z.to_nat start + i)%nat else None) /\
    (Z.of_nat (length l) <= start -> data r = []).
Proof.
  intros Hp Hs Hlen s start.
  assert (Hmeta : exists m,
            create_pagination_metadata (Z.of_nat (length l)) (effective_page page) s = Ok m).
  { unfold create_pagination_metadata.
    destruct (Z.ltb_spec 0 (Z.of_nat (length l))) as [Hpos|_]; [|eauto].
    destruct (true_div_finite (Z.of_nat (length l)) s) as [f ->]; [|lia|eauto].
    split; [lia|].
    assert (2 ^ 63 < 2 ^ 1023) by (apply Z.pow_lt_mono_r; lia).
    unfold sys_maxsize in Hlen. lia. }
  destruct Hmeta as [m Hm].
  assert (Hpage : effective_page page = page) by (unfold effective_page; lia).
  assert (Hstart : 0 <= start) by (unfold start; nia).
  assert (Hdata : slice l start (start + s) = take (Z.to_nat s) (drop (Z.to_nat start) l))
    by (apply slice_forward; lia).
  exists {| data := slice l start (start + s); pagination := m |}.
  split; [|split; [|split]]; simpl.
  - unfold paginate_list. fold s. rewrite Hm, Hpage. reflexivity.
  - exact Hdata.
  - intros i. rewrite Hdata. case_decide as Hi.
    + rewrite lookup_take_lt by lia. apply lookup_drop.
    + apply lookup_take_ge. lia.
  - intros Hout. rewrite Hdata, drop_ge by lia. apply take_nil.
Qed.

Lemma paginate_list_slice_witness :
  exists r,
    paginate_list pagination_service [1; 2; 3; 4; 5; 6; 7; 8; 9; 10] 2 (Some 3) = Ok r /\
    data r = [4; 5; 6].
Proof.
  destruct (paginate_list_slice pagination_service [1; 2; 3; 4; 5; 6; 7; 8; 9; 10] 2 (Some 3))
    as (r & Hr & Hd & _); [lia|vm_compute; discriminate|vm_compute; discriminate|].
  exists r. split; [exact Hr|]. rewrite Hd. reflexivity.
Defined.

(** The slices of the specification. *)
Example slice_page_3_of_10 :
  data <$> (match paginate_list pagination_service (seqZ 1 10) 3 (Some 5) with
            | Ok r => Some r | Raise _ => None end) = Some [].
Proof. vm_compute. reflexivity. Qed.

Example slice_page_1_of_10 :
  data <$> (match paginate_list pagination_service (seqZ 1 10) 1 (Some 5) with
            | Ok r => Some r | Raise _ => None end) = Some [1; 2; 3; 4; 5].
Proof. vm_compute. reflexivity. Qed.

(** ** Strings *)

Section StrFacts.

Import Str.

Lemma append_nil_l (a : string) : EmptyString +:+ a = a.
Proof. reflexivity. Qed.

Lemma append_cons (c : ascii) (a b : string) : String c a +:+ b = String c (a +:+ b).
Proof. reflexivity. Qed.

(** Push the appends of the goal below the leading characters. *)
Ltac sapp := rewrite ?append_cons, ?append_nil_l; simpl.

Lemma append_assoc (a b c : string) : (a +:+ b) +:+ c = a +:+ (b +:+ c).
Proof. induction a as [|x a IH]; sapp; [reflexivity|]. now rewrite IH. Qed.

Lemma append_empty_r (a : string) : a +:+ EmptyString = a.
Proof. induction a as [|x a IH]; sapp; [reflexivity|]. now rewrite IH. Qed.

Lemma append_length (a b : string) :
  String.length (a +:+ b) = (String.length a + String.length b)%nat.
Proof. induction a as [|x a IH]; sapp; [reflexivity|]. now rewrite IH. Qed.

Lemma append_inv_tail (a b c : string) : a +:+ c = b +:+ c -> a = b.
Proof.
  revert b. induction a as [|x a IH]; intros [|y b] H;
    rewrite ?append_cons, ?append_nil_l in H.
  - reflexivity.
  - exfalso. apply (f_equal String.length) in H. simpl in H.
    rewrite append_length in H. lia.
  - exfalso. apply (f_equal String.length) in H. simpl in H.
    rewrite append_length in H. lia.
  - injection H as -> H. f_equal. now apply IH.
Qed.

Lemma starts_with_refl s : starts_with s s = true.
Proof.
  induction s as [|c s IH]; simpl; [reflexivity|].
  now rewrite Ascii.eqb_refl.
Qed.

Lemma starts_with_app p s : starts_with p (p +:+ s) = true.
Proof.
  induction p as [|c p IH]; sapp; [reflexivity|].
  now rewrite Ascii.eqb_refl.
Qed.

Lemma starts_with_inv p s : starts_with p s = true -> exists t, s = p +:+ t.
Proof.
  revert s. induction p as [|c p IH]; intros s H.
  - exists s. reflexivity.
  - destruct s as [|d s]; simpl in H; [discriminate|].
    apply andb_true_iff in H as [Hc Hp]. apply Ascii.eqb_eq in Hc as ->.
    destruct (IH s Hp) as [t ->]. exists t. reflexivity.
Qed.

Lemma starts_with_trans a b c :
  starts_with a b = true -> starts_with b c = true -> starts_with a c = true.
Proof.
  intros Hab Hbc.
  destruct (starts_with_inv _ _ Hab) as [t ->].
  destruct (starts_with_inv _ _ Hbc) as [u ->].
  rewrite append_assoc. apply starts_with_app.
Qed.

Lemma take_prefix n s : starts_with (take n s) s = true.
Proof.
  revert s. induction n as [|n IH]; intros [|c s]; simpl; try reflexivity.
  now rewrite Ascii.eqb_refl, IH.
Qed.

Lemma take_app_length a b : take (String.length a) (a +:+ b) = a.
Proof. induction a as [|c a IH]; sapp; [now destruct b|]. now rewrite IH. Qed.

Lemma rstrip_by_prefix p s : starts_with (rstrip_by p s) s = true.
Proof.
  induction s as [|c s IH]; simpl; [reflexivity|].
  destruct (rstrip_by p s) as [|d r] eqn:E.
  - destruct (p c); simpl; [reflexivity|]. now rewrite Ascii.eqb_refl.
  - simpl. rewrite Ascii.eqb_refl. exact IH.
Qed.

Lemma rstrip_by_ends_in p s : ends_in p (rstrip_by p s) = false.
Proof.
  induction s as [|c s IH]; simpl; [reflexivity|].
  destruct (rstrip_by p s) as [|d r] eqn:E.
  - destruct (p c) eqn:Ep; simpl; [reflexivity|exact Ep].
  - exact IH.
Qed.

Lemma rstrip_by_fixed p s : ends_in p s = false -> rstrip_by p s = s.
Proof.
  induction s as [|c s IH]; simpl; [reflexivity|].
  destruct s as [|d s].
  - simpl. now intros ->.
  - intros H. rewrite (IH H). reflexivity.
Qed.

Lemma rstrip_by_moved p s : ends_in p s = true -> rstrip_by p s <> s.
Proof.
  intros H E. rewrite <- E, rstrip_by_ends_in in H. discriminate.
Qed.

Lemma rstrip_by_length p s : (String.length (rstrip_by p s) <= String.length s)%nat.
Proof.
  induction s as [|c s IH]; simpl; [lia|].
  destruct (rstrip_by p s) as [|d r]; [destruct (p c)|]; simpl in *; lia.
Qed.

Lemma rstrip_by_shorter p s :
  ends_in p s = true -> (String.length (rstrip_by p s) < String.length s)%nat.
Proof.
  induction s as [|c s IH]; simpl; [discriminate|].
  destruct s as [|d s].
  - simpl. intros ->. simpl. lia.
  - intros H. specialize (IH H).
    destruct (rstrip_by p (String d s)) as [|e r]; [destruct (p c)|]; simpl in *; lia.
Qed.

Lemma rstrip_by_snoc p s c :
  p c = true -> rstrip_by p (s +:+ String c EmptyString) = rstrip_by p s.
Proof.
  intros Hc. induction s as [|d s IH]; sapp.
  - now rewrite Hc.
  - now rewrite IH.
Qed.

Lemma upper_app a b : upper (a +:+ b) = upper a +:+ upper b.
Proof.
  induction a as [|c a IH]; [reflexivity|].
  rewrite append_cons. cbn [upper]. now rewrite IH, append_assoc.
Qed.

Lemma mem_app c a b : mem c (a +:+ b) = mem c a || mem c b.
Proof.
  induction a as [|d a IH]; [reflexivity|].
  rewrite append_cons. cbn [mem]. now rewrite IH, orb_assoc.
Qed.

Lemma mem_prefix c a s :
  starts_with a s = true -> mem c s = false -> mem c a = false.
Proof.
  intros Ha Hs. destruct (starts_with_inv _ _ Ha) as [t ->].
  rewrite mem_app in Hs. now apply orb_false_iff in Hs as [H _].
Qed.

(** Without the letter whose capital is two letters, [upper] keeps every
    character in its place. *)
Lemma upper_length s :
  mem sharp_s s = false -> String.length (upper s) = String.length s.
Proof.
  induction s as [|c s IH]; cbn [mem upper]; [reflexivity|].
  intros H. apply orb_false_iff in H as [Hc Hs].
  unfold upper_of. rewrite Ascii.eqb_sym, Hc, append_cons, append_nil_l.
  cbn [String.length]. now rewrite IH.
Qed.

Lemma rstrip_by_split p s :
  exists t, s = rstrip_by p s +:+ t /\ all p t = true.
Proof.
  induction s as [|c s (t & Hs & Ht)]; cbn [rstrip_by].
  - exists EmptyString. split; reflexivity.
  - destruct (rstrip_by p s) as [|d r] eqn:E.
    + rewrite append_nil_l in Hs. subst t.
      destruct (p c) eqn:Ec.
      * exists (String c s). split; [reflexivity|]. cbn [all]. now rewrite Ec.
      * exists s. split; [reflexivity|exact Ht].
    + exists t. split; [|exact Ht]. rewrite append_cons. now rewrite <- Hs.
Qed.

Lemma take_split n s : exists t, s = take n s +:+ t.
Proof.
  revert s. induction n as [|n IH]; intros [|c s]; cbn [take].
  - exists EmptyString. reflexivity.
  - exists (String c s). reflexivity.
  - exists EmptyString. reflexivity.
  - destruct (IH s) as [t Ht]. exists t. rewrite append_cons. now rewrite <- Ht.
Qed.

Lemma take_length n s : (String.length (take n s) <= n)%nat.
Proof.
  revert s. induction n as [|n IH]; intros [|c s]; cbn [take String.length]; try lia.
  specialize (IH s). lia.
Qed.

Lemma take_short n s : (String.length (take n s) < n)%nat -> take n s = s.
Proof.
  revert s. induction n as [|n IH]; intros [|c s]; cbn [take String.length];
    try lia; try reflexivity.
  intros H. rewrite IH; [reflexivity|lia].
Qed.

Lemma append_inv_length a b a' b' :
  a +:+ b = a' +:+ b' -> String.length a = String.length a' -> a = a' /\ b = b'.
Proof.
  revert a'. induction a as [|c a IH]; intros [|c' a'] H Hl;
    try discriminate Hl.
  - split; [reflexivity|exact H].
  - rewrite !append_cons in H. injection H as -> H. injection Hl as Hl.
    destruct (IH a' H Hl) as [-> ->]. split; reflexivity.
Qed.

Lemma all_app p a b : all p (a +:+ b) = all p a && all p b.
Proof.
  induction a as [|c a IH]; sapp; [reflexivity|].
  now rewrite IH, andb_assoc.
Qed.

Lemma all_impl (p q : ascii -> bool) s :
  (forall c, p c = true -> q c = true) -> all p s = true -> all q s = true.
Proof.
  intros Hpq. induction s as [|c s IH]; simpl; [reflexivity|].
  intros H. apply andb_true_iff in H as [Hc Hs].
  now rewrite (Hpq c Hc), IH.
Qed.

Lemma upper_plain s : all plain s = true -> upper s = s.
Proof.
  induction s as [|c s IH]; cbn [all upper]; [reflexivity|].
  intros H. apply andb_true_iff in H as [Hc Hs].
  apply andb_true_iff in Hc as [Hc _]. apply String.eqb_eq in Hc.
  now rewrite Hc, IH.
Qed.

Lemma mem_plain s : all plain s = true -> mem "L"%char s = false.
Proof.
  induction s as [|c s IH]; cbn [all mem]; [reflexivity|].
  intros H. apply andb_true_iff in H as [Hc Hs].
  apply andb_true_iff in Hc as [_ Hc]. apply negb_true_iff in Hc.
  now rewrite Hc, IH.
Qed.

Lemma uint_plain d : all plain (NilEmpty.string_of_uint d) = true.
Proof. induction d; simpl; [reflexivity|..]; exact IHd. Qed.

Lemma of_Z_plain n : all plain (of_Z n) = true.
Proof.
  unfold of_Z, NilZero.string_of_int, NilZero.string_of_uint.
  destruct (Z.to_int n) as [d|d]; destruct d; simpl; try reflexivity;
    apply uint_plain.
Qed.

Lemma rfind_absent t : mem "L"%char t = false -> rfind "LIMIT" t = None.
Proof.
  induction t as [|c t IH]; [reflexivity|].
  intros H. cbn [mem] in H. apply orb_false_iff in H as [Hc Ht].
  cbn [rfind]. rewrite (IH Ht). cbn [starts_with]. now rewrite Hc.
Qed.

Lemma rfind_limit pre rest :
  mem "L"%char rest = false ->
  rfind "LIMIT" (pre +:+ "LIMIT" +:+ rest) = Some (String.length pre).
Proof.
  intros Hrest. induction pre as [|c pre IH].
  - change (EmptyString +:+ "LIMIT" +:+ rest) with (String "L" ("IMIT" +:+ rest)).
    cbn [rfind]. rewrite rfind_absent by (simpl; exact Hrest).
    reflexivity.
  - change (String c pre +:+ "LIMIT" +:+ rest) with (String c (pre +:+ "LIMIT" +:+ rest)).
    cbn [rfind]. rewrite IH. reflexivity.
Qed.

Lemma contains_limit pre rest : contains "LIMIT" (pre +:+ "LIMIT" +:+ rest) = true.
Proof.
  induction pre as [|c pre IH].
  - reflexivity.
  - change (String c pre +:+ "LIMIT" +:+ rest) with (String c (pre +:+ "LIMIT" +:+ rest)).
    cbn [contains]. rewrite IH. apply orb_true_r.
Qed.

Lemma contains_rfind p s : contains p s = true -> exists i, rfind p s = Some i.
Proof.
  induction s as [|c s IH]; cbn [contains rfind]; intros H.
  - rewrite orb_false_r in H. rewrite H. eauto.
  - destruct (rfind p s) as [i|] eqn:E; [eauto|].
    apply orb_true_iff in H as [H|H]; [rewrite H; eauto|].
    destruct (IH H) as [i Hi]. discriminate.
Qed.

Lemma rfind_contains p s i : rfind p s = Some i -> contains p s = true.
Proof.
  revert i. induction s as [|c s IH]; cbn [contains rfind]; intros i H.
  - destruct (starts_with p EmptyString); [reflexivity|discriminate].
  - destruct (rfind p s) as [j|] eqn:E.
    + rewrite (IH j eq_refl). apply orb_true_r.
    + destruct (starts_with p (String c s)); [reflexivity|discriminate].
Qed.

Lemma rfind_complete p a b :
  starts_with p b = true -> exists i, rfind p (a +:+ b) = Some i.
Proof.
  intros H. induction a as [|c a [i IH]]; sapp.
  - destruct b as [|d b]; cbn [rfind].
    + rewrite H. eauto.
    + destruct (rfind p b); [eauto|]. rewrite H. eauto.
  - rewrite IH. eauto.
Qed.

Lemma rfind_tail p a b :
  rfind p (a +:+ b) = Some (String.length a) -> rfind p b = Some 0%nat.
Proof.
  induction a as [|c a IH]; [intros H; exact H|].
  rewrite append_cons. cbn [rfind String.length].
  destruct (rfind p (a +:+ b)) as [i|] eqn:E.
  - intros [= ->]. now apply IH.
  - destruct (starts_with p (String c (a +:+ b))); discriminate.
Qed.

(** [rfind] gives the place of the last occurrence. *)
Lemma rfind_last p s i :
  rfind p s = Some i ->
  exists a b,
    s = a +:+ b /\ String.length a = i /\ starts_with p b = true /\
    forall a' b', s = a' +:+ b' -> starts_with p b' = true ->
                  (String.length a' <= i)%nat.
Proof.
  revert i. induction s as [|c s IH]; intros i; cbn [rfind].
  - destruct (starts_with p EmptyString) eqn:E; [|discriminate].
    intros [= <-]. exists EmptyString, EmptyString. repeat split; [exact E|].
    intros [|x a'] b' H _; [reflexivity|discriminate].
  - destruct (rfind p s) as [j|] eqn:R.
    + intros [= <-]. destruct (IH j eq_refl) as (a & b & -> & Hl & Hp & Hmax).
      exists (String c a), b. repeat split; [simpl; now rewrite Hl|exact Hp|].
      intros [|x a'] b' H Hb'; [simpl; lia|].
      rewrite append_cons in H. injection H as _ H.
      simpl. specialize (Hmax a' b' H Hb'). lia.
    + destruct (starts_with p (String c s)) eqn:E; [|discriminate].
      intros [= <-]. exists EmptyString, (String c s).
      repeat split; [exact E|].
      intros [|x a'] b' H Hb'; [reflexivity|exfalso].
      rewrite append_cons in H. injection H as _ H.
      destruct (rfind_complete p a' b' Hb') as [k Hk]. congruence.
Qed.

End StrFacts.

(** ** The query rewriter *)

Section Rewriter.

Import Str.

Lemma limit_clause_split size offset :
  limit_clause size offset = newline +:+ "LIMIT" +:+ clause_rest size offset.
Proof. reflexivity. Qed.

Lemma clause_rest_plain size offset : all plain (clause_rest size offset) = true.
Proof.
  unfold clause_rest. rewrite !all_app, !of_Z_plain. reflexivity.
Qed.

Lemma strip_limit_rfind q :
  strip_limit q =
  match rfind "LIMIT" (upper q) with
  | Some pos => rstrip (take pos q)
  | None => q
  end.
Proof.
  unfold strip_limit.
  destruct (contains "LIMIT" (upper q)) eqn:E; [reflexivity|].
  destruct (rfind "LIMIT" (upper q)) as [i|] eqn:R; [|reflexivity].
  apply rfind_contains in R. congruence.
Qed.

(** The rewriter's own output has a LIMIT, whatever the query. *)
Lemma contains_own_clause base size offset :
  contains "LIMIT" (upper (base +:+ limit_clause size offset)) = true.
Proof.
  rewrite limit_clause_split, <- append_assoc, !upper_app.
  change (upper "LIMIT") with "LIMIT". apply contains_limit.
Qed.

(** In the rewriter's own output the last LIMIT is the one it appended. *)
Lemma rfind_own_clause base size offset :
  mem sharp_s base = false ->
  rfind "LIMIT" (upper (base +:+ limit_clause size offset)) =
  Some (S (String.length base)).
Proof.
  intros Hbase.
  rewrite limit_clause_split, <- append_assoc, !upper_app.
  rewrite (upper_plain (clause_rest size offset)) by apply clause_rest_plain.
  change (upper "LIMIT") with "LIMIT".
  rewrite rfind_limit by (apply mem_plain, clause_rest_plain).
  rewrite append_length, (upper_length _ Hbase). simpl. f_equal. lia.
Qed.

Lemma strip_own_clause base size offset :
  mem sharp_s base = false ->
  strip_limit (base +:+ limit_clause size offset) = rstrip base.
Proof.
  intros Hbase.
  rewrite strip_limit_rfind, (rfind_own_clause _ _ _ Hbase).
  rewrite limit_clause_split, <- append_assoc.
  replace (S (String.length base)) with (String.length (base +:+ newline))
    by (rewrite append_length; simpl; lia).
  rewrite take_app_length.
  apply rstrip_by_snoc. reflexivity.
Qed.

Lemma strip_limit_prefix q : starts_with (strip_limit q) q = true.
Proof.
  rewrite strip_limit_rfind. destruct (rfind "LIMIT" (upper q)) as [pos|].
  - eapply starts_with_trans; [apply rstrip_by_prefix|apply take_prefix].
  - apply starts_with_refl.
Qed.

Lemma base_prefix q : starts_with (rstrip_semi (strip_limit q)) q = true.
Proof.
  eapply starts_with_trans; [apply rstrip_by_prefix|apply strip_limit_prefix].
Qed.

(** Where the query is cut: at its last LIMIT, with the white space before
    it removed. *)
Lemma strip_limit_cut q :
  mem sharp_s q = false ->
  contains "LIMIT" (upper q) = true ->
  exists spaces tail,
    q = strip_limit q +:+ spaces +:+ tail /\
    all is_space spaces = true /\
    ends_in is_space (strip_limit q) = false /\
    starts_with "LIMIT" (upper tail) = true /\
    rfind "LIMIT" (upper tail) = Some 0%nat.
Proof.
  intros Hq Hc. rewrite strip_limit_rfind.
  destruct (contains_rfind _ _ Hc) as [i Hi]. rewrite Hi.
  destruct (take_split i q) as [tail Htail].
  destruct (rstrip_by_split is_space (take i q)) as (spaces & Hsp & Hall).
  fold (rstrip (take i q)) in Hsp.
  assert (Hhead : mem sharp_s (take i q) = false)
    by (eapply mem_prefix; [apply take_prefix|exact Hq]).
  assert (Hup : upper q = upper (take i q) +:+ upper tail)
    by (rewrite <- upper_app, <- Htail; reflexivity).
  assert (Hlen : String.length (take i q) = i).
  { pose proof (take_length i q) as Hle.
    destruct (Nat.eq_dec (String.length (take i q)) i) as [E|Hne]; [exact E|].
    exfalso.
    assert (Hall' : take i q = q) by (apply take_short; lia).
    destruct (rfind_last _ _ _ Hi) as (a & b & Hab & Hla & _).
    apply (f_equal String.length) in Hab.
    rewrite append_length, (upper_length _ Hq), <- Hall' in Hab. lia. }
  assert (Ht : rfind "LIMIT" (upper tail) = Some 0%nat).
  { apply (rfind_tail "LIMIT" (upper (take i q))).
    rewrite <- Hup, (upper_length _ Hhead), Hlen. exact Hi. }
  exists spaces, tail. split; [|split; [|split; [|split]]].
  - rewrite <- append_assoc, <- Hsp. exact Htail.
  - exact Hall.
  - apply rstrip_by_ends_in.
  - destruct (upper tail) as [|c u].
    + discriminate Ht.
    + cbn [rfind] in Ht. destruct (rfind "LIMIT" u); [discriminate|].
      destruct (starts_with "LIMIT" (String c u)); [reflexivity|discriminate].
  - exact Ht.
Qed.

End Rewriter.

(** What a second rewrite with the same arguments gives. *)
Lemma rewrite_again (self : PaginationService) (q : string) (page : Z) (size : option Z) :
  Str.mem Str.sharp_s q = false ->
  let s := effective_page_size self size in
  let offset := (effective_page page - 1) * s in
  let base := Str.rstrip_semi (strip_limit q) in
  let once := add_pagination_to_query self q page size in
  add_pagination_to_query self once page size =
  Str.rstrip_semi (Str.rstrip base) +:+ limit_clause s offset.
Proof.
  intros Hq s offset base once.
  unfold add_pagination_to_query at 1. cbv zeta.
  change once with (base +:+ limit_clause s offset).
  rewrite strip_own_clause; [reflexivity|].
  eapply mem_prefix; [apply base_prefix|exact Hq].
Qed.

(** C5, as the code has it, for a query without the letter U+00DF, whose
    capital is two letters: a second rewrite with the same arguments
    replaces the clause of the first and never adds one, and it gives the
    same text when the base kept by the first rewrite (the query cut at its
    last LIMIT, without trailing semicolons) does not end in white space. *)
Theorem rewrite_twice (self : PaginationService) (q : string) (page : Z) (size : option Z) :
  Str.mem Str.sharp_s q = false ->
  let s := effective_page_size self size in
  let offset := (effective_page page - 1) * s in
  let base := Str.rstrip_semi (strip_limit q) in
  let once := add_pagination_to_query self q page size in
  let twice := add_pagination_to_query self once page size in
  once = base +:+ limit_clause s offset /\
  twice = Str.rstrip_semi (Str.rstrip base) +:+ limit_clause s offset /\
  Str.rfind "LIMIT" (Str.upper twice) =
    Some (S (String.length (Str.rstrip_semi (Str.rstrip base)))) /\
  (Str.ends_in Str.is_space base = false -> twice = once).
Proof.
  intros Hq s offset base once twice.
  assert (Htwice : twice = Str.rstrip_semi (Str.rstrip base) +:+ limit_clause s offset)
    by (apply rewrite_again; exact Hq).
  split; [reflexivity|]. split; [exact Htwice|]. split.
  - rewrite Htwice. apply rfind_own_clause.
    eapply mem_prefix; [|exact Hq].
    eapply starts_with_trans; [apply rstrip_by_prefix|].
    eapply starts_with_trans; [apply rstrip_by_prefix|apply base_prefix].
  - intros E. rewrite Htwice.
    change once with (base +:+ limit_clause s offset). f_equal.
    unfold Str.rstrip. rewrite (rstrip_by_fixed _ _ E).
    unfold Str.rstrip_semi. apply rstrip_by_fixed.
    unfold base, Str.rstrip_semi. apply rstrip_by_ends_in.
Qed.

Lemma rewrite_twice_witness :
  let once := add_pagination_to_query pagination_service "SELECT * FROM t;" 2 (Some 50) in
  add_pagination_to_query pagination_service once 2 (Some 50) = once.
Proof.
  destruct (rewrite_twice pagination_service "SELECT * FROM t;" 2 (Some 50) eq_refl)
    as (_ & _ & _ & H).
  apply H. reflexivity.
Defined.

(** The second rewrite gives the same text only in that case. *)
Lemma second_rewrite_same_only_if (self : PaginationService) (q : string)
    (page : Z) (size : option Z) :
  Str.mem Str.sharp_s q = false ->
  let once := add_pagination_to_query self q page size in
  add_pagination_to_query self once page size = once ->
  Str.ends_in Str.is_space (Str.rstrip_semi (strip_limit q)) = false.
Proof.
  intros Hq once H. unfold once in H at 1. rewrite rewrite_again in H by exact Hq.
  unfold once, add_pagination_to_query in H. cbv zeta in H.
  apply append_inv_tail in H.
  set (base := Str.rstrip_semi (strip_limit q)) in *.
  destruct (Str.ends_in Str.is_space base) eqn:E; [exfalso|reflexivity].
  pose proof (rstrip_by_shorter _ _ E) as H1.
  pose proof (rstrip_by_length (Ascii.eqb ";"%char) (Str.rstrip base)) as H2.
  unfold Str.rstrip_semi, Str.rstrip in H, H2. rewrite H in H2. lia.
Qed.

(** C5 as stated fails when the query ends in white space. *)
Lemma rewrite_not_idempotent :
  let q := "SELECT * FROM t " in
  let once := add_pagination_to_query pagination_service q 2 (Some 50) in
  add_pagination_to_query pagination_service once 2 (Some 50) <> once.
Proof. vm_compute. discriminate. Qed.

(** The example of the specification. *)
Example rewrite_idempotent_select :
  let once := add_pagination_to_query pagination_service "SELECT * FROM t" 2 (Some 50) in
  add_pagination_to_query pagination_service once 2 (Some 50) = once.
Proof. vm_compute. reflexivity. Qed.

(** With the letter U+00DF before the LIMIT, the place found in the capitals
    is one further in the query: the cut leaves the [L] of the old clause,
    and the second rewrite of a query that has the letter and no LIMIT cuts
    into the clause appended by the first. *)
Example sharp_s_shifts_the_cut :
  let eszett := String Str.sharp_s EmptyString in
  add_pagination_to_query pagination_service
    ("SELECT " +:+ eszett +:+ " FROM t LIMIT 5") 1 (Some 10)
  = "SELECT " +:+ eszett +:+ " FROM t L" +:+ newline +:+ "LIMIT 10 OFFSET 0;" /\
  add_pagination_to_query pagination_service
    (add_pagination_to_query pagination_service ("SELECT '" +:+ eszett +:+ "'") 2 (Some 50))
    2 (Some 50)
  = "SELECT '" +:+ eszett +:+ "'" +:+ newline +:+ "L" +:+ newline +:+ "LIMIT 50 OFFSET 50;".
Proof. vm_compute. split; reflexivity. Qed.

(** C6, as the code has it, for a query without the letter U+00DF, a page
    of at least 1 and a page size within [1, max_page_size]: the result is a
    base followed by a newline and one clause with that page size and the
    offset [(p-1)*s], and the last LIMIT of the result is that clause.  The
    base is the query without its trailing semicolons when the query has no
    LIMIT in any letter case; otherwise the query is cut at the last place
    where the letters LIMIT stand, whatever stands there, and the base is
    what comes before, without the white space and then the semicolons at
    its end. *)
Theorem rewrite_bounded (self : PaginationService) (q : string) (p s : Z) :
  Str.mem Str.sharp_s q = false ->
  1 <= p -> 1 <= s <= max_page_size self ->
  let out := add_pagination_to_query self q p (Some s) in
  exists base semis,
    out = base +:+ newline +:+ "LIMIT " +:+ Str.of_Z s +:+
          " OFFSET " +:+ Str.of_Z ((p - 1) * s) +:+ ";" /\
    Str.all (Ascii.eqb ";"%char) semis = true /\
    Str.ends_in (Ascii.eqb ";"%char) base = false /\
    Str.rfind "LIMIT" (Str.upper out) = Some (S (String.length base)) /\
    ((Str.contains "LIMIT" (Str.upper q) = false /\ q = base +:+ semis) \/
     (exists spaces tail,
        q = (base +:+ semis) +:+ spaces +:+ tail /\
        Str.all Str.is_space spaces = true /\
        Str.ends_in Str.is_space (base +:+ semis) = false /\
        Str.starts_with "LIMIT" (Str.upper tail) = true /\
        Str.rfind "LIMIT" (Str.upper tail) = Some 0%nat)).
Proof.
  intros Hq Hp Hs out.
  set (base := Str.rstrip_semi (strip_limit q)).
  assert (Hsize : effective_page_size self (Some s) = s).
  { unfold effective_page_size. rewrite int_or_nonzero by lia. lia. }
  assert (Hpage : effective_page p = p) by (unfold effective_page; lia).
  assert (Hout : out = base +:+ limit_clause s ((p - 1) * s)).
  { unfold out, add_pagination_to_query. now rewrite Hsize, Hpage. }
  destruct (rstrip_by_split (Ascii.eqb ";"%char) (strip_limit q))
    as (semis & Hsplit & Hsemis).
  fold (Str.rstrip_semi (strip_limit q)) in Hsplit. fold base in Hsplit.
  exists base, semis.
  split; [exact Hout|]. split; [exact Hsemis|].
  split; [apply rstrip_by_ends_in|]. split.
  - rewrite Hout. apply rfind_own_clause.
    eapply mem_prefix; [apply base_prefix|exact Hq].
  - destruct (Str.contains "LIMIT" (Str.upper q)) eqn:Hc.
    + right.
      destruct (strip_limit_cut q Hq Hc) as (spaces & tail & H1 & H2 & H3 & H4 & H5).
      exists spaces, tail. rewrite <- Hsplit. auto.
    + left. split; [reflexivity|].
      rewrite <- Hsplit. unfold strip_limit. now rewrite Hc.
Qed.

Lemma rewrite_bounded_witness :
  let q := "select * from t; limit 5;" in
  let out := add_pagination_to_query pagination_service q 2 (Some 10) in
  exists base semis,
    out = base +:+ newline +:+ "LIMIT 10 OFFSET 10;" /\
    Str.all (Ascii.eqb ";"%char) semis = true /\
    Str.ends_in (Ascii.eqb ";"%char) base = false /\
    Str.rfind "LIMIT" (Str.upper out) = Some (S (String.length base)) /\
    ((Str.contains "LIMIT" (Str.upper q) = false /\ q = base +:+ semis) \/
     (exists spaces tail,
        q = (base +:+ semis) +:+ spaces +:+ tail /\
        Str.all Str.is_space spaces = true /\
        Str.ends_in Str.is_space (base +:+ semis) = false /\
        Str.starts_with "LIMIT" (Str.upper tail) = true /\
        Str.rfind "LIMIT" (Str.upper tail) = Some 0%nat)).
Proof.
  apply (rewrite_bounded pagination_service "select * from t; limit 5;" 2 10);
    [reflexivity|lia|simpl; lia].
Defined.

(** C6 as stated fails when the letters LIMIT stand again after the
    bounding clause, here in a comment: the cut is made there, the clause of
    the query is kept, and the result has two. *)
Lemma rewrite_keeps_earlier_clause :
  let q := "SELECT a FROM t LIMIT 5 -- page limit" in
  let out := add_pagination_to_query pagination_service q 2 (Some 10) in
  out = "SELECT a FROM t LIMIT 5 -- page" +:+ newline +:+ "LIMIT 10 OFFSET 10;" /\
  Str.contains "LIMIT 5" out = true.
Proof. vm_compute. split; reflexivity. Qed.

(** Page 2 of size 10 bounds any query to offset 10, limit 10. *)
Example rewrite_page_2_size_10 (q : string) :
  add_pagination_to_query pagination_service q 2 (Some 10) =
  Str.rstrip_semi (strip_limit q) +:+ newline +:+ "LIMIT 10 OFFSET 10;".
Proof. reflexivity. Qed.

Example rewrite_select_page_2 :
  add_pagination_to_query pagination_service "SELECT * FROM t" 2 (Some 10) =
  "SELECT * FROM t" +:+ newline +:+ "LIMIT 10 OFFSET 10;".
Proof. reflexivity. Qed.

Example rewrite_lower_case_clause :
  add_pagination_to_query pagination_service "select * from t; limit 5;" 2 (Some 10) =
  "select * from t" +:+ newline +:+ "LIMIT 10 OFFSET 10;".
Proof. reflexivity. Qed.

(** ** Cache keys *)

Lemma hex2_length n : String.length (Repr.hex2 n) = 2%nat.
Proof. reflexivity. Qed.

Lemma hex_length bs : String.length (MD5.hex bs) = (2 * length bs)%nat.
Proof.
  induction bs as [|b bs IH]; [reflexivity|].
  cbn [MD5.hex fold_right]. rewrite append_length, hex2_length.
  fold (MD5.hex bs). rewrite IH. simpl. lia.
Qed.

Lemma digest_length msg : length (MD5.digest msg) = 16%nat.
Proof.
  unfold MD5.digest. destruct (fold_left _ _ _) as [A B C D].
  rewrite !length_app. reflexivity.
Qed.

(** C1, as the code has it: the key is the tag [pmo_query_] followed by
    the 32 hexadecimal digits of the MD5 digest of the UTF-8 bytes of the
    query text, an underscore and the [repr] of the mapping, whose items
    stand in insertion order, an absent mapping counting as an empty one; so
    two mappings with the same items in the same order derive the same key.
    The digest is pinned by the test suite of RFC 1321, and the text that is
    hashed by two requests of the program. *)
Theorem generate_key_deterministic (q : string) (p1 p2 : option Dict) :
  params_or_empty p1 = params_or_empty p2 ->
  _generate_key q p1 = _generate_key q p2 /\
  _generate_key q p1 =
    "pmo_query_" +:+
    MD5.hexdigest
      (encode (q +:+ "_" +:+
               "{" +:+
               Repr.join ", "
                 (map (fun kv => Repr.of_str kv.1 +:+ ": " +:+ Repr.of_val kv.2)
                      (params_or_empty p1)) +:+
               "}")) /\
  String.length (_generate_key q p1) = 42%nat /\
  MD5.hexdigest (encode EmptyString) = "d41d8cd98f00b204e9800998ecf8427e" /\
  MD5.hexdigest (encode "a") = "0cc175b9c0f1b6a831c399e269772661" /\
  MD5.hexdigest (encode "abc") = "900150983cd24fb0d6963f7d28e17f72" /\
  MD5.hexdigest (encode "message digest") = "f96b697d7cb7938d525a2f31aaf161d0" /\
  MD5.hexdigest (encode "abcdefghijklmnopqrstuvwxyz")
    = "c3fcd3d76192e4007dfb496cca67e13b" /\
  MD5.hexdigest
    (encode "12345678901234567890123456789012345678901234567890123456789012345678901234567890")
    = "57edf4a22be3c955ac49da2e2107b67a" /\
  key_data "SELECT 1" None = "SELECT 1_{}" /\
  key_data "SELECT * FROM t WHERE n = 'a'"
    (Some [("page", PInt 2); ("name", PStr "it's"); ("tags", PList [PNone; PBool true])])
  = "SELECT * FROM t WHERE n = 'a'_{'page': 2, 'name': " +:+
    String Repr.double_quote "it's" +:+ String Repr.double_quote EmptyString +:+
    ", 'tags': [None, True]}".
Proof.
  intros H. split; [|split; [|split]].
  - unfold _generate_key, key_data. now rewrite H.
  - reflexivity.
  - unfold _generate_key, MD5.hexdigest.
    rewrite append_length, hex_length, digest_length. reflexivity.
  - repeat (split; [vm_compute; reflexivity|]). vm_compute. reflexivity.
Qed.

Lemma generate_key_deterministic_witness :
  _generate_key "SELECT 1" None = _generate_key "SELECT 1" (Some []) /\
  _generate_key "SELECT 1" None = "pmo_query_" +:+ MD5.hexdigest (encode "SELECT 1_{}").
Proof.
  destruct (generate_key_deterministic "SELECT 1" None (Some []) eq_refl)
    as (H1 & H2 & _).
  split; [exact H1|exact H2].
Defined.

(** C1 as stated fails: two mappings with the same items in a different
    insertion order derive different keys. *)
Lemma generate_key_order_sensitive :
  let p1 := [("page", PInt 2); ("page_size", PInt 50)] in
  let p2 := [("page_size", PInt 50); ("page", PInt 2)] in
  p1 ≡ₚ p2 /\
  _generate_key "SELECT 1" (Some p1) = "pmo_query_85f687bbfc7bff266a0bb7a1147bf812" /\
  _generate_key "SELECT 1" (Some p2) = "pmo_query_7c3600257b66540bee9dd6ebc759c784" /\
  _generate_key "SELECT 1" (Some p1) <> _generate_key "SELECT 1" (Some p2).
Proof.
  split; [apply perm_swap|].
  split; [vm_compute; reflexivity|].
  split; [vm_compute; reflexivity|].
  vm_compute. discriminate.
Qed.

(** A printable character above 127 stands as it is in the text that is
    hashed, and takes two bytes. *)
Example key_data_latin :
  let e_acute := String (ascii_of_nat 233) EmptyString in
  key_data "q" (Some [("k", PStr e_acute)]) = "q_{'k': '" +:+ e_acute +:+ "'}" /\
  encode e_acute = [195; 169].
Proof. vm_compute. split; reflexivity. Qed.

(** ** Cache tiers *)

Section CacheFacts.

Import Cache.

Lemma live_fresh {A} (a : A) (now expires : Z) :
  now < expires -> live now (Some (a, expires)) = Some a.
Proof. intros H. unfold live. destruct (Z.ltb_spec now expires); [reflexivity|lia]. Qed.

(** The primary tier gives nothing when it is absent or down. *)
Lemma get_redis_unavailable self now key :
  (redis_client self = None \/
   exists r, redis_client self = Some r /\ redis_up r = false) ->
  get_redis self now key = None.
Proof.
  unfold get_redis, redis_get. intros [->|(r & -> & ->)]; reflexivity.
Qed.

(** The write to the fallback store raises whenever it is attempted. *)
Lemma disk_set_datetime d now key value t :
  disk_set d now key value (Datetime t) = Raise StoreError.
Proof. reflexivity. Qed.

(** What [set] does to each tier: the fallback tier is never changed, and
    the primary tier takes the entry when it is in service and the time to
    live is positive. *)
Lemma set_tiers self now query data ttl params :
  let key := _generate_key query params in
  let t := int_or ttl (default_ttl self) in
  let self' := (set self now query data ttl params).2 in
  default_ttl self' = default_ttl self /\
  disk_cache self' = disk_cache self /\
  (redis_client self = None -> redis_client self' = None) /\
  (forall r, redis_client self = Some r -> redis_up r = false ->
             redis_client self' = Some r) /\
  (forall r, redis_client self = Some r -> t <= 0 ->
             redis_client self' = Some r) /\
  (forall r, redis_client self = Some r -> redis_up r = true -> 0 < t ->
             redis_client self' =
             Some {| redis_up := true;
                     redis_db := <[key := (Json.dumps data, now + t)]> (redis_db r) |}).
Proof.
  intros key t self'. unfold self', set. fold key t.
  unfold redis_setex.
  destruct (redis_client self) as [r|], (disk_cache self) as [d|];
    try destruct (redis_up r) eqn:Er; try destruct (disk_truthy d);
    try destruct (Z.leb_spec t 0); simpl;
    split_and!; intros; simplify_eq; try reflexivity; try lia; congruence.
Qed.

(** [set] reports success exactly when the primary tier took the entry. *)
Lemma set_success self now query data ttl params :
  (set self now query data ttl params).1 = true <->
  exists r, redis_client self = Some r /\ redis_up r = true /\
            0 < int_or ttl (default_ttl self).
Proof.
  unfold set, redis_setex.
  set (t := int_or ttl (default_ttl self)).
  destruct (redis_client self) as [r|], (disk_cache self) as [d|];
    try destruct (redis_up r) eqn:Er; try destruct (disk_truthy d);
    try destruct (Z.leb_spec t 0); simpl;
    (split;
     [ intros Hs;
       first [ discriminate
             | eexists; split; [reflexivity|]; split; [assumption|lia] ]
     | intros (r' & ? & ? & ?); simplify_eq;
       try reflexivity; try lia; congruence ]).
Qed.

(** A write that does not succeed changes nothing. *)
Lemma set_failed self now query data ttl params :
  (set self now query data ttl params).1 = false ->
  (set self now query data ttl params).2 = self.
Proof.
  destruct self as [dt rc dc].
  unfold set, redis_setex. cbn [default_ttl redis_client disk_cache].
  destruct rc as [r|], dc as [d|];
    try destruct (redis_up r) eqn:Er; try destruct (disk_truthy d);
    try destruct (Z.leb_spec (int_or ttl dt) 0); simpl;
    intros Hs; try discriminate; reflexivity.
Qed.

End CacheFacts.

(** C2 fails on the code.  The write to the fallback store hands it a
    [datetime] where the store takes seconds, so the call raises and is
    swallowed, and an empty store tests false and is not even tried: with
    the primary tier absent or raising on every call, [set] reports failure
    for every value and every time to live and leaves the service exactly as
    it was, so that a read afterwards gives what it gave before, a miss when
    nothing was stored by other means. *)
Theorem fallback_never_written (self : Cache.CacheService) (now later : Z)
    (query : string) (data : PyVal) (ttl : option Z) (params : option Dict) :
  (Cache.redis_client self = None \/
   exists r, Cache.redis_client self = Some r /\ Cache.redis_up r = false) ->
  Cache.set self now query data ttl params = (false, self) /\
  Cache.get (Cache.set self now query data ttl params).2 later query params
  = Cache.get self later query params /\
  (forall d, Cache.disk_cache self = Some d ->
             Cache.live later (Cache.disk_db d !! _generate_key query params) = None ->
             Cache.get (Cache.set self now query data ttl params).2 later query params
             = PNone).
Proof.
  intros Hredis.
  assert (Hfalse : (Cache.set self now query data ttl params).1 = false).
  { apply not_true_is_false. intros Hs. apply set_success in Hs as (r & Hr & Hup & _).
    destruct Hredis as [H|(r' & H & Hdown)]; congruence. }
  pose proof (set_failed _ _ _ _ _ _ Hfalse) as Hsame.
  split; [|split].
  - destruct (Cache.set self now query data ttl params) as [ok self'].
    simpl in *. congruence.
  - now rewrite Hsame.
  - intros d Hd Hlive. rewrite Hsame. unfold Cache.get.
    rewrite get_redis_unavailable.
    2:{ destruct Hredis as [H|(r & H & Hr)]; [left; auto|right; eauto]. }
    unfold Cache.get_disk, Cache.disk_get. rewrite Hd.
    destruct (Cache.disk_truthy d); [|reflexivity].
    destruct (Cache.disk_up d); [|reflexivity].
    now rewrite Hlive.
Qed.

Lemma fallback_never_written_witness :
  let rows := PList [PDict [("id", PInt 7); ("name", PStr "alpha")]] in
  Cache.set disk_only 100 "SELECT 1" rows (Some 300) None = (false, disk_only) /\
  Cache.get (Cache.set disk_only 100 "SELECT 1" rows (Some 300) None).2
            101 "SELECT 1" None = PNone.
Proof.
  intros rows.
  destruct (fallback_never_written disk_only 100 101 "SELECT 1" rows (Some 300) None)
    as (H1 & _ & H3); [left; reflexivity|].
  split; [exact H1|].
  apply (H3 {| Cache.disk_up := true; Cache.disk_db := ∅ |}); reflexivity.
Defined.

(** The same with a fallback store that already holds entries, and with a
    primary tier that raises. *)
Example fallback_never_written_warm :
  let rows := PList [PDict [("id", PInt 7)]] in
  Cache.set stale_disk 100 "SELECT 1" rows (Some 300) None = (false, stale_disk) /\
  Cache.get stale_disk 101 "SELECT 1" None = PNone /\
  Cache.set redis_down 100 "SELECT 1" rows (Some 300) None = (false, redis_down).
Proof. vm_compute. repeat split. Qed.

(** ** Clearing *)

Lemma disk_truthy_spec d : Cache.disk_truthy d = true <-> Cache.disk_db d <> ∅.
Proof.
  unfold Cache.disk_truthy. rewrite negb_true_iff, bool_decide_eq_false. tauto.
Qed.

(** C9, as the code has it: a clear without a pattern leaves the primary
    tier as it is in every case and touches the fallback tier only.  It
    reports failure exactly when the fallback store holds entries and raises
    while it is cleared, and nothing has changed then; otherwise it reports
    success and the fallback store, if there is one, is empty afterwards. *)
Theorem clear_all_keeps_primary (key_matches : string -> string -> bool)
    (self : Cache.CacheService) (now : Z) (pattern : option string) :
  Cache.no_pattern pattern = true ->
  let out := Cache.clear_cache key_matches self now pattern in
  Cache.redis_client out.2 = Cache.redis_client self /\
  (out.1 = false <->
   exists d, Cache.disk_cache self = Some d /\ Cache.disk_db d <> ∅ /\
             Cache.disk_up d = false) /\
  (out.1 = false -> out.2 = self) /\
  (out.1 = true ->
   (Cache.disk_cache self = None -> Cache.disk_cache out.2 = None) /\
   (forall d, Cache.disk_cache self = Some d ->
      exists d', Cache.disk_cache out.2 = Some d' /\ Cache.disk_db d' = ∅)).
Proof.
  intros Hpat out. unfold out, Cache.clear_cache.
  assert (Hredis :
    match Cache.redis_client self, pattern with
    | Some r, Some p =>
        if Cache.str_truthy p then
          keys ← Cache.redis_keys key_matches r now ("*" +:+ p +:+ "*");
          match keys with
          | [] => mret (Some r)
          | _ => r' ← Cache.redis_delete r keys; mret (Some r')
          end
        else mret (Some r)
    | rc, _ => mret rc
    end = Ok (Cache.redis_client self)).
  { destruct (Cache.redis_client self) as [r|], pattern as [p|]; try reflexivity.
    unfold Cache.no_pattern in Hpat. apply negb_true_iff in Hpat.
    now rewrite Hpat. }
  rewrite Hredis, Hpat. clear Hredis. cbn [mbind result_bind andb].
  unfold Cache.disk_clear.
  destruct self as [dt rc dc]. cbn [Cache.default_ttl Cache.redis_client Cache.disk_cache].
  destruct dc as [d|].
  2:{ simpl. split_and!; try reflexivity; try discriminate.
      - split; [discriminate|]. intros (d & Hd & _). discriminate.
      - intros _. split; [reflexivity|]. intros d Hd. discriminate. }
  destruct (Cache.disk_truthy d) eqn:Et.
  - apply disk_truthy_spec in Et.
    destruct (Cache.disk_up d) eqn:Eu; simpl.
    + split_and!; try reflexivity; try discriminate.
      * split; [discriminate|]. intros (d0 & [= <-] & _ & Hdown). congruence.
      * intros _. split; [discriminate|]. intros d0 _. eexists. split; reflexivity.
    + split_and!; try reflexivity.
      * split; [|reflexivity]. intros _. exists d. auto.
      * discriminate.
  - assert (He : Cache.disk_db d = ∅).
    { unfold Cache.disk_truthy in Et. apply negb_false_iff in Et.
      now apply bool_decide_eq_true in Et. }
    simpl. split_and!; try reflexivity; try discriminate.
    + split; [discriminate|]. intros (d0 & [= <-] & Hne & _). congruence.
    + intros _. split; [discriminate|]. intros d0 [= <-]. exists d. auto.
Qed.

Lemma clear_all_keeps_primary_witness :
  Cache.redis_client (Cache.clear_cache (fun _ _ => true) warm_redis 100 None).2
  = Cache.redis_client warm_redis /\
  Cache.clear_cache (fun _ _ => true) warm_redis 100 None =
  (true,
   {| Cache.default_ttl := 300;
      Cache.redis_client := Cache.redis_client warm_redis;
      Cache.disk_cache := Some {| Cache.disk_up := true; Cache.disk_db := ∅ |} |}).
Proof.
  destruct (clear_all_keeps_primary (fun _ _ => true) warm_redis 100 None eq_refl)
    as [H _].
  split; [exact H|reflexivity].
Defined.

(** C9 as stated fails when the fallback store raises: the clear reports
    failure, with both tiers as they were. *)
Lemma clear_all_reports_failure :
  Cache.clear_cache (fun _ _ => true) broken_disk 100 None = (false, broken_disk) /\
  (Cache.clear_cache (fun _ _ => true) broken_disk 100 None).1 <> true.
Proof. split; [reflexivity|]. vm_compute. discriminate. Qed.

(** ** Falsy payloads *)

Lemma dumps_not_empty v : Json.dumps v <> EmptyString.
Proof.
  destruct v as [|[|]|n| | |]; try discriminate.
  unfold Json.dumps, Str.of_Z, NilZero.string_of_int, NilZero.string_of_uint.
  destruct (Z.to_int n) as [d|d]; destruct d; discriminate.
Qed.

Lemma falsy_cases v :
  truthy v = false -> v = PNone \/ In v falsy_values.
Proof.
  unfold falsy_values.
  destruct v as [|[|]|n|s|[|x l]|[|x d]]; simpl; intros H;
    try discriminate; auto 10.
  - apply negb_false_iff, Z.eqb_eq in H. subst. auto 10.
  - apply negb_false_iff, String.eqb_eq in H. subst. auto 10.
Qed.

Lemma falsy_round_trip v :
  truthy v = false -> v <> PNone -> Json.loads (Json.dumps v) = Ok v.
Proof.
  intros H Hn. destruct (falsy_cases v H) as [->|Hin]; [congruence|].
  unfold falsy_values in Hin. simpl in Hin.
  destruct Hin as [<-|[<-|[<-|[<-|[<-|[]]]]]]; reflexivity.
Qed.

(** C10, as the code has it: the fallback tier treats a falsy value as a
    miss, so a read that gets nothing from the primary tier returns absent;
    the primary tier tests the stored text, which is never empty for a
    value written by [set], and returns what the text denotes, so a falsy
    payload that it holds is returned to the caller. *)
Theorem falsy_payload_lookup (self : Cache.CacheService) (now : Z)
    (query : string) (params : option Dict) :
  let key := _generate_key query params in
  (forall d v,
     Cache.get_redis self now key = None ->
     Cache.disk_cache self = Some d ->
     Cache.disk_get d now key = Ok v ->
     truthy v = false ->
     Cache.get self now query params = PNone) /\
  (forall r text v,
     Cache.redis_client self = Some r ->
     Cache.redis_get r now key = Ok (Some text) ->
     text <> EmptyString ->
     Json.loads text = Ok v ->
     Cache.get self now query params = v) /\
  (forall v, Json.dumps v <> EmptyString) /\
  (forall r v,
     Cache.redis_client self = Some r ->
     Cache.redis_get r now key = Ok (Some (Json.dumps v)) ->
     truthy v = false ->
     Cache.get self now query params = v).
Proof.
  intros key.
  assert (Hprimary : forall r text v,
            Cache.redis_client self = Some r ->
            Cache.redis_get r now key = Ok (Some text) ->
            text <> EmptyString ->
            Json.loads text = Ok v ->
            Cache.get self now query params = v).
  { intros r text v Hr Hg Ht Hv. unfold Cache.get. fold key.
    unfold Cache.get_redis. rewrite Hr, Hg.
    assert (Cache.str_truthy text = true) as ->.
    { unfold Cache.str_truthy. apply negb_true_iff.
      now apply String.eqb_neq. }
    now rewrite Hv. }
  split; [|split; [|split]].
  - intros d v Hr Hd Hv Hf. unfold Cache.get. fold key. rewrite Hr.
    unfold Cache.get_disk. rewrite Hd.
    destruct (Cache.disk_truthy d); [|reflexivity]. now rewrite Hv, Hf.
  - exact Hprimary.
  - apply dumps_not_empty.
  - intros r v Hr Hg Hf.
    apply (Hprimary r (Json.dumps v)); [exact Hr|exact Hg|apply dumps_not_empty|].
    destruct (falsy_cases v Hf) as [->|Hin]; [reflexivity|].
    apply falsy_round_trip; [exact Hf|].
    intros ->. unfold falsy_values in Hin. simpl in Hin.
    destruct Hin as [?|[?|[?|[?|[?|[]]]]]]; discriminate.
Qed.

Lemma falsy_payload_lookup_witness :
  Cache.get zero_on_disk 101 "SELECT 1" None = PNone.
Proof.
  destruct (falsy_payload_lookup zero_on_disk 101 "SELECT 1" None) as [H _].
  apply (H {| Cache.disk_up := true;
              Cache.disk_db := {[ _generate_key "SELECT 1" None := (PInt 0, 400) ]} |}
           (PInt 0)).
  - reflexivity.
  - reflexivity.
  - vm_compute. reflexivity.
  - reflexivity.
Defined.

(** C10 as stated fails on the primary tier: an empty list stored there is
    returned to the caller. *)
Lemma primary_returns_empty_list :
  truthy (PList []) = false /\
  Cache.get (Cache.set both_tiers 100 "SELECT 1" (PList []) None None).2
            101 "SELECT 1" None = PList [] /\
  Cache.get (Cache.set both_tiers 100 "SELECT 1" (PList []) None None).2
            101 "SELECT 1" None <> PNone.
Proof. vm_compute. repeat split. discriminate. Qed.

(** ** JSON: reading back what was written *)

Section JsonFacts.

Import Json.

(** Induction on values, with the hypothesis on every element of a list and
    on every value of a dictionary. *)
Lemma PyVal_nested_ind (P : PyVal -> Prop) :
  P PNone ->
  (forall b, P (PBool b)) ->
  (forall n, P (PInt n)) ->
  (forall s, P (PStr s)) ->
  (forall l, Forall P l -> P (PList l)) ->
  (forall d, Forall (fun kv => P kv.2) d -> P (PDict d)) ->
  forall v, P v.
Proof.
  intros HN HB HI HS HL HD.
  fix IH 1. intros [| b | n | s | l | d].
  - exact HN.
  - apply HB.
  - apply HI.
  - apply HS.
  - apply HL. induction l as [|x l IHl]; constructor; [apply IH|exact IHl].
  - apply HD. induction d as [|[k x] d IHd]; constructor; [apply IH|exact IHd].
Qed.

(** ** Numbers *)

Lemma not_digit_ends rest : ends_value rest = true -> starts_with_digit rest = false.
Proof.
  destruct rest as [|c t]; [reflexivity|]. simpl. intros H.
  apply orb_true_iff in H as [H|H]; [apply orb_true_iff in H as [H|H]|];
    apply Ascii.eqb_eq in H; subst c; reflexivity.
Qed.

Lemma not_float_ends rest : ends_value rest = true -> float_follows rest = false.
Proof.
  destruct rest as [|c t]; [reflexivity|]. simpl. intros H.
  apply orb_true_iff in H as [H|H]; [apply orb_true_iff in H as [H|H]|];
    apply Ascii.eqb_eq in H; subst c; reflexivity.
Qed.

Lemma read_digits_stop acc rest :
  starts_with_digit rest = false -> read_digits acc rest = (acc, rest).
Proof.
  destruct rest as [|c t]; [reflexivity|]. simpl.
  destruct (digit_of c); [|reflexivity].
  intros H. apply bool_decide_eq_false in H. exfalso. apply H. discriminate.
Qed.

Lemma read_digits_uint d acc rest :
  starts_with_digit rest = false ->
  read_digits (Z.pos acc) (NilEmpty.string_of_uint d +:+ rest)
  = (Z.pos (Pos.of_uint_acc d acc), rest).
Proof.
  intros Hrest. revert acc.
  induction d; intros acc; cbn [NilEmpty.string_of_uint Pos.of_uint_acc];
    rewrite ?append_cons, ?append_nil_l;
    [now apply read_digits_stop|..];
    cbn [read_digits];
    match goal with
    | |- context [digit_of ?c] =>
        let v := eval vm_compute in (digit_of c) in change (digit_of c) with v
    end;
    cbv iota beta; rewrite <- IHd; f_equal; lia.
Qed.

Lemma to_uint_normal p : Pos.to_uint p = Decimal.unorm (Pos.to_uint p).
Proof.
  rewrite <- DecimalPos.Unsigned.to_of.
  now rewrite DecimalPos.Unsigned.of_to.
Qed.

Lemma to_uint_no_leading_zero p d : Pos.to_uint p <> Decimal.D0 d.
Proof.
  intros E.
  pose proof (to_uint_normal p) as Hn.
  pose proof (DecimalPos.Unsigned.to_uint_nonzero p) as Hz.
  rewrite E in Hn, Hz. unfold Decimal.unorm in Hn.
  destruct (Decimal.nzhead (Decimal.D0 d)) as [|u|u|u|u|u|u|u|u|u|u] eqn:En;
    try discriminate Hn.
  - apply Hz. exact Hn.
  - exact (DecimalFacts.nzhead_nonzero (Decimal.D0 d) u En).
Qed.

Lemma read_nat_pos p rest :
  starts_with_digit rest = false ->
  read_nat (NilEmpty.string_of_uint (Pos.to_uint p) +:+ rest) = Some (Z.pos p, rest).
Proof.
  intros Hrest.
  pose proof (DecimalPos.Unsigned.of_to p) as Hof.
  pose proof (to_uint_no_leading_zero p) as Hz.
  destruct (Pos.to_uint p) as [|d|d|d|d|d|d|d|d|d|d] eqn:E;
    [discriminate Hof | exfalso; exact (Hz d eq_refl) | ..];
    cbn [NilEmpty.string_of_uint]; rewrite append_cons; cbn [read_nat];
    match goal with
    | |- context [digit_of ?c] =>
        let v := eval vm_compute in (digit_of c) in change (digit_of c) with v
    end;
    cbv iota beta; rewrite (read_digits_uint d _ rest Hrest);
    cbn [Pos.of_uint] in Hof; injection Hof as ->; reflexivity.
Qed.

Lemma string_of_pos p :
  NilZero.string_of_uint (Pos.to_uint p) = NilEmpty.string_of_uint (Pos.to_uint p).
Proof.
  unfold NilZero.string_of_uint.
  pose proof (DecimalPos.Unsigned.to_uint_nonnil p).
  destruct (Pos.to_uint p); [congruence|reflexivity..].
Qed.

Lemma uint_head d t :
  d <> Decimal.Nil ->
  exists c u, NilEmpty.string_of_uint d +:+ t = String c u /\
              bool_decide (digit_of c <> None) = true.
Proof.
  intros H. destruct d; [congruence|..];
    cbn [NilEmpty.string_of_uint]; rewrite append_cons; eauto.
Qed.

Lemma of_Z_head n rest :
  exists c t, Str.of_Z n +:+ rest = String c t /\ number_head c = true.
Proof.
  unfold Str.of_Z, number_head. destruct n as [|p|p]; cbn [Z.to_int NilZero.string_of_int].
  - exists "0"%char, rest. split; reflexivity.
  - rewrite string_of_pos.
    destruct (uint_head (Pos.to_uint p) rest) as (c & u & -> & Hc).
    { apply DecimalPos.Unsigned.to_uint_nonnil. }
    exists c, u. split; [reflexivity|]. rewrite Hc. apply orb_true_r.
  - rewrite append_cons. eexists _, _. split; reflexivity.
Qed.

Lemma read_number_int n rest :
  ends_value rest = true ->
  read_number (Str.of_Z n +:+ rest) = Some (PInt n, rest).
Proof.
  intros Hrest.
  pose proof (not_digit_ends rest Hrest) as Hd.
  pose proof (not_float_ends rest Hrest) as Hf.
  unfold Str.of_Z. destruct n as [|p|p]; cbn [Z.to_int NilZero.string_of_int].
  - change (NilZero.string_of_uint Decimal.zero +:+ rest) with (String "0" rest).
    unfold read_number. cbn [read_nat]. now rewrite Hf.
  - rewrite string_of_pos.
    destruct (uint_head (Pos.to_uint p) rest) as (c & u & E & Hc).
    { apply DecimalPos.Unsigned.to_uint_nonnil. }
    pose proof (read_nat_pos p rest Hd) as Hr. rewrite E in *.
    unfold read_number.
    assert (Hsign : (match String c u with
                     | String "-" s' => (-1, s')
                     | _ => (1, String c u)
                     end) = (1, String c u)).
    { apply bool_decide_eq_true in Hc.
      destruct c as [[] [] [] [] [] [] [] []]; try reflexivity.
      exfalso. apply Hc. reflexivity. }
    rewrite Hsign, Hr, Hf. reflexivity.
  - rewrite string_of_pos, append_cons.
    unfold read_number. rewrite (read_nat_pos p rest Hd), Hf. reflexivity.
Qed.

(** ** Strings *)

Lemma read_string_char c t :
  read_string (escape_char c +:+ t)
  = ('(str, rest) ← read_string t; Some (String c str, rest)).
Proof.
  destruct c as [[] [] [] [] [] [] [] []]; reflexivity.
Qed.

Lemma read_string_escape s rest :
  read_string (escape s +:+ String Repr.double_quote rest) = Some (s, rest).
Proof.
  induction s as [|c s IH].
  - reflexivity.
  - cbn [escape]. rewrite append_assoc, read_string_char, IH.
    reflexivity.
Qed.

(** ** The first character of a value *)

Lemma skip_ws_value s : starts_value s = true -> skip_ws s = s.
Proof.
  destruct s as [|c t]; [discriminate|]. unfold starts_value, value_head.
  intros H. cbn [skip_ws]. destruct (is_ws c); [discriminate|reflexivity].
Qed.

Lemma skip_ws_space s : starts_value s = true -> skip_ws (String " " s) = s.
Proof. intros H. cbn [skip_ws]. now apply skip_ws_value. Qed.

Lemma number_is_value c : number_head c = true -> value_head c = true.
Proof.
  destruct c as [[] [] [] [] [] [] [] []]; intros H; try reflexivity; discriminate H.
Qed.

Lemma dumps_list l : dumps (PList l) = "[" +:+ Repr.join ", " (map dumps l) +:+ "]".
Proof. reflexivity. Qed.

Lemma dumps_dict d :
  dumps (PDict d) =
  "{" +:+ Repr.join ", " (map (fun kv => quote kv.1 +:+ ": " +:+ dumps kv.2) d) +:+ "}".
Proof. reflexivity. Qed.

Lemma dumps_starts v rest : starts_value (dumps v +:+ rest) = true.
Proof.
  destruct v as [|[|]|n|s|l|d]; try reflexivity.
  - destruct (of_Z_head n rest) as (c & t & E & Hc).
    cbn [dumps]. rewrite E. now apply number_is_value.
Qed.

Lemma read_value_number f c t :
  number_head c = true -> read_value (S f) (String c t) = read_number (String c t).
Proof.
  destruct c as [[] [] [] [] [] [] [] []]; intros H; try discriminate H; reflexivity.
Qed.

Lemma read_value_open_list f s :
  starts_value s = true -> read_value (S f) (String "[" s) = read_array f s [].
Proof.
  intros H. cbn [read_value]. rewrite (skip_ws_value s H).
  destruct s as [|c t]; [discriminate|].
  destruct c as [[] [] [] [] [] [] [] []]; try discriminate H; reflexivity.
Qed.

Lemma read_value_open_dict f t :
  read_value (S f) (String "{" (String Repr.double_quote t))
  = read_object f (String Repr.double_quote t) [].
Proof. reflexivity. Qed.

Lemma read_value_int f n rest :
  ends_value rest = true ->
  read_value (S f) (Str.of_Z n +:+ rest) = Some (PInt n, rest).
Proof.
  intros H. destruct (of_Z_head n rest) as (c & t & E & Hc).
  rewrite <- (read_number_int n rest H). rewrite E.
  now apply read_value_number.
Qed.

Lemma read_value_str f s rest :
  read_value (S f) (quote s +:+ rest) = Some (PStr s, rest).
Proof.
  unfold quote. rewrite append_assoc, !append_cons, append_nil_l.
  change (read_value (S f) (String Repr.double_quote ?x))
    with ('(str, rest') ← read_string x; Some (PStr str, rest')).
  now rewrite (read_string_escape s rest).
Qed.

(** ** Dictionaries with distinct keys *)

Lemma existsb_eqb_In k (keys : list string) :
  existsb (String.eqb k) keys = true <-> In k keys.
Proof.
  rewrite existsb_exists. split.
  - intros (x & Hx & E). apply String.eqb_eq in E. now subst.
  - intros H. exists k. split; [exact H|apply String.eqb_refl].
Qed.

Lemma distinct_NoDup (keys : list string) : distinct keys = true <-> List.NoDup keys.
Proof.
  induction keys as [|k keys IH]; cbn [distinct].
  - split; [constructor|reflexivity].
  - rewrite andb_true_iff, negb_true_iff, IH. split.
    + intros [Hk Hn]. constructor; [|exact Hn].
      intros Hin. apply existsb_eqb_In in Hin. congruence.
    + intros H. inversion H as [|? ? Hk Hn]; subst. split; [|exact Hn].
      apply not_true_is_false. intros E. apply Hk. now apply existsb_eqb_In.
Qed.

Lemma dict_set_fresh (d : Dict) k v :
  ~ In k (map fst d) -> dict_set d k v = (d ++ [(k, v)])%list.
Proof.
  induction d as [|[k' v'] d IH]; intros H; cbn [dict_set].
  - reflexivity.
  - destruct (String.eqb_spec k k') as [->|Hne].
    + exfalso. apply H. now left.
    + rewrite IH; [reflexivity|]. intros Hin. apply H. now right.
Qed.

Lemma dict_fold_distinct (l acc : Dict) :
  List.NoDup (map fst (acc ++ l)%list) ->
  fold_left (fun d kv => dict_set d kv.1 kv.2) l acc = (acc ++ l)%list.
Proof.
  revert acc. induction l as [|[k v] l IH]; intros acc H; cbn [fold_left].
  - now rewrite app_nil_r.
  - cbn [fst snd]. rewrite dict_set_fresh.
    + rewrite IH; rewrite <- app_assoc; [reflexivity|exact H].
    + rewrite map_app in H. apply List.NoDup_remove_2 in H.
      intros Hin. apply H. apply in_or_app. now left.
Qed.

Lemma dict_of_pairs_distinct (l : Dict) :
  distinct (map fst l) = true -> dict_of_pairs l = l.
Proof.
  intros H. unfold dict_of_pairs. apply (dict_fold_distinct l []).
  now apply distinct_NoDup.
Qed.

(** ** Lists and dictionaries *)

Lemma list_size_cons x l : list_size (x :: l) = S (size x + list_size l).
Proof. reflexivity. Qed.

Lemma dict_size_cons kv d : dict_size (kv :: d) = S (size kv.2 + dict_size d).
Proof. reflexivity. Qed.

Lemma join_cons2 sep x y l :
  Repr.join sep (x :: y :: l) = x +:+ sep +:+ Repr.join sep (y :: l).
Proof. reflexivity. Qed.

Lemma join_dumps_starts x l t :
  starts_value (Repr.join ", " (map dumps (x :: l)) +:+ t) = true.
Proof.
  destruct l as [|y l]; cbn [map].
  - apply dumps_starts.
  - rewrite join_cons2, append_assoc. apply dumps_starts.
Qed.

Lemma read_array_more f s v t acc :
  read_value f s = Some (v, String "," (String " " t)) ->
  starts_value t = true ->
  read_array (S f) s acc = read_array f t (v :: acc).
Proof.
  intros H Ht. cbn [read_array]. rewrite H.
  change (read_array f (skip_ws (String " " t)) (v :: acc) = read_array f t (v :: acc)).
  now rewrite skip_ws_space.
Qed.

Lemma read_array_close f s v rest acc :
  read_value f s = Some (v, String "]" rest) ->
  read_array (S f) s acc = Some (PList (rev (v :: acc)), rest).
Proof. intros H. cbn [read_array]. rewrite H. reflexivity. Qed.

Lemma read_array_dumps l :
  Forall reads_back l -> forallb wf l = true -> l <> [] ->
  forall acc fuel rest,
    (list_size l <= fuel)%nat ->
    read_array fuel (Repr.join ", " (map dumps l) +:+ "]" +:+ rest) acc
    = Some (PList (rev acc ++ l)%list, rest).
Proof.
  induction l as [|x l IH]; intros HF Hwf Hne acc fuel rest Hfuel; [congruence|].
  inversion HF as [|? ? Hx HFl]; subst.
  cbn [forallb] in Hwf. apply andb_true_iff in Hwf as [Hwx Hwl].
  rewrite list_size_cons in Hfuel.
  destruct fuel as [|fuel]; [lia|].
  destruct l as [|y l].
  - cbn [map Repr.join].
    rewrite (read_array_close fuel _ x rest); [reflexivity|].
    apply (Hx Hwx fuel (String "]" rest)); [reflexivity|lia].
  - cbn [map]. rewrite join_cons2, !append_assoc.
    change (dumps y :: map dumps l) with (map dumps (y :: l)).
    rewrite (read_array_more fuel _ x
               (Repr.join ", " (map dumps (y :: l)) +:+ "]" +:+ rest)).
    + rewrite (IH HFl Hwl ltac:(discriminate) (x :: acc) fuel rest) by lia.
      cbn [rev]. rewrite <- app_assoc. reflexivity.
    + apply (Hx Hwx fuel); [reflexivity|lia].
    + apply join_dumps_starts.
Qed.

Lemma read_object_item f k t acc :
  starts_value t = true ->
  read_object (S f) (quote k +:+ ": " +:+ t) acc
  = ('(v, rest) ← read_value f t;
     match skip_ws rest with
     | String "," rest' => read_object f (skip_ws rest') ((k, v) :: acc)
     | String "}" rest' => Some (PDict (dict_of_pairs (rev ((k, v) :: acc))), rest')
     | _ => None
     end).
Proof.
  intros Ht. unfold quote.
  rewrite append_assoc, !append_cons, !append_nil_l.
  cbn [read_object].
  change (Ascii.eqb Repr.double_quote Repr.double_quote) with true. cbv iota.
  rewrite (read_string_escape k _).
  simpl. rewrite (skip_ws_value t Ht). reflexivity.
Qed.

Lemma item_starts kv t : starts_value (item_text kv +:+ t) = true.
Proof.
  unfold item_text, quote. rewrite !append_cons. reflexivity.
Qed.

Lemma join_items_starts kv d t :
  starts_value (Repr.join ", " (map item_text (kv :: d)) +:+ t) = true.
Proof.
  destruct d as [|kv' d]; cbn [map].
  - apply item_starts.
  - rewrite join_cons2, append_assoc. apply item_starts.
Qed.

Lemma read_object_dumps d :
  Forall (fun kv => reads_back kv.2) d ->
  forallb (fun kv => wf kv.2) d = true -> d <> [] ->
  forall acc fuel rest,
    (dict_size d <= fuel)%nat ->
    read_object fuel (Repr.join ", " (map item_text d) +:+ "}" +:+ rest) acc
    = Some (PDict (dict_of_pairs (rev acc ++ d)%list), rest).
Proof.
  induction d as [|[k x] d IH]; intros HF Hwf Hne acc fuel rest Hfuel; [congruence|].
  inversion HF as [|? ? Hx HFd]; subst. cbn [snd] in Hx.
  cbn [forallb fst snd] in Hwf. apply andb_true_iff in Hwf as [Hwx Hwd].
  rewrite dict_size_cons in Hfuel. cbn [snd] in Hfuel.
  destruct fuel as [|fuel]; [lia|].
  destruct d as [|kv d].
  - cbn [map Repr.join]. unfold item_text at 1. cbn [fst snd].
    rewrite !append_assoc.
    rewrite read_object_item by apply dumps_starts.
    rewrite (Hx Hwx fuel ("}" +:+ rest)) by (reflexivity || lia).
    reflexivity.
  - cbn [map]. rewrite join_cons2. unfold item_text at 1. cbn [fst snd].
    rewrite !append_assoc.
    change (item_text kv :: map item_text d) with (map item_text (kv :: d)).
    rewrite read_object_item by apply dumps_starts.
    rewrite (Hx Hwx fuel
               (", " +:+ Repr.join ", " (map item_text (kv :: d)) +:+ "}" +:+ rest))
      by (reflexivity || lia).
    change (read_object fuel
              (skip_ws (String " "
                 (Repr.join ", " (map item_text (kv :: d)) +:+ "}" +:+ rest)))
              ((k, x) :: acc)
            = Some (PDict (dict_of_pairs (rev acc ++ (k, x) :: kv :: d)%list), rest)).
    rewrite skip_ws_space by apply join_items_starts.
    rewrite (IH HFd Hwd ltac:(discriminate) ((k, x) :: acc) fuel rest) by lia.
    cbn [rev]. rewrite <- app_assoc. reflexivity.
Qed.

Lemma read_value_open_dict' f s :
  starts_quote s = true -> read_value (S f) (String "{" s) = read_object f s [].
Proof.
  destruct s as [|c t]; [discriminate|]. cbn [starts_quote].
  intros H. apply Ascii.eqb_eq in H. subst c. reflexivity.
Qed.

Lemma join_items_quote kv d t :
  starts_quote (Repr.join ", " (map item_text (kv :: d)) +:+ t) = true.
Proof.
  destruct d as [|kv' d]; cbn [map].
  - cbn [Repr.join]. unfold item_text, quote. rewrite !append_cons. reflexivity.
  - rewrite join_cons2. unfold item_text at 1. unfold quote.
    rewrite !append_cons. reflexivity.
Qed.

Lemma dumps_dict_items d :
  dumps (PDict d) = "{" +:+ Repr.join ", " (map item_text d) +:+ "}".
Proof. reflexivity. Qed.

(** Every well-formed value is read back from its text, followed by
    anything that can follow a value, with fuel for its size. *)
Lemma read_value_dumps v : reads_back v.
Proof.
  induction v as [| b | n | s | l IHl | d IHd] using PyVal_nested_ind;
    intros Hwf fuel rest Hrest Hfuel;
    (destruct fuel as [|fuel]; [cbn in Hfuel; lia|]).
  - reflexivity.
  - destruct b; reflexivity.
  - now apply read_value_int.
  - now apply read_value_str.
  - rewrite dumps_list, !append_assoc, append_cons, append_nil_l.
    destruct l as [|x l]; [reflexivity|].
    rewrite read_value_open_list by apply join_dumps_starts.
    rewrite (read_array_dumps (x :: l) IHl Hwf ltac:(discriminate) [] fuel rest);
      [reflexivity|].
    cbn [size] in Hfuel. unfold list_size. lia.
  - cbn [wf] in Hwf. apply andb_true_iff in Hwf as [Hitems Hkeys].
    rewrite dumps_dict_items, !append_assoc, append_cons, append_nil_l.
    destruct d as [|kv d]; [reflexivity|].
    rewrite read_value_open_dict' by apply join_items_quote.
    rewrite (read_object_dumps (kv :: d) IHd Hitems ltac:(discriminate) [] fuel rest).
    + cbn [rev app]. now rewrite dict_of_pairs_distinct.
    + cbn [size] in Hfuel. unfold dict_size. lia.
Qed.

(** ** Fuel *)

Lemma quote_length s : (2 <= String.length (quote s))%nat.
Proof. unfold quote. rewrite append_cons. cbn [String.length]. rewrite append_length. simpl. lia. Qed.

Lemma join_size_bound {A} (text : A -> string) (weight : A -> nat) (l : list A) :
  Forall (fun x => (weight x <= String.length (text x))%nat) l ->
  (list_sum (map (fun x => S (weight x)) l)
   <= S (String.length (Repr.join ", " (map text l))))%nat.
Proof.
  induction l as [|x l IH]; intros HF; [simpl; lia|].
  inversion HF as [|? ? Hx HFl]; subst. specialize (IH HFl).
  destruct l as [|y l].
  - simpl. simpl in Hx. lia.
  - cbn [map] in *. rewrite join_cons2, !append_length.
    change (list_sum (S (weight x) :: ?r)) with (S (weight x) + list_sum r)%nat.
    simpl String.length at 2. lia.
Qed.

Lemma size_le_length v : (size v <= String.length (dumps v))%nat.
Proof.
  induction v as [| b | n | s | l IHl | d IHd] using PyVal_nested_ind.
  - simpl. lia.
  - destruct b; simpl; lia.
  - pose proof (dumps_not_empty (PInt n)) as H.
    destruct (dumps (PInt n)); [congruence|]. simpl. lia.
  - pose proof (quote_length s). simpl size. cbn [dumps]. lia.
  - rewrite dumps_list, !append_length. cbn [size].
    pose proof (join_size_bound dumps size l IHl). simpl String.length. lia.
  - rewrite dumps_dict_items, !append_length. cbn [size].
    assert (HF : Forall (fun kv : string * PyVal =>
                    (size kv.2 <= String.length (item_text kv))%nat) d).
    { eapply Forall_impl; [exact IHd|]. intros [k x] H. cbn [snd] in *.
      unfold item_text. cbn [fst snd]. rewrite !append_length. lia. }
    pose proof (join_size_bound item_text (fun kv => size kv.2) d HF).
    simpl String.length. lia.
Qed.

End JsonFacts.

(** [json.loads(json.dumps(v))] is [v] for every well-formed value: a value
    written to the primary tier is read back as it was. *)
Theorem loads_dumps (v : PyVal) : wf v = true -> Json.loads (Json.dumps v) = Ok v.
Proof.
  intros Hwf. unfold Json.loads.
  pose proof (dumps_starts v EmptyString) as Hs. rewrite append_empty_r in Hs.
  rewrite (skip_ws_value _ Hs).
  pose proof (read_value_dumps v Hwf (2 * String.length (Json.dumps v) + 2)%nat
                EmptyString eq_refl) as H.
  rewrite append_empty_r in H. rewrite H; [reflexivity|].
  pose proof (size_le_length v). lia.
Qed.

Lemma loads_dumps_witness :
  let v := PDict [("rows", PList [PInt (-12); PStr "a b"; PNone]); ("ok", PBool true)] in
  Json.loads (Json.dumps v) = Ok v.
Proof. intros v. apply loads_dumps. reflexivity. Defined.

(** ** The primary tier *)

Section StoreFacts.

Import Cache.

Lemma live_stale {A} (a : A) (now expires : Z) :
  expires <= now -> live now (Some (a, expires)) = None.
Proof. intros H. unfold live. destruct (Z.ltb_spec now expires); [lia|reflexivity]. Qed.

Lemma str_truthy_dumps v : str_truthy (Json.dumps v) = true.
Proof. unfold str_truthy. apply negb_true_iff, String.eqb_neq, dumps_not_empty. Qed.

End StoreFacts.

(** A value stored through a primary tier in service is read back until the
    entry expires. *)
Lemma stored_value_read (self : Cache.CacheService) (now later : Z)
    (query : string) (data : PyVal) (ttl : option Z) (params : option Dict) :
  primary_up self -> wf data = true ->
  now <= later < now + int_or ttl (Cache.default_ttl self) ->
  Cache.get (Cache.set self now query data ttl params).2 later query params = data.
Proof.
  intros (r & Hr & Hup) Hwf Htime.
  destruct (set_tiers self now query data ttl params)
    as (_ & _ & _ & _ & _ & Hset).
  cbv zeta in *.
  unfold Cache.get, Cache.get_redis. rewrite (Hset r Hr Hup) by lia.
  unfold Cache.redis_get. simpl.
  rewrite lookup_insert_eq, live_fresh by lia.
  now rewrite str_truthy_dumps, loads_dumps.
Qed.

(** A write leaves the reads of every other key as they were. *)
Lemma other_key_read (self : Cache.CacheService) (now later : Z)
    (query query' : string) (data : PyVal) (ttl : option Z)
    (params params' : option Dict) :
  _generate_key query' params' <> _generate_key query params ->
  Cache.get (Cache.set self now query data ttl params).2 later query' params'
  = Cache.get self later query' params'.
Proof.
  intros Hne.
  unfold Cache.get, Cache.get_redis, Cache.get_disk, Cache.set,
    Cache.redis_setex, Cache.redis_get.
  set (t := int_or ttl (Cache.default_ttl self)).
  set (key := _generate_key query params) in *.
  set (key' := _generate_key query' params') in *.
  destruct (Cache.redis_client self) as [r|], (Cache.disk_cache self) as [d|];
    try destruct (Cache.redis_up r) eqn:Er; try destruct (Cache.disk_truthy d) eqn:Ed;
    try destruct (Z.leb_spec t 0);
    cbn -[Cache.live Cache.disk_get]; rewrite ?Er, ?Ed; cbn -[Cache.live Cache.disk_get];
    rewrite ?lookup_insert_ne by congruence; reflexivity.
Qed.

(** Once the entry has expired the primary tier no longer answers for it:
    the read gives what the fallback tier held before the write. *)
Lemma expired_value_read (self : Cache.CacheService) (now later : Z)
    (query : string) (data : PyVal) (ttl : option Z) (params : option Dict) :
  0 < int_or ttl (Cache.default_ttl self) ->
  now + int_or ttl (Cache.default_ttl self) <= later ->
  Cache.get (Cache.set self now query data ttl params).2 later query params
  = default PNone (Cache.get_disk self later (_generate_key query params)).
Proof.
  intros Hpos Hlate.
  unfold Cache.get, Cache.get_redis, Cache.get_disk, Cache.set,
    Cache.redis_setex, Cache.redis_get.
  set (t := int_or ttl (Cache.default_ttl self)) in *.
  set (key := _generate_key query params).
  destruct (Z.leb_spec t 0) as [|_]; [lia|].
  destruct (Cache.redis_client self) as [r|], (Cache.disk_cache self) as [d|];
    try destruct (Cache.redis_up r) eqn:Er; try destruct (Cache.disk_truthy d) eqn:Ed;
    cbn -[Cache.live Cache.disk_get]; rewrite ?Er, ?Ed;
    cbn -[Cache.live Cache.disk_get];
    rewrite ?lookup_insert_eq, ?live_stale by lia;
    repeat match goal with
           | |- context [match ?x with _ => _ end] => destruct x
           end; reflexivity.
Qed.


(** ** Rows are well formed *)

Lemma dict_set_wf (d : Dict) k v :
  wf (PDict d) = true -> wf v = true -> wf (PDict (dict_set d k v)) = true.
Proof.
  cbn [wf]. intros Hd Hv. apply andb_true_iff in Hd as [Hvals Hkeys].
  induction d as [|[k' v'] d IH]; cbn [dict_set].
  - cbn. now rewrite Hv.
  - cbn [forallb map fst snd distinct] in Hvals, Hkeys.
    apply andb_true_iff in Hvals as [Hv' Hvals].
    apply andb_true_iff in Hkeys as [Hk' Hkeys].
    destruct (String.eqb_spec k k') as [->|Hne].
    + cbn [forallb map fst snd distinct]. now rewrite Hv, Hvals, Hk', Hkeys.
    + specialize (IH Hvals Hkeys). apply andb_true_iff in IH as [IH1 IH2].
      cbn [forallb map fst snd distinct]. rewrite Hv', IH1, IH2, !andb_true_r.
      apply negb_true_iff. apply negb_true_iff in Hk'.
      apply not_true_is_false. intros Hin.
      apply existsb_exists in Hin as (x & Hx & Hkx).
      apply String.eqb_eq in Hkx as <-.
      apply in_map_iff in Hx as ([k2 v2] & Hk2 & Hx). cbn [fst] in Hk2. subst k2.
      assert (Hcase : k' = k \/ In k' (map fst d)).
      { clear - Hx. induction d as [|[a b] d IH]; cbn [dict_set] in Hx.
        - destruct Hx as [[= -> _]|[]]. now left.
        - destruct (String.eqb_spec k a) as [->|Hne'].
          + destruct Hx as [[= -> _]|Hx]; [now left|].
            right. right. apply in_map_iff. now exists (k', v2).
          + destruct Hx as [[= -> _]|Hx]; [right; now left|].
            destruct (IH Hx) as [?|?]; [now left|right; now right]. }
      destruct Hcase as [->|Hin]; [congruence|].
      apply not_true_iff_false in Hk'. apply Hk'.
      apply existsb_exists. exists k'. split; [exact Hin|apply String.eqb_refl].
Qed.

Lemma dict_of_pairs_wf (pairs : list (string * PyVal)) :
  forallb (fun kv => wf kv.2) pairs = true -> wf (PDict (dict_of_pairs pairs)) = true.
Proof.
  unfold dict_of_pairs.
  assert (H : forall acc, wf (PDict acc) = true ->
              forallb (fun kv => wf kv.2) pairs = true ->
              wf (PDict (fold_left (fun d kv => dict_set d kv.1 kv.2) pairs acc)) = true).
  { induction pairs as [|[k v] pairs IH]; intros acc Hacc Hp; [exact Hacc|].
    cbn [forallb fst snd] in Hp. apply andb_true_iff in Hp as [Hv Hp].
    cbn [fold_left fst snd]. apply IH; [|exact Hp]. now apply dict_set_wf. }
  apply H. reflexivity.
Qed.

Lemma zip_wf (columns : list string) (row : list PyVal) :
  forallb wf row = true -> forallb (fun kv => wf kv.2) (zip columns row) = true.
Proof.
  revert row. induction columns as [|c columns IH]; intros [|x row] H;
    try reflexivity.
  cbn [forallb] in H. apply andb_true_iff in H as [Hx Hrow].
  cbn. now rewrite Hx, IH.
Qed.

(** The result of a query is well formed when its cells are. *)
Lemma rows_to_dicts_wf (columns : list string) (rows : list (list PyVal)) :
  forallb (forallb wf) rows = true ->
  wf (PList (Databricks.rows_to_dicts columns rows)) = true.
Proof.
  cbn [wf]. unfold Databricks.rows_to_dicts.
  induction rows as [|row rows IH]; intros H; [reflexivity|].
  cbn [forallb] in H. apply andb_true_iff in H as [Hrow Hrows].
  cbn [map forallb]. rewrite IH by exact Hrows.
  rewrite dict_of_pairs_wf by now apply zip_wf. reflexivity.
Qed.

(** ** Query execution *)

Section ExecuteFacts.

Import Databricks.

Variable wh : Warehouse.

Lemma ensure_connection w :
  connection w = true \/ can_connect wh = true ->
  (if connection w then Ok w else connect wh w) =
  Ok {| cache_service := cache_service w; connection := true |}.
Proof.
  intros H. unfold connect. destruct w as [c conn]; simpl in *.
  destruct conn; [reflexivity|]. destruct H as [H|H]; [discriminate|].
  now rewrite H.
Qed.

Lemma execute_query_miss w now query parameters cache_ttl columns rows :
  Cache.get (cache_service w) now (query_text_key query parameters) None = PNone ->
  connection w = true \/ can_connect wh = true ->
  run wh (add_safety_limit query)
      (if dict_truthy parameters then parameters else None) = Ok (columns, rows) ->
  execute_query wh w now query parameters true cache_ttl =
  (Ok (PList (rows_to_dicts columns rows)),
   after_run w now (query_text_key query parameters) columns rows cache_ttl).
Proof.
  intros Hmiss Hconn Hrun. unfold execute_query.
  rewrite Hmiss. simpl. rewrite (ensure_connection w Hconn). simpl.
  rewrite Hrun. unfold after_run. destruct rows; reflexivity.
Qed.


End ExecuteFacts.





(** ** Scenarios of the specification *)

(** A value written with a TTL of one second is read during that second
    and absent after it. *)
Example ttl_expiry :
  let self := (Cache.set both_tiers 100 "SELECT 1" (PInt 7) (Some 1) None).2 in
  Cache.get self 100 "SELECT 1" None = PInt 7 /\
  Cache.get self 101 "SELECT 1" None = PNone.
Proof. vm_compute. split; reflexivity. Qed.

(** Changing one parameter value changes the key. *)
Example key_sensitivity :
  _generate_key "SELECT 1" (Some [("page", PInt 2)]) <>
  _generate_key "SELECT 1" (Some [("page", PInt 3)]).
Proof. vm_compute. discriminate. Qed.

(** A first call on a fresh key runs the query and fills the primary tier;
    the same call again is served from the cache, here with the warehouse
    out of reach. *)
Example miss_then_hit :
  let rows := PList [PDict [("id", PInt 1)]; PDict [("id", PInt 2)]] in
  let first :=
    Databricks.execute_query stub_warehouse live_world 100 "SELECT id FROM t" None true 1800 in
  let second :=
    Databricks.execute_query unreachable_warehouse
      {| Databricks.cache_service := Databricks.cache_service first.2;
         Databricks.connection := false |}
      101 "SELECT id FROM t" None true 1800 in
  first.1 = Ok rows /\ second.1 = Ok rows /\
  Databricks.cache_service second.2 = Databricks.cache_service first.2.
Proof. vm_compute. repeat split. Qed.

(** An empty result is returned and not cached: the next call runs the
    query again.  Without a primary tier nothing is cached at all. *)
Example empty_result_not_cached :
  let first :=
    Databricks.execute_query stub_warehouse live_world 100 "SELECT id FROM empty" None true 1800 in
  first.1 = Ok (PList []) /\
  Databricks.cache_service first.2 = both_tiers /\
  (Databricks.execute_query unreachable_warehouse
     {| Databricks.cache_service := Databricks.cache_service first.2;
        Databricks.connection := false |}
     101 "SELECT id FROM empty" None true 1800).1 = Raise RemoteError.
Proof. vm_compute. repeat split. Qed.

(** A clear with a pattern removes the matching keys of the primary tier and
    leaves the fallback tier as it is. *)
Example clear_with_pattern :
  Cache.clear_cache (fun _ _ => true) warm_redis 100 (Some "query") =
  (true,
   {| Cache.default_ttl := 300;
      Cache.redis_client := Some {| Cache.redis_up := true; Cache.redis_db := ∅ |};
      Cache.disk_cache := Cache.disk_cache warm_redis |}).
Proof. vm_compute. reflexivity. Qed.

Example nothing_cached_without_primary :
  let first :=
    Databricks.execute_query stub_warehouse cold_world 100 "SELECT id FROM t" None true 1800 in
  first.1 = Ok (PList [PDict [("id", PInt 1)]; PDict [("id", PInt 2)]]) /\
  Databricks.cache_service first.2 = disk_only /\
  (Databricks.execute_query unreachable_warehouse
     {| Databricks.cache_service := Databricks.cache_service first.2;
        Databricks.connection := false |}
     101 "SELECT id FROM t" None true 1800).1 = Raise RemoteError.
Proof. vm_compute. repeat split. Qed.

(** ** Count queries *)

Lemma rfind_none_contains p s : Str.rfind p s = None -> Str.contains p s = false.
Proof.
  intros H. destruct (Str.contains p s) eqn:E; [|reflexivity].
  destruct (contains_rfind p s E) as [i Hi]. congruence.
Qed.

Lemma get_count_query_bounded q :
  Str.contains "LIMIT" (Str.upper q) = true ->
  get_count_query q =
  "SELECT COUNT(*) as total_count FROM (" +:+ strip_limit q +:+ ") as count_subquery;".
Proof. intros H. unfold get_count_query, strip_limit. now rewrite H. Qed.

Lemma get_count_query_unbounded q :
  Str.contains "LIMIT" (Str.upper q) = false ->
  get_count_query q =
  "SELECT COUNT(*) as total_count FROM (" +:+ Str.rstrip_semi q +:+ ") as count_subquery;".
Proof. intros H. unfold get_count_query. now rewrite H. Qed.

Lemma count_query_rewritten (self : PaginationService) (q : string)
    (page : Z) (size : option Z) :
  Str.mem Str.sharp_s q = false ->
  get_count_query (add_pagination_to_query self q page size) =
  "SELECT COUNT(*) as total_count FROM ("
    +:+ Str.rstrip (Str.rstrip_semi (strip_limit q)) +:+ ") as count_subquery;".
Proof.
  intros Hq. unfold add_pagination_to_query. cbv zeta.
  rewrite get_count_query_bounded by apply contains_own_clause.
  rewrite strip_own_clause; [reflexivity|].
  eapply mem_prefix; [apply base_prefix|exact Hq].
Qed.

(** X1: For a query without the letter U+00DF, whose capital is two
    letters, the count query of a page does not depend on the page: it
    counts the base of the query, without the clause that the rewriter
    appended.  It is the count query of the query itself when the query has
    no LIMIT and, without its trailing semicolons, does not end in white
    space. *)
Theorem count_query_of_page (self : PaginationService) (q : string)
    (page : Z) (size : option Z) :
  Str.mem Str.sharp_s q = false ->
  get_count_query (add_pagination_to_query self q page size) =
  "SELECT COUNT(*) as total_count FROM ("
    +:+ Str.rstrip (Str.rstrip_semi (strip_limit q)) +:+ ") as count_subquery;" /\
  (Str.contains "LIMIT" (Str.upper q) = false ->
   Str.ends_in Str.is_space (Str.rstrip_semi q) = false ->
   get_count_query (add_pagination_to_query self q page size) = get_count_query q).
Proof.
  intros Hq. split; [now apply count_query_rewritten|].
  intros Hno Hsp.
  rewrite count_query_rewritten by exact Hq.
  rewrite (get_count_query_unbounded q Hno).
  unfold strip_limit. rewrite Hno.
  unfold Str.rstrip. now rewrite (rstrip_by_fixed _ _ Hsp).
Qed.

Lemma count_query_of_page_witness :
  get_count_query (add_pagination_to_query pagination_service "SELECT * FROM t;" 3 (Some 20))
  = get_count_query "SELECT * FROM t;".
Proof.
  destruct (count_query_of_page pagination_service "SELECT * FROM t;" 3 (Some 20) eq_refl)
    as [_ H].
  apply H; reflexivity.
Defined.

(** ** The implicit bound *)

Lemma upper_bounded_tail base digits :
  Str.contains "LIMIT"
    (Str.upper (base +:+ newline +:+ "LIMIT" +:+ digits)) = true.
Proof.
  rewrite <- append_assoc, !upper_app.
  change (Str.upper "LIMIT") with "LIMIT". apply contains_limit.
Qed.

Lemma safety_limit_short q :
  (String.length q <= 2000)%nat -> Databricks.add_safety_limit q = q.
Proof.
  intros Hlen. unfold Databricks.add_safety_limit.
  destruct (Z.ltb_spec 2000 (Z.of_nat (String.length q))); [lia|reflexivity].
Qed.

Lemma safety_limit_bounded q :
  Str.contains "LIMIT" (Str.upper q) = true -> Databricks.add_safety_limit q = q.
Proof.
  intros H. unfold Databricks.add_safety_limit. rewrite H.
  now rewrite andb_false_r.
Qed.

Lemma safety_limit_long q :
  (2000 < String.length q)%nat ->
  Str.contains "LIMIT" (Str.upper (Databricks.add_safety_limit q)) = true.
Proof.
  intros Hlen. unfold Databricks.add_safety_limit.
  destruct (Z.ltb_spec 2000 (Z.of_nat (String.length q))); [|lia].
  destruct (Str.contains "LIMIT" (Str.upper q)) eqn:E; simpl; [exact E|].
  destruct (Str.contains "WHERE INV_EXT_ID IN" q).
  - apply (upper_bounded_tail (Str.rstrip_semi q) " 15000;").
  - apply (upper_bounded_tail (Str.rstrip_semi q) " 100;").
Qed.

(** X2: The implicit bound leaves alone a query of at most 2000 characters and a
    query that has a LIMIT; any query longer than 2000 characters comes out
    with a LIMIT; and applying the bound twice changes nothing more. *)
Theorem safety_limit_bounds (q : string) :
  ((String.length q <= 2000)%nat -> Databricks.add_safety_limit q = q) /\
  (Str.contains "LIMIT" (Str.upper q) = true -> Databricks.add_safety_limit q = q) /\
  ((2000 < String.length q)%nat ->
   Str.contains "LIMIT" (Str.upper (Databricks.add_safety_limit q)) = true) /\
  Databricks.add_safety_limit (Databricks.add_safety_limit q)
    = Databricks.add_safety_limit q.
Proof.
  split; [apply safety_limit_short|].
  split; [apply safety_limit_bounded|].
  split; [apply safety_limit_long|].
  destruct (Nat.le_gt_cases (String.length q) 2000) as [Hle|Hgt].
  - now rewrite !(safety_limit_short q Hle).
  - apply safety_limit_bounded, safety_limit_long, Hgt.
Qed.

Lemma safety_limit_bounds_witness :
  Databricks.add_safety_limit "SELECT 1;" = "SELECT 1;".
Proof.
  destruct (safety_limit_bounds "SELECT 1;") as [H _].
  apply H. simpl. lia.
Defined.

(** ** Execution and the cache *)

Lemma safety_limit_never_unbounded q :
  unbounded_long (Databricks.add_safety_limit q) = false.
Proof.
  unfold unbounded_long.
  destruct (Nat.le_gt_cases (String.length q) 2000) as [Hle|Hgt].
  - rewrite (safety_limit_short q Hle).
    destruct (Z.ltb_spec 2000 (Z.of_nat (String.length q))); [lia|reflexivity].
  - rewrite (safety_limit_long q Hgt). apply andb_false_r.
Qed.

(** X3: [execute_query] never sends the warehouse a query over 2000 characters
    without a LIMIT: a warehouse that refuses such queries serves it as well
    as one that accepts them. *)
Theorem execute_query_sends_bounded (wh : Databricks.Warehouse)
    (w : Databricks.World) (now : Z) (query : string) (parameters : option Dict)
    (use_cache : bool) (cache_ttl : Z) :
  Databricks.execute_query (refusing wh) w now query parameters use_cache cache_ttl
  = Databricks.execute_query wh w now query parameters use_cache cache_ttl.
Proof.
  unfold Databricks.execute_query, Databricks.connect. simpl.
  rewrite safety_limit_never_unbounded. reflexivity.
Qed.

Lemma execute_query_hit (wh : Databricks.Warehouse) (w : Databricks.World)
    (now : Z) (query : string) (parameters : option Dict) (cache_ttl : Z) :
  let cached :=
    Cache.get (Databricks.cache_service w) now
      (Databricks.query_text_key query parameters) None in
  cached <> PNone ->
  Databricks.execute_query wh w now query parameters true cache_ttl = (Ok cached, w).
Proof.
  intros cached H. unfold Databricks.execute_query. fold cached.
  destruct cached; try reflexivity. congruence.
Qed.

(** X4: With caching disabled the cache is neither read nor written: the cache
    is left as it was in every outcome, and two worlds that differ only in
    their cache give the same outcome. *)
Theorem execute_query_without_cache (wh : Databricks.Warehouse)
    (w : Databricks.World) (now : Z) (query : string) (parameters : option Dict)
    (cache_ttl : Z) :
  Databricks.cache_service
    (Databricks.execute_query wh w now query parameters false cache_ttl).2
  = Databricks.cache_service w /\
  forall c,
    (Databricks.execute_query wh (Databricks.with_cache w c) now query parameters
       false cache_ttl).1
    = (Databricks.execute_query wh w now query parameters false cache_ttl).1.
Proof.
  unfold Databricks.execute_query, Databricks.connect, Databricks.with_cache.
  destruct w as [c0 conn]. simpl. split.
  - destruct conn; simpl;
      [|destruct (Databricks.can_connect wh); simpl; [|reflexivity]];
      destruct (Databricks.run wh _ _) as [[cols rows]|e]; reflexivity.
  - intros c.
    destruct conn; simpl;
      [|destruct (Databricks.can_connect wh); simpl; [|reflexivity]];
      destruct (Databricks.run wh _ _) as [[cols rows]|e]; reflexivity.
Qed.

(** X5: A call that raises leaves the cache as it was, on both execute paths:
    a failure is never cached. *)
Theorem failure_not_cached (wh : Databricks.Warehouse) (w : Databricks.World)
    (now : Z) (query : string) (parameters : option Dict) (use_cache : bool)
    (cache_ttl : Z) (e : exn) :
  ((Databricks.execute_query wh w now query parameters use_cache cache_ttl).1 = Raise e ->
   Databricks.cache_service
     (Databricks.execute_query wh w now query parameters use_cache cache_ttl).2
   = Databricks.cache_service w) /\
  ((Databricks.execute_query_unlimited wh w now query use_cache cache_ttl).1 = Raise e ->
   Databricks.cache_service
     (Databricks.execute_query_unlimited wh w now query use_cache cache_ttl).2
   = Databricks.cache_service w).
Proof.
  split.
  - unfold Databricks.execute_query, Databricks.connect.
    destruct (use_cache && Databricks.is_not_none _); [discriminate|].
    destruct w as [c0 conn]; simpl.
    destruct conn; simpl;
      [|destruct (Databricks.can_connect wh); simpl; [|reflexivity]];
      (destruct (Databricks.run wh _ _) as [[cols rows]|e']; simpl;
       [discriminate|reflexivity]).
  - unfold Databricks.execute_query_unlimited, Databricks.connect.
    destruct (use_cache && Databricks.is_not_none _); [discriminate|].
    destruct w as [c0 conn]; simpl.
    destruct conn; simpl;
      [|destruct (Databricks.can_connect wh); simpl; [|reflexivity]];
      (destruct (Databricks.run wh _ _) as [[cols rows]|e']; simpl;
       [discriminate|reflexivity]).
Qed.

Lemma failure_not_cached_witness :
  Databricks.cache_service
    (Databricks.execute_query unreachable_warehouse cold_world 100
       "SELECT id FROM t" None true 1800).2 = disk_only.
Proof.
  destruct (failure_not_cached unreachable_warehouse cold_world 100
              "SELECT id FROM t" None true 1800 RemoteError) as [H _].
  apply H. reflexivity.
Defined.

(** ** Storing and reading *)

(** X6: With the primary tier in service, a value stored with [set] is returned
    by every read of the same query and parameters until the entry expires,
    whatever the value: [None] apart, which is how a miss reads, an empty or
    zero value is returned like any other.  The value passes through its
    JSON text and is read back from it. *)
Theorem set_get_round_trip (self : Cache.CacheService) (now later : Z)
    (query : string) (data : PyVal) (ttl : option Z) (params : option Dict) :
  primary_up self -> wf data = true ->
  now <= later < now + int_or ttl (Cache.default_ttl self) ->
  (Cache.set self now query data ttl params).1 = true /\
  Cache.get (Cache.set self now query data ttl params).2 later query params = data.
Proof.
  intros Hup Hwf Htime. split; [|now apply stored_value_read].
  apply set_success. destruct Hup as (r & Hr & Hup).
  exists r. split; [exact Hr|]. split; [exact Hup|lia].
Qed.

Lemma set_get_round_trip_witness :
  let rows := PList [PDict [("id", PInt 7); ("name", PStr "alpha"); ("tags", PList [])]] in
  (Cache.set both_tiers 100 "SELECT 1" rows (Some 60) None).1 = true /\
  Cache.get (Cache.set both_tiers 100 "SELECT 1" rows (Some 60) None).2
            159 "SELECT 1" None = rows.
Proof.
  intros rows.
  apply (set_get_round_trip both_tiers 100 159 "SELECT 1" rows (Some 60) None).
  - eexists. split; reflexivity.
  - reflexivity.
  - simpl. lia.
Defined.

(** X7: Once a positive time to live has passed, the primary tier no longer
    answers for the key: a read gives what the fallback tier holds for it,
    which the write did not change, and is a miss when that tier holds
    nothing for it. *)
Theorem set_get_expired (self : Cache.CacheService) (now later : Z)
    (query : string) (data : PyVal) (ttl : option Z) (params : option Dict) :
  0 < int_or ttl (Cache.default_ttl self) ->
  now + int_or ttl (Cache.default_ttl self) <= later ->
  Cache.get (Cache.set self now query data ttl params).2 later query params
  = default PNone (Cache.get_disk self later (_generate_key query params)) /\
  Cache.disk_cache (Cache.set self now query data ttl params).2 = Cache.disk_cache self /\
  (Cache.get_disk self later (_generate_key query params) = None ->
   Cache.get (Cache.set self now query data ttl params).2 later query params = PNone).
Proof.
  intros Hpos Hlate.
  pose proof (expired_value_read self now later query data ttl params Hpos Hlate) as H.
  split; [exact H|]. split.
  - now destruct (set_tiers self now query data ttl params) as (_ & Hd & _).
  - intros Hnone. now rewrite H, Hnone.
Qed.

Lemma set_get_expired_witness :
  Cache.get (Cache.set both_tiers 100 "SELECT 1" (PInt 7) (Some 60) None).2
            159 "SELECT 1" None = PInt 7 /\
  Cache.get (Cache.set both_tiers 100 "SELECT 1" (PInt 7) (Some 60) None).2
            160 "SELECT 1" None = PNone /\
  Cache.get (Cache.set older_on_disk 100 "SELECT 1" (PInt 7) (Some 60) None).2
            160 "SELECT 1" None = PInt 9.
Proof.
  split; [vm_compute; reflexivity|]. split.
  - destruct (set_get_expired both_tiers 100 160 "SELECT 1" (PInt 7) (Some 60) None)
      as (_ & _ & H); [simpl; lia|simpl; lia|].
    apply H. reflexivity.
  - destruct (set_get_expired older_on_disk 100 160 "SELECT 1" (PInt 7) (Some 60) None)
      as (H & _); [simpl; lia|simpl; lia|].
    rewrite H. vm_compute. reflexivity.
Defined.

(** X8: Storing under one key leaves every other key as it was: a read of a
    query and parameters that derive another key gives what it gave before. *)
Theorem set_get_other_key (self : Cache.CacheService) (now later : Z)
    (query query' : string) (data : PyVal) (ttl : option Z)
    (params params' : option Dict) :
  _generate_key query' params' <> _generate_key query params ->
  Cache.get (Cache.set self now query data ttl params).2 later query' params'
  = Cache.get self later query' params'.
Proof. apply other_key_read. Qed.

Lemma set_get_other_key_witness :
  Cache.get (Cache.set warm_redis 100 "SELECT 1" (PInt 7) None None).2
            101 "SELECT 2" None
  = Cache.get warm_redis 101 "SELECT 2" None.
Proof.
  apply (set_get_other_key warm_redis 100 101 "SELECT 1" "SELECT 2").
  vm_compute. discriminate.
Defined.

(** X9: [set] reports failure exactly when the primary tier is absent, raises,
    or is handed a time to live that is not positive, and a write that
    reports failure has changed nothing.  The fallback tier is never
    changed. *)
Theorem set_failure_keeps (self : Cache.CacheService) (now : Z) (query : string)
    (data : PyVal) (ttl : option Z) (params : option Dict) :
  ((Cache.set self now query data ttl params).1 = false <->
   primary_unavailable self \/ int_or ttl (Cache.default_ttl self) <= 0) /\
  ((Cache.set self now query data ttl params).1 = false ->
   (Cache.set self now query data ttl params).2 = self) /\
  Cache.disk_cache (Cache.set self now query data ttl params).2 = Cache.disk_cache self.
Proof.
  split; [|split].
  - rewrite <- not_true_iff_false, set_success. unfold primary_unavailable. split.
    + intros Hno.
      destruct (Cache.redis_client self) as [r|] eqn:Er; [|left; now left].
      destruct (Cache.redis_up r) eqn:Eu; [|left; right; eauto].
      destruct (Z.le_gt_cases (int_or ttl (Cache.default_ttl self)) 0) as [?|Hgt];
        [now right|].
      exfalso. apply Hno. exists r. split; [reflexivity|]. split; [exact Eu|lia].
    + intros [[Hnone|(r & Hr & Hdown)]|Hle] (r' & Hr' & Hup & Hpos);
        [congruence|congruence|lia].
  - apply set_failed.
  - now destruct (set_tiers self now query data ttl params) as (_ & Hd & _).
Qed.

Lemma set_failure_keeps_witness :
  (Cache.set disk_only 100 "SELECT 1" (PInt 7) None None).1 = false /\
  (Cache.set disk_only 100 "SELECT 1" (PInt 7) None None).2 = disk_only.
Proof.
  destruct (set_failure_keeps disk_only 100 "SELECT 1" (PInt 7) None None)
    as (Hiff & Hkeep & _).
  assert (H : (Cache.set disk_only 100 "SELECT 1" (PInt 7) None None).1 = false)
    by (apply Hiff; left; left; reflexivity).
  split; [exact H|exact (Hkeep H)].
Defined.

(** ** Clearing by pattern *)

Lemma lookup_foldr_delete {A} (m : gmap string A) (keys : list string) (k : string) :
  foldr delete m keys !! k = if decide (k ∈ keys) then None else m !! k.
Proof.
  induction keys as [|k' keys IH]; cbn [foldr].
  - rewrite decide_False; [reflexivity|]. apply not_elem_of_nil.
  - destruct (decide (k = k')) as [->|Hne].
    + rewrite lookup_delete_eq, decide_True; [reflexivity|]. apply list_elem_of_here.
    + rewrite lookup_delete_ne by congruence. rewrite IH.
      destruct (decide (k ∈ keys)) as [Hin|Hout].
      * rewrite decide_True; [reflexivity|]. now apply list_elem_of_further.
      * rewrite decide_False; [reflexivity|].
        intros Hin. apply elem_of_cons in Hin as [?|?]; congruence.
Qed.

Section ClearFacts.

Variable key_matches : string -> string -> bool.

Lemma redis_keys_spec r now pattern keys k :
  Cache.redis_keys key_matches r now pattern = Ok keys ->
  k ∈ keys <->
  key_matches pattern k = true /\ is_Some (Cache.live now (Cache.redis_db r !! k)).
Proof.
  unfold Cache.redis_keys. destruct (Cache.redis_up r); [|discriminate].
  intros [= <-]. rewrite list_elem_of_filter. split.
  - intros [H _]. exact H.
  - intros H. split; [exact H|]. destruct H as [_ [a Ha]].
    destruct (Cache.redis_db r !! k) as [[text expires]|] eqn:E; [|discriminate].
    apply list_elem_of_fmap. exists (k, (text, expires)). split; [reflexivity|].
    now apply elem_of_map_to_list.
Qed.

End ClearFacts.

(** X10: Clearing with a pattern never touches the fallback tier.  With the
    primary tier absent nothing changes; with the primary tier raising the
    call reports failure and nothing changes; with the primary tier in
    service the call succeeds, the live entries whose key matches the
    pattern between two wildcards are gone and every other entry is as it
    was. *)
Theorem clear_pattern_effect (key_matches : string -> string -> bool)
    (self : Cache.CacheService) (now : Z) (p : string) :
  p <> EmptyString ->
  let out := Cache.clear_cache key_matches self now (Some p) in
  Cache.disk_cache out.2 = Cache.disk_cache self /\
  (Cache.redis_client self = None -> out = (true, self)) /\
  (forall r, Cache.redis_client self = Some r -> Cache.redis_up r = false ->
     out = (false, self)) /\
  (forall r, Cache.redis_client self = Some r -> Cache.redis_up r = true ->
     out.1 = true /\
     exists r', Cache.redis_client out.2 = Some r' /\ Cache.redis_up r' = true /\
       forall k,
         (key_matches ("*" +:+ p +:+ "*") k = true ->
          is_Some (Cache.live now (Cache.redis_db r !! k)) ->
          Cache.redis_db r' !! k = None) /\
         (key_matches ("*" +:+ p +:+ "*") k = false \/
          Cache.live now (Cache.redis_db r !! k) = None ->
          Cache.redis_db r' !! k = Cache.redis_db r !! k)).
Proof.
  intros Hp out.
  assert (Ht : Cache.str_truthy p = true).
  { unfold Cache.str_truthy. now apply negb_true_iff, String.eqb_neq. }
  assert (Hn : Cache.no_pattern (Some p) = false).
  { unfold Cache.no_pattern. now rewrite Ht. }
  destruct self as [dt rc dc]. unfold out, Cache.clear_cache.
  cbn [Cache.default_ttl Cache.redis_client Cache.disk_cache].
  rewrite Ht, Hn.
  destruct rc as [r|].
  2:{ destruct dc as [d|]; simpl; (split; [reflexivity|]);
        (split; [reflexivity|]); split; intros; discriminate. }
  destruct (Cache.redis_keys key_matches r now ("*" +:+ p +:+ "*")) as [keys|e] eqn:Ek.
  2:{ assert (Hdown : Cache.redis_up r = false).
      { unfold Cache.redis_keys in Ek. destruct (Cache.redis_up r); [discriminate|reflexivity]. }
      simpl. split; [reflexivity|]. split; [discriminate|].
      split; [reflexivity|]. intros r0 [= <-] Hup. congruence. }
  assert (Hup : Cache.redis_up r = true).
  { unfold Cache.redis_keys in Ek. destruct (Cache.redis_up r); [reflexivity|discriminate]. }
  pose proof (fun k => redis_keys_spec key_matches r now _ keys k Ek) as Hkeys.
  destruct keys as [|k0 keys].
  - destruct dc as [d|]; simpl; (split; [reflexivity|]); (split; [discriminate|]);
      (split; [intros r0 [= <-]; congruence|]);
      intros r0 [= <-] _; (split; [reflexivity|]);
      exists r; (split; [reflexivity|]); (split; [exact Hup|]);
      intros k; (split; [|reflexivity]);
      intros Hm Hl; exfalso; apply (not_elem_of_nil k); apply Hkeys; auto.
  - unfold Cache.redis_delete. rewrite Hup.
    destruct dc as [d|]; simpl; (split; [reflexivity|]); (split; [discriminate|]);
      (split; [intros r0 [= <-]; congruence|]);
      intros r0 [= <-] _; (split; [reflexivity|]);
      eexists; (split; [reflexivity|]); (split; [reflexivity|]);
      intros k; cbn [Cache.redis_db];
      change (delete k0 (foldr delete (Cache.redis_db r) keys))
        with (foldr delete (Cache.redis_db r) (k0 :: keys));
      rewrite lookup_foldr_delete;
      (split;
       [ intros Hm Hl; rewrite decide_True; [reflexivity|]; apply Hkeys; auto
       | intros Hno; rewrite decide_False; [reflexivity|];
         intros Hin; apply Hkeys in Hin as [Hm [a Ha]];
         destruct Hno; congruence ]).
Qed.

Lemma clear_pattern_effect_witness :
  Cache.disk_cache
    (Cache.clear_cache (fun _ k => Str.contains "query_a" k) warm_redis 100
       (Some "query_a")).2
  = Cache.disk_cache warm_redis.
Proof.
  apply (clear_pattern_effect (fun _ k => Str.contains "query_a" k) warm_redis 100
           "query_a").
  discriminate.
Defined.

(** ** Walking the pages of a list *)

Section Pages.

Context {A : Type}.
Variable self : PaginationService.
Variable l : list A.
Variable size : option Z.

Let s := effective_page_size self size.
Let len := Z.of_nat (length l).

Hypothesis size_pos : 1 <= s.
Hypothesis len_bound : len <= sys_maxsize.

Lemma paginate_list_ok page :
  1 <= page ->
  exists m,
    create_pagination_metadata len page s = Ok m /\
    paginate_list self l page size =
    Ok {| data := take (Z.to_nat s) (drop (Z.to_nat ((page - 1) * s)) l);
          pagination := m |}.
Proof.
  intros Hp.
  assert (Hmeta : exists m, create_pagination_metadata len page s = Ok m).
  { unfold create_pagination_metadata.
    destruct (Z.ltb_spec 0 len) as [Hpos|_]; [|eauto].
    destruct (true_div_finite len s) as [f ->]; [|lia|eauto].
    split; [lia|].
    assert (2 ^ 63 < 2 ^ 1023) by (apply Z.pow_lt_mono_r; lia).
    unfold sys_maxsize in len_bound. lia. }
  destruct Hmeta as [m Hm]. exists m. split; [exact Hm|].
  unfold paginate_list. fold s len.
  replace (effective_page page) with page by (unfold effective_page; lia).
  rewrite Hm. cbn [mbind result_bind mret result_ret]. do 2 f_equal.
  apply slice_forward; [nia|lia].
Qed.

Lemma pages_data_take n :
  concat (pages_data self l size n) = take (n * Z.to_nat s) l.
Proof.
  unfold pages_data. induction n as [|n IH].
  - reflexivity.
  - rewrite seq_S, map_app, concat_app, IH. cbn [map concat].
    destruct (paginate_list_ok (Z.of_nat (1 + n)) ltac:(lia)) as (m & _ & ->).
    cbn [data]. rewrite app_nil_r.
    replace (Z.to_nat ((Z.of_nat (1 + n) - 1) * s)) with (n * Z.to_nat s)%nat by nia.
    rewrite take_take_drop. f_equal. lia.
Qed.

End Pages.

(** X11: Walking a list page by page loses nothing and repeats nothing: the first
    [n] pages, one after the other, are the first [n * s] elements of the
    list, no page is longer than the page size, and the pages up to
    [total_pages] are the whole list. *)
Theorem pages_tile_list {A} (self : PaginationService) (l : list A)
    (size : option Z) :
  let s := effective_page_size self size in
  1 <= s < 2 ^ 53 ->
  Z.of_nat (length l) < 2 ^ 53 ->
  (forall n, concat (pages_data self l size n) = take (n * Z.to_nat s) l) /\
  (forall n, Forall (fun p => Z.of_nat (length p) <= s) (pages_data self l size n)) /\
  exists r,
    paginate_list self l 1 size = Ok r /\
    concat (pages_data self l size (Z.to_nat (total_pages (pagination r)))) = l.
Proof.
  intros s Hs Hlen.
  assert (Hmax : Z.of_nat (length l) <= sys_maxsize).
  { unfold sys_maxsize. assert (2 ^ 53 < 2 ^ 63 - 1) by (vm_compute; reflexivity). lia. }
  split; [|split].
  - intros n. apply pages_data_take; [lia|exact Hmax].
  - intros n. unfold pages_data. apply Forall_forall. intros p Hin.
    apply list_elem_of_fmap in Hin as (i & -> & Hi).
    apply elem_of_seq in Hi.
    destruct (paginate_list_ok self l size ltac:(fold s; lia) Hmax (Z.of_nat i) ltac:(lia))
      as (m & _ & ->).
    cbn [data]. rewrite length_take. fold s. lia.
  - destruct (paginate_list_ok self l size ltac:(fold s; lia) Hmax 1 ltac:(lia))
      as (m & Hm & Hr).
    eexists. split; [exact Hr|]. cbn [pagination].
    rewrite pages_data_take by (fold s; lia || exact Hmax).
    destruct (metadata_total_pages (Z.of_nat (length l)) 1 s ltac:(lia) ltac:(lia))
      as (m' & Hm' & Htp).
    fold s in Hm. rewrite Hm in Hm'. injection Hm' as <-.
    apply take_ge. fold s. nia.
Qed.

Lemma pages_tile_list_witness :
  concat (pages_data pagination_service [1; 2; 3; 4; 5; 6; 7] (Some 3) 2)
  = [1; 2; 3; 4; 5; 6].
Proof.
  destruct (pages_tile_list pagination_service [1; 2; 3; 4; 5; 6; 7] (Some 3))
    as [H _]; [unfold effective_page_size; simpl; lia|simpl; lia|].
  exact (H 2%nat).
Defined.

(** X12: [has_next] tells the truth about the list: a page reports a next page
    exactly when elements remain after it, that is, when the next page is
    not empty. *)
Theorem has_next_iff_more {A} (self : PaginationService) (l : list A)
    (page : Z) (size : option Z) :
  let s := effective_page_size self size in
  1 <= page ->
  1 <= s < 2 ^ 53 ->
  Z.of_nat (length l) < 2 ^ 53 ->
  exists r r',
    paginate_list self l page size = Ok r /\
    paginate_list self l (page + 1) size = Ok r' /\
    (has_next (pagination r) = true <-> page * s < Z.of_nat (length l)) /\
    (has_next (pagination r) = true <-> data r' <> []).
Proof.
  intros s Hp Hs Hlen.
  assert (Hmax : Z.of_nat (length l) <= sys_maxsize).
  { unfold sys_maxsize. assert (2 ^ 53 < 2 ^ 63 - 1) by (vm_compute; reflexivity). lia. }
  destruct (paginate_list_ok self l size ltac:(fold s; lia) Hmax page ltac:(lia))
    as (m & Hm & Hr).
  destruct (paginate_list_ok self l size ltac:(fold s; lia) Hmax (page + 1) ltac:(lia))
    as (m' & _ & Hr').
  fold s in Hm, Hr, Hr'.
  do 2 eexists. split; [exact Hr|]. split; [exact Hr'|]. cbn [pagination data].
  destruct (metadata_total_pages (Z.of_nat (length l)) page s ltac:(lia) ltac:(lia))
    as (m0 & Hm0 & Htp).
  rewrite Hm in Hm0. injection Hm0 as <-.
  destruct (metadata_fields _ _ _ _ Hm) as (_ & _ & _ & Hn & _).
  assert (Hiff : has_next m = true <-> page * s < Z.of_nat (length l)).
  { rewrite Hn, Z.ltb_lt. split; intros H; nia. }
  split; [exact Hiff|]. rewrite Hiff.
  replace (page + 1 - 1) with page by lia.
  split.
  - intros Hlt Hnil. apply (f_equal length) in Hnil.
    rewrite length_take, length_drop in Hnil. simpl in Hnil. nia.
  - intros Hne. destruct (Z.lt_ge_cases (page * s) (Z.of_nat (length l))) as [?|Hge];
      [assumption|].
    exfalso. apply Hne. rewrite drop_ge by nia. apply take_nil.
Qed.

Lemma has_next_iff_more_witness :
  exists r r',
    paginate_list pagination_service [1; 2; 3; 4; 5; 6; 7] 2 (Some 3) = Ok r /\
    paginate_list pagination_service [1; 2; 3; 4; 5; 6; 7] 3 (Some 3) = Ok r' /\
    (has_next (pagination r) = true <-> 2 * 3 < 7) /\
    (has_next (pagination r) = true <-> data r' <> []).
Proof.
  apply (has_next_iff_more pagination_service [1; 2; 3; 4; 5; 6; 7] 2 (Some 3));
    unfold effective_page_size; simpl; lia.
Defined.

(** ** Repeated calls *)

Section ClientFacts.

Import Databricks Client.


Lemma after_run_read w now later key cols rows ttl query parameters :
  key = query_text_key query parameters ->
  rows <> [] ->
  primary_up (cache_service w) -> forallb (forallb wf) rows = true ->
  0 < ttl -> now <= later < now + ttl ->
  Cache.get (cache_service (after_run w now key cols rows ttl)) later
    (query_text_key query parameters) None
  = PList (rows_to_dicts cols rows).
Proof.
  intros -> Hrows Hup Hcells Hpos Htime.
  unfold after_run. cbn [cache_service].
  destruct rows as [|row rows]; [congruence|].
  apply stored_value_read; [exact Hup|now apply rows_to_dicts_wf|].
  rewrite int_or_nonzero by lia. lia.
Qed.

Lemma stored_rows_read wh' w now later key cols rows ttl ttl' query parameters :
  key = query_text_key query parameters ->
  rows <> [] ->
  primary_up (cache_service w) -> forallb (forallb wf) rows = true ->
  0 < ttl -> now <= later < now + ttl ->
  execute_query wh' (after_run w now key cols rows ttl) later query parameters true ttl'
  = (Ok (PList (rows_to_dicts cols rows)), after_run w now key cols rows ttl).
Proof.
  intros Hkey Hrows Hup Hcells Hpos Htime.
  pose proof (after_run_read w now later key cols rows ttl query parameters
                Hkey Hrows Hup Hcells Hpos Htime) as Hget.
  pose proof (execute_query_hit wh' (after_run w now key cols rows ttl) later
                query parameters ttl') as Hhit.
  cbv zeta in Hhit. rewrite Hget in Hhit. apply Hhit. discriminate.
Qed.

Lemma rewritten_query_bounded self q page size :
  Str.contains "LIMIT" (Str.upper (add_pagination_to_query self q page size)) = true.
Proof.
  unfold add_pagination_to_query. cbv zeta. apply contains_own_clause.
Qed.

Lemma long_query_rows wh w now query page ps uc ttl cols rows :
  1000 < Z.of_nat (String.length query) ->
  connection w = true \/ can_connect wh = true ->
  run wh (add_pagination_to_query pagination_service query page (Some ps)) None
    = Ok (cols, rows) ->
  paginated_result wh w now query page ps uc ttl =
  match
    create_pagination_metadata
      (if Z.of_nat (length rows) <? ps
       then (page - 1) * ps + Z.of_nat (length rows)
       else Z.of_nat (length rows) * 10) page ps
  with
  | Raise e => (Fail (Exn e), connected w)
  | Ok m => (Done (page_val (PList (rows_to_dicts cols rows)) m), connected w)
  end.
Proof.
  intros Hlong Hconn Hrun. unfold paginated_result.
  destruct (Z.ltb_spec 1000 (Z.of_nat (String.length query))); [|lia].
  unfold execute_query. cbn [andb].
  rewrite (ensure_connection wh w Hconn).
  rewrite safety_limit_bounded by apply rewritten_query_bounded.
  cbn [dict_truthy]. rewrite Hrun. cbn [andb py_len].
  assert (Hn : length (rows_to_dicts cols rows) = length rows)
    by (unfold rows_to_dicts; apply length_map).
  rewrite !Hn. unfold connected.
  destruct (create_pagination_metadata _ _ _); reflexivity.
Qed.


End ClientFacts.

(** X13: With the primary tier in service, a result with at least one row that
    [execute_query] fetched on a miss is served from the cache by every later
    call with the same query and parameters until the entry expires, without
    the warehouse: the second call gives the same rows whatever the
    warehouse does, and changes nothing. *)
Theorem execute_query_miss_then_hit (wh wh' : Databricks.Warehouse)
    (w : Databricks.World) (now later : Z) (query : string)
    (parameters : option Dict) (ttl ttl' : Z)
    (cols : list string) (rows : list (list PyVal)) :
  Cache.get (Databricks.cache_service w) now
    (Databricks.query_text_key query parameters) None = PNone ->
  Databricks.connection w = true \/ Databricks.can_connect wh = true ->
  Databricks.run wh (Databricks.add_safety_limit query)
    (if Databricks.dict_truthy parameters then parameters else None) = Ok (cols, rows) ->
  rows <> [] ->
  primary_up (Databricks.cache_service w) ->
  forallb (forallb wf) rows = true ->
  0 < ttl -> now <= later < now + ttl ->
  let first := Databricks.execute_query wh w now query parameters true ttl in
  first.1 = Ok (PList (Databricks.rows_to_dicts cols rows)) /\
  Databricks.execute_query wh' first.2 later query parameters true ttl'
  = (Ok (PList (Databricks.rows_to_dicts cols rows)), first.2).
Proof.
  intros Hmiss Hconn Hrun Hrows Hup Hcells Hpos Htime first. unfold first.
  rewrite (execute_query_miss wh w now query parameters ttl cols rows Hmiss Hconn Hrun).
  split; [reflexivity|]. cbn [fst snd].
  now apply stored_rows_read.
Qed.

Lemma execute_query_miss_then_hit_witness :
  let first :=
    Databricks.execute_query stub_warehouse live_world 100 "SELECT id FROM t" None true 60 in
  first.1 = Ok (PList [PDict [("id", PInt 1)]; PDict [("id", PInt 2)]]) /\
  Databricks.execute_query unreachable_warehouse first.2 159 "SELECT id FROM t" None true 60
  = (Ok (PList [PDict [("id", PInt 1)]; PDict [("id", PInt 2)]]), first.2).
Proof.
  apply (execute_query_miss_then_hit stub_warehouse unreachable_warehouse live_world
           100 159 "SELECT id FROM t" None 60 60 ["id"] [[PInt 1]; [PInt 2]]).
  - reflexivity.
  - right. reflexivity.
  - reflexivity.
  - discriminate.
  - eexists. split; reflexivity.
  - reflexivity.
  - lia.
  - lia.
Defined.



(** ** Pages of a long query *)

(** X15: For a query of more than 1000 characters the total is an estimate.  A
    page with fewer rows than the page size is taken to be the last one: the
    total is the rows before it plus its own, and there is no next page.  A
    full page is taken to be one of ten: the total is ten times the page
    size, and a next page is reported up to page 9 and no further. *)
Theorem long_query_estimate (wh : Databricks.Warehouse) (w : Databricks.World)
    (now : Z) (query : string) (page page_size : Z) (use_cache : bool) (ttl : Z)
    (cols : list string) (rows : list (list PyVal)) :
  let n := Z.of_nat (length rows) in
  1000 < Z.of_nat (String.length query) ->
  Databricks.connection w = true \/ Databricks.can_connect wh = true ->
  Databricks.run wh
    (add_pagination_to_query pagination_service query page (Some page_size)) None
    = Ok (cols, rows) ->
  1 <= page -> 1 <= page_size -> page * page_size < 2 ^ 53 -> n * 10 < 2 ^ 53 ->
  exists m,
    Client.paginated_result wh w now query page page_size use_cache ttl
    = (Client.Done (Client.page_val (PList (Databricks.rows_to_dicts cols rows)) m),
       connected w) /\
    (n < page_size ->
     total_count m = (page - 1) * page_size + n /\ has_next m = false) /\
    (n = page_size ->
     total_count m = 10 * page_size /\ total_pages m = 10 /\
     has_next m = (page <? 10)).
Proof.
  intros n Hlong Hconn Hrun Hp Hs Hps Hn.
  rewrite (long_query_rows wh w now query page page_size use_cache ttl cols rows
             Hlong Hconn Hrun).
  fold n. set (total := if n <? page_size then _ else _).
  assert (Htotal : 0 <= total < 2 ^ 53).
  { unfold total. destruct (Z.ltb_spec n page_size); unfold n in *; nia. }
  destruct (metadata_total_pages total page page_size Htotal ltac:(nia))
    as (m & Hm & Htp).
  rewrite Hm. exists m. split; [reflexivity|].
  destruct (metadata_fields _ _ _ _ Hm) as (_ & _ & Htc & Hnext & _).
  split.
  - intros Hshort. unfold total in *.
    destruct (Z.ltb_spec n page_size); [|lia].
    split; [exact Htc|]. rewrite Hnext. apply Z.ltb_ge. nia.
  - intros Hfull. unfold total in *.
    destruct (Z.ltb_spec n page_size); [lia|].
    assert (total_pages m = 10) as Hten by nia.
    split; [lia|]. split; [exact Hten|]. now rewrite Hnext, Hten.
Qed.

Lemma long_query_estimate_witness :
  exists m,
    Client.paginated_result (constant_warehouse ["id"] [[PInt 1]; [PInt 2]])
      cold_world 100 long_query 12 2 true 60
    = (Client.Done
         (Client.page_val (PList [PDict [("id", PInt 1)]; PDict [("id", PInt 2)]]) m),
       connected cold_world) /\
    total_count m = 20 /\ total_pages m = 10 /\ has_next m = false.
Proof.
  destruct (long_query_estimate (constant_warehouse ["id"] [[PInt 1]; [PInt 2]])
              cold_world 100 long_query 12 2 true 60 ["id"] [[PInt 1]; [PInt 2]])
    as (m & Hm & _ & Hfull).
  - vm_compute. reflexivity.
  - right. reflexivity.
  - reflexivity.
  - lia.
  - lia.
  - simpl. lia.
  - simpl. lia.
  - exists m. split; [exact Hm|].
    destruct (Hfull eq_refl) as (H1 & H2 & H3). split; [exact H1|]. split; assumption.
Defined.



(** Below page 1 the same arithmetic reports a next page after a short
    page: the page number is not clamped on this path. *)
Example long_query_negative_page :
  exists m,
    Client.paginated_result (constant_warehouse ["id"] [[PInt 1]; [PInt 2]])
      cold_world 100 long_query (-5) 50 true 60
    = (Client.Done
         (Client.page_val (PList [PDict [("id", PInt 1)]; PDict [("id", PInt 2)]]) m),
       connected cold_world) /\
    total_count m = -298 /\ total_pages m = 0 /\ has_next m = true.
Proof. eexists. split; [reflexivity|]. vm_compute. repeat split. Qed.

(** ** The connection test *)

(** X17: The connection test always leaves the client disconnected, a client
    that was connected before it included.  It never reports success for a
    warehouse that refuses connections, whatever the cache holds, and then it
    leaves the cache as it was. *)
Theorem test_connection_closes (wh : Databricks.Warehouse) (w : Databricks.World)
    (now : Z) :
  Databricks.connection (Client.test_connection wh w now).2 = false /\
  ((Client.test_connection wh w now).1 = true -> Databricks.can_connect wh = true) /\
  (Databricks.can_connect wh = false ->
   Client.test_connection wh w now = (false, Client.disconnect w)).
Proof.
  unfold Client.test_connection, Databricks.connect.
  destruct (Databricks.can_connect wh).
  - destruct (Databricks.execute_query _ _ _ _ _ _ _) as [[res|e] w0]; simpl;
      (split; [reflexivity|]); split; try reflexivity; discriminate.
  - simpl. split; [reflexivity|]. split; [discriminate|reflexivity].
Qed.



(** Without a primary tier the first test stores nothing, and the second
    asks the warehouse again. *)
Example test_connection_without_primary :
  let wh := constant_warehouse ["test_column"] [[PInt 1]] in
  (Client.test_connection wh cold_world 100).1 = true /\
  (Client.test_connection failing_warehouse (Client.test_connection wh cold_world 100).2
     101).1 = false.
Proof. vm_compute. split; reflexivity. Qed.

Lemma test_connection_closes_witness :
  Client.test_connection unreachable_warehouse (connected cold_world) 100
  = (false, cold_world).
Proof.
  destruct (test_connection_closes unreachable_warehouse (connected cold_world) 100)
    as (_ & _ & H).
  apply H. reflexivity.
Defined.

(** ** Pages of a short query *)


